(** * ImpactSpark Pro: the metrics engine

    A shallow embedding of the analysis functions of
    [assets/app_functions.py] and of [calculate_metrics] in
    [utils/data_processing.py], with the properties of the engine that
    the design document states.

    A [DataFrame] is the list of its rows, every row a finite map from
    column names to cells, as [pd.DataFrame(list_of_dicts)] builds it.
    Numeric cells are exact rationals: integer citation counts are
    represented exactly, and the quotients the engine computes (means,
    velocities, interpolated percentiles) are the exact values that the
    floating point results approximate.  Text is a [string] of bytes,
    the UTF-8 encoding of the Python string. *)

From Stdlib Require Import ZArith QArith Lqa String Ascii.
From stdpp Require Import base list sorting gmap strings pretty.

Local Open Scope Q_scope.

(** ** Cells, rows and frames *)

Record date := { date_year : Z; date_month : Z; date_day : Z }.

(** [NaN] stands for every missing value: [None], [nan] and [NaT]. *)
Inductive cell :=
  | NaN
  | Num (q : Q)
  | Str (s : string)
  | Timestamp (d : date).

Abbreviation Series := (gmap string cell).
Abbreviation DataFrame := (list (gmap string cell)).

(** [row[c]] for a column the frame has: a row without the key holds a
    missing value there. *)
Definition at_col (c : string) (row : Series) : cell := default NaN (row !! c).

(** [c in df.columns] *)
Definition has_column (df : DataFrame) (c : string) : bool :=
  existsb (fun row => bool_decide (is_Some (row !! c))) df.

(** [df.empty]: no rows, or no columns. *)
Definition empty (df : DataFrame) : bool :=
  forallb (fun row => bool_decide (row = ∅)) df.

(** [df[c]] as the list of its values, top to bottom. *)
Definition column (df : DataFrame) (c : string) : list cell := at_col c <$> df.

(** [df[c] = values]: the assignment is aligned on the index, so the frame
    keeps its rows and a position without a value receives [NaN]. *)
Definition set_column (c : string) (values : list cell) (df : DataFrame) : DataFrame :=
  imap (fun i row => <[c := default NaN (values !! i)]> row) df.

(** The frame without the columns [cs], to compare what is left of two
    frames. *)
Definition without (cs : list string) (df : DataFrame) : DataFrame :=
  (fun row => foldr delete row cs) <$> df.

(** [df[c].isna().all()] *)
Definition isna (x : cell) : bool := match x with NaN => true | _ => false end.
Definition all_na (df : DataFrame) (c : string) : bool := forallb isna (column df c).

(** ** Exceptions *)

Inductive exn :=
  | KeyError (key : string)
  | IndexError
  | TypeError
  | AttributeError
  | ValueError.

Inductive result (A : Type) :=
  | Ok (a : A)
  | Raise (e : exn).
Arguments Ok {A} a.
Arguments Raise {A} e.

#[global] Instance result_ret : MRet result := fun _ a => Ok a.

#[global] Instance result_bind : MBind result := fun _ _ k m =>
  match m with
  | Ok a => k a
  | Raise e => Raise e
  end.

(** ** The library routines the engine calls

    What pandas decides by parsing text is a parameter of the model:
    [str_to_numeric s] is the number [pd.to_numeric] reads in the string
    [s] ([None] when it coerces it to NaN), and [to_datetime] is
    [pd.to_datetime(column, errors='coerce')] on a whole column, [None]
    standing for [NaT]; it returns one value for each value it is given. *)
Class Pandas := {
  str_to_numeric : string -> option Q;
  to_datetime : list cell -> list (option date);
  to_datetime_length : forall l, length (to_datetime l) = length l
}.

(** [pd.to_numeric(x, errors='coerce')] on one cell *)
Definition to_numeric `{Pandas} (x : cell) : option Q :=
  match x with
  | Num q => Some q
  | Str s => str_to_numeric s
  | NaN => None
  | Timestamp _ => None
  end.

(** ** Sorting and elementary statistics *)

#[global] Instance Qle_decision (x y : Q) : Decision (x <= y).
Proof.
  destruct (Qlt_le_dec y x) as [Hlt | Hle].
  - right. apply Qlt_not_le, Hlt.
  - left. exact Hle.
Defined.

(** [sort_values(ascending=False).values] and [np.sort] *)
Definition sort_desc (l : list Q) : list Q := merge_sort (flip Qle) l.
Definition sort_asc (l : list Q) : list Q := merge_sort Qle l.

Definition Qsum (l : list Q) : Q := foldr Qplus 0 l.

Definition rank (i : nat) : Q := inject_Z (Z.of_nat i).

(** [sum(citation_counts >= np.arange(k, k + len(citation_counts)))]:
    the number of positions whose count reaches its rank. *)
Fixpoint count_ge_rank (k : nat) (citation_counts : list Q) : nat :=
  match citation_counts with
  | [] => 0
  | c :: rest =>
      ((if Qle_bool (rank k) c then 1 else 0) + count_ge_rank (S k) rest)%nat
  end.

(** [sum(citation_counts >= 10)] *)
Definition count_ge (bound : Q) (citation_counts : list Q) : nat :=
  length (List.filter (fun c => Qle_bool bound c) citation_counts).

(** The g-index loop of [calculate_impact_metrics], entered at rank [i]
    with the running sum [cumulative_citations] and the current
    [g_index]; it leaves at the first rank whose running sum is short. *)
Fixpoint g_index_loop (i : nat) (cumulative_citations : Q) (g_index : nat)
    (citation_counts : list Q) : nat :=
  match citation_counts with
  | [] => g_index
  | count :: rest =>
      let cumulative_citations := cumulative_citations + count in
      if Qle_bool (rank (i * i)) cumulative_citations
      then g_index_loop (S i) cumulative_citations i rest
      else g_index
  end.

(** [np.percentile(a, p)], linear interpolation: the virtual index is
    [(n - 1) * p / 100], the value lies between its two neighbours. *)
Definition percentile (a : list Q) (p : nat) : Q :=
  let s := sort_asc a in
  let n := length s in
  let virtual := ((n - 1) * p)%nat in
  let previous := (virtual / 100)%nat in
  let next := Nat.min (S previous) (n - 1) in
  let gamma := inject_Z (Z.of_nat (virtual mod 100)) / 100 in
  let lo := nth previous s 0 in
  let hi := nth next s 0 in
  lo + gamma * (hi - lo).

(** A cell of the [citations] column as arithmetic takes it when the
    column was not coerced: a number, a missing value, or a value that
    [sum] and the comparisons reject. *)
Definition numeric (x : cell) : result (option Q) :=
  match x with
  | Num q => Ok (Some q)
  | NaN => Ok None
  | Str _ | Timestamp _ => Raise TypeError
  end.

(** [max(l)] *)
Definition Qmax (x y : Q) : Q := if Qle_bool x y then y else x.

Definition maximum (l : list Q) : Q :=
  match l with
  | [] => 0
  | x :: rest => foldl Qmax x rest
  end.

(** The batch whose records carry the citation counts [cs], in order. *)
Definition citation_frame (cs : list Q) : DataFrame :=
  (fun c => {[ "citations" := Num c ]}) <$> cs.

(** ** [calculate_impact_metrics] *)

Module AppFunctions.

Record ImpactMetrics := {
  total_publications : nat;
  total_citations : Q;
  avg_citations : Q;
  h_index : nat;
  i10_index : nat;
  g_index : nat;
  citation_percentiles : list (nat * Q)
}.

Definition percentiles : list nat := [10; 25; 50; 75; 90; 95; 99]%nat.

(** The numeric citation column the function stores back in the frame:
    zeros when the frame has no such column, the coerced values with
    NaN replaced by 0 otherwise. *)
Definition coerced_citations `{Pandas} (df : DataFrame) : list Q :=
  if has_column df "citations"
  then (fun x => default 0 (to_numeric x)) <$> column df "citations"
  else replicate (length df) 0.

(** The function returns its dictionary and leaves the frame it was given
    in the second component. *)
Definition calculate_impact_metrics `{Pandas} (df : DataFrame)
    : ImpactMetrics * DataFrame :=
  if empty df then
    ({| total_publications := 0; total_citations := 0; avg_citations := 0;
        h_index := 0; i10_index := 0; g_index := 0;
        citation_percentiles := [] |}, df)
  else
    let citations := coerced_citations df in
    let df := set_column "citations" (Num <$> citations) df in
    let total_publications := length df in
    let total_citations := Qsum citations in
    let avg_citations :=
      if (0 <? total_publications)%nat
      then total_citations / rank total_publications else 0 in
    let citation_counts := sort_desc citations in
    ({| total_publications := total_publications;
        total_citations := total_citations;
        avg_citations := avg_citations;
        h_index := count_ge_rank 1 citation_counts;
        i10_index := count_ge 10 citation_counts;
        g_index := g_index_loop 1 0 0 citation_counts;
        citation_percentiles :=
          (fun p => (p, percentile citations p)) <$> percentiles |}, df).

End AppFunctions.

(** ** [calculate_metrics] of [utils/data_processing.py] *)

Module DataProcessing.

Record Metrics := {
  total_publications : nat;
  total_citations : Q;
  avg_citations : Q;
  h_index : nat
}.

(** The h-index loop: [i] is the position of [enumerate], from 0. *)
Fixpoint h_index_loop (i : nat) (h_index : nat) (sorted_cites : list Q) : nat :=
  match sorted_cites with
  | [] => h_index
  | cite :: rest =>
      if Qle_bool (rank (i + 1)) cite
      then h_index_loop (S i) (i + 1) rest
      else h_index
  end.

(** The column is used as it is: without it [df['citations']] raises,
    [sum] skips missing values, and [sort_values] places them last, where
    the loop stops at the first of them. *)
Definition calculate_metrics (df : DataFrame) : result Metrics :=
  if empty df then
    Ok {| total_publications := 0; total_citations := 0;
          avg_citations := 0; h_index := 0 |}
  else if negb (has_column df "citations") then Raise (KeyError "citations")
  else
    cells ← mapM numeric (column df "citations");
    let cites := omap id cells in
    let total_pubs := length df in
    let total_cites := Qsum cites in
    let avg_cites :=
      if (0 <? total_pubs)%nat then total_cites / rank total_pubs else 0 in
    let sorted_cites := sort_desc cites in
    Ok {| total_publications := total_pubs;
          total_citations := total_cites;
          avg_citations := avg_cites;
          h_index := h_index_loop 0 0 sorted_cites |}.

End DataProcessing.

(** ** [analyze_publications_by_time] *)

(** [groupby(key)]: the groups in ascending order of the key, each with
    the values of its rows in row order; a row whose key is missing
    belongs to no group. *)
Fixpoint group_insert {A} (k : Z) (v : A) (groups : list (Z * list A))
    : list (Z * list A) :=
  match groups with
  | [] => [(k, [v])]
  | (k', vs) :: rest =>
      if (k <? k')%Z then (k, [v]) :: groups
      else if (k =? k')%Z then (k', vs ++ [v]) :: rest
      else (k', vs) :: group_insert k v rest
  end.

Definition groupby {A} (keys : list (option Z)) (values : list A)
    : list (Z * list A) :=
  foldl (fun groups kv =>
           match kv.1 with
           | Some k => group_insert k kv.2 groups
           | None => groups
           end) [] (zip keys values).

(** The aggregations skip missing values; an empty mean or median is NaN. *)
Definition mean (l : list Q) : option Q :=
  match l with
  | [] => None
  | _ => Some (Qsum l / rank (length l))
  end.

Definition median (l : list Q) : option Q :=
  let s := sort_asc l in
  let n := length s in
  if (n =? 0)%nat then None
  else if Nat.odd n then Some (nth (n / 2) s 0)
  else Some ((nth (n / 2 - 1) s 0 + nth (n / 2) s 0) / 2).

Definition opt_cell (o : option Q) : cell :=
  match o with
  | Some q => Num q
  | None => NaN
  end.

Definition date_cell (o : option date) : cell :=
  match o with
  | Some d => Timestamp d
  | None => NaN
  end.

(** [.dt.year] of one cell of a datetime column *)
Definition dt_year (x : cell) : option Z :=
  match x with
  | Timestamp d => Some (date_year d)
  | _ => None
  end.

Module TimeAnalysis.

Record YearStats := {
  citations_sum : Q;
  citations_mean : option Q;
  citations_median : option Q
}.

Record result_dict := {
  publications_by_year : list (Z * nat);
  citations_by_year : list (Z * YearStats);
  citation_velocity : list (Z * option Q)
}.

Definition empty_result : result_dict :=
  {| publications_by_year := []; citations_by_year := [];
     citation_velocity := [] |}.

Definition year_stats (group : list (option Q)) : YearStats :=
  let present := omap id group in
  {| citations_sum := Qsum present;
     citations_mean := mean present;
     citations_median := median present |}.

(** [current_year - df['year']] *)
Definition years_since (current_year : Z) (year : option Z) : option Q :=
  (fun y => inject_Z (current_year - y)) <$> year.

(** [df['citations'] / df['years_since_publication'].clip(lower=1)] on one
    row; a missing operand gives NaN. *)
Definition velocity (citations : option Q) (age : option Q) : option Q :=
  match citations, age with
  | Some c, Some a => Some (c / (if Qle_bool 1 a then a else 1))
  | _, _ => None
  end.

(** The function writes four columns in the frame it was given, one after
    the other, so the model returns the frame next to its outcome: after
    an exception the columns written so far are there.  The year of the
    clock, [datetime.now().year], is the argument [current_year]. *)
Definition analyze_publications_by_time `{Pandas} (current_year : Z)
    (df : DataFrame) : result result_dict * DataFrame :=
  if empty df || negb (has_column df "publication_date") then
    (Ok empty_result, df)
  else
    let df :=
      set_column "publication_date"
        (date_cell <$> to_datetime (column df "publication_date")) df in
    let year := dt_year <$> column df "publication_date" in
    let df :=
      set_column "year" ((fun y => opt_cell (inject_Z <$> y)) <$> year) df in
    let publications_by_year :=
      (fun g => (g.1, length g.2)) <$> groupby year (column df "year") in
    (* df.groupby('year')['citations']: the selection of a column that the
       frame does not have raises KeyError('Column not found: citations') *)
    if negb (has_column df "citations") then
      (Raise (KeyError "Column not found: citations"), df)
    else
      let grouped := groupby year (column df "citations") in
      match mapM (fun g => vs ← mapM numeric g.2;
                           mret (g.1, year_stats vs)) grouped with
      | Raise e => (Raise e, df)
      | Ok citations_by_year =>
          let age := years_since current_year <$> year in
          let df := set_column "years_since_publication" (opt_cell <$> age) df in
          match mapM numeric (column df "citations") with
          | Raise e => (Raise e, df)
          | Ok citations =>
              let v := zip_with velocity citations age in
              let df := set_column "citation_velocity" (opt_cell <$> v) df in
              let citation_velocity :=
                (fun g => (g.1, mean (omap id g.2))) <$> groupby year v in
              (Ok {| publications_by_year := publications_by_year;
                     citations_by_year := citations_by_year;
                     citation_velocity := citation_velocity |}, df)
          end
      end.

End TimeAnalysis.

(** The number of records whose [publication_date] the coercion reads as
    a date. *)
Definition records_with_date `{Pandas} (df : DataFrame) : nat :=
  if has_column df "publication_date"
  then length (omap id (to_datetime (column df "publication_date")))
  else 0%nat.

(** The number of records whose [publication_date] is read as a date of
    the year [y]. *)
Definition in_year (y : Z) (d : option date) : bool :=
  match d with
  | Some d => (date_year d =? y)%Z
  | None => false
  end.

Definition records_in_year `{Pandas} (df : DataFrame) (y : Z) : nat :=
  length (List.filter (in_year y) (to_datetime (column df "publication_date"))).

(** ** Text *)

(** [s.split(sep)]: always at least one piece. *)
Fixpoint split_on (sep : ascii) (s : string) : list string :=
  match s with
  | EmptyString => [EmptyString]
  | String c rest =>
      if Ascii.eqb c sep then EmptyString :: split_on sep rest
      else match split_on sep rest with
           | [] => [String c EmptyString]
           | w :: ws => String c w :: ws
           end
  end.

(** Text is held as the bytes of its UTF-8 encoding, which is how a
    string of this file is read, so a name can hold any character: a
    character beyond ASCII is two bytes or more, none of them below 80,
    and the comma and the ASCII spaces are always characters of their own.
    [str.strip] removes the characters for which [str.isspace] holds, on
    both sides.  Those of one byte are the ASCII ones, U+0009 to U+000D
    and U+001C to U+0020. *)
Definition is_space (c : ascii) : bool :=
  let n := nat_of_ascii c in
  ((9 <=? n) && (n <=? 13) || (28 <=? n) && (n <=? 32))%nat.

(** Those of two bytes: U+0085 (C2 85) and U+00A0 (C2 A0). *)
Definition is_space2 (c1 c2 : ascii) : bool :=
  let n1 := nat_of_ascii c1 in
  let n2 := nat_of_ascii c2 in
  ((n1 =? 194) && ((n2 =? 133) || (n2 =? 160)))%nat.

(** Those of three bytes: U+1680 (E1 9A 80), U+2000 to U+200A (E2 80 80
    to E2 80 8A), U+2028, U+2029 and U+202F (E2 80 A8, A9 and AF), U+205F
    (E2 81 9F) and U+3000 (E3 80 80). *)
Definition is_space3 (c1 c2 c3 : ascii) : bool :=
  let n1 := nat_of_ascii c1 in
  let n2 := nat_of_ascii c2 in
  let n3 := nat_of_ascii c3 in
  ((n1 =? 225) && (n2 =? 154) && (n3 =? 128)
   || (n1 =? 226) && (n2 =? 128)
      && ((128 <=? n3) && (n3 <=? 138) || (n3 =? 168) || (n3 =? 169)
          || (n3 =? 175))
   || (n1 =? 226) && (n2 =? 129) && (n3 =? 159)
   || (n1 =? 227) && (n2 =? 128) && (n3 =? 128))%nat.

(** [s.lstrip()] *)
Fixpoint lstrip (s : string) : string :=
  match s with
  | EmptyString => EmptyString
  | String c1 s1 =>
      if is_space c1 then lstrip s1
      else
        match s1 with
        | EmptyString => s
        | String c2 s2 =>
            if is_space2 c1 c2 then lstrip s2
            else
              match s2 with
              | EmptyString => s
              | String c3 s3 => if is_space3 c1 c2 c3 then lstrip s3 else s
              end
        end
  end.

(** [s.rstrip()] on the bytes of [s] in reverse order: the last byte of a
    character comes first. *)
Fixpoint rstrip_reversed (s : string) : string :=
  match s with
  | EmptyString => EmptyString
  | String c1 s1 =>
      if is_space c1 then rstrip_reversed s1
      else
        match s1 with
        | EmptyString => s
        | String c2 s2 =>
            if is_space2 c2 c1 then rstrip_reversed s2
            else
              match s2 with
              | EmptyString => s
              | String c3 s3 =>
                  if is_space3 c3 c2 c1 then rstrip_reversed s3 else s
              end
        end
  end.

Definition strip (s : string) : string :=
  String.rev (rstrip_reversed (String.rev (lstrip s))).

(** U+00A0, the no-break space, for the examples. *)
Definition no_break_space : string :=
  String (ascii_of_nat 194) (String (ascii_of_nat 160) EmptyString).

(** ** [analyze_authors] *)

(** An insertion-ordered [dict] from names to lists, as
    [d.setdefault(k, []).append(v)] fills it. *)
Fixpoint dict_append {A} (k : string) (v : A) (d : list (string * list A))
    : list (string * list A) :=
  match d with
  | [] => [(k, [v])]
  | (k', vs) :: rest =>
      if String.eqb k k' then (k', vs ++ [v]) :: rest
      else (k', vs) :: dict_append k v rest
  end.

(** The names of one [authors] cell, split on commas and stripped: none
    for a missing or empty cell; a cell that is not text has no [split]. *)
Definition split_names (x : cell) : result (list string) :=
  match x with
  | NaN => Ok []
  | Str s => if String.eqb s "" then Ok [] else Ok (strip <$> split_on "," s)
  | Num _ | Timestamp _ => Raise AttributeError
  end.

Definition nonempty (s : string) : bool := negb (String.eqb s "").

(** A square array of counts, [np.zeros((k, k))], and [m[i, j] += 1]. *)
Definition zeros (k : nat) : list (list nat) := replicate k (replicate k 0%nat).

Definition increment (i j : nat) (m : list (list nat)) : list (list nat) :=
  alter (alter S j) i m.

Definition entry (m : list (list nat)) (i j : nat) : nat :=
  default 0%nat (m !! i ≫= (.!! j)).

Module Authors.

Record AuthorStats := {
  author : string;
  paper_count : nat;
  citations : Q;
  avg_citations : option Q;
  h_index : nat
}.

(** [author_collaborations] is a frame whose index and columns are both
    [labels] and whose values are [counts]. *)
Record Collaborations := {
  labels : list string;
  counts : list (list nat)
}.

Record result_dict := {
  author_impact : list AuthorStats;
  author_collaborations : Collaborations
}.

Definition empty_result : result_dict :=
  {| author_impact := [];
     author_collaborations := {| labels := []; counts := [] |} |}.

(** The first loop over the rows: [all_authors] and [author_papers]. *)
Definition extract_step (acc : list string * list (string * list Series))
    (row : Series) : result (list string * list (string * list Series)) :=
  paper_authors ← split_names (at_col "authors" row);
  mret (foldl (fun acc author =>
                 if nonempty author
                 then (acc.1 ++ [author], dict_append author row acc.2)
                 else acc) acc paper_authors).

Fixpoint extract_authors (acc : list string * list (string * list Series))
    (rows : list Series) : result (list string * list (string * list Series)) :=
  match rows with
  | [] => Ok acc
  | row :: rest => acc ← extract_step acc row; extract_authors acc rest
  end.

(** The metrics of one author with at least two papers; [has_citations]
    tells whether the frame has a [citations] column. *)
Definition author_stats (has_citations : bool) (name : string)
    (papers : list Series) : result AuthorStats :=
  if negb has_citations then Raise (KeyError "citations")
  else
    cells ← mapM numeric (column papers "citations");
    let values := omap id cells in
    let citation_counts := sort_desc values in
    mret {| author := name;
            paper_count := length papers;
            citations := Qsum values;
            avg_citations := mean values;
            h_index := count_ge_rank 1 citation_counts |}.

Fixpoint author_metrics (has_citations : bool)
    (author_papers : list (string * list Series)) : result (list AuthorStats) :=
  match author_papers with
  | [] => Ok []
  | (name, papers) :: rest =>
      if (length papers <? 2)%nat then author_metrics has_citations rest
      else
        stats ← author_stats has_citations name papers;
        more ← author_metrics has_citations rest;
        mret (stats :: more)
  end.

(** [{author: i for i, author in enumerate(significant_authors)}] *)
Definition author_indices (significant_authors : list string) : gmap string nat :=
  foldl (fun m ia => <[ia.2 := ia.1]> m) ∅
        (zip (seq 0 (length significant_authors)) significant_authors).

Definition member (x : string) (l : list string) : bool :=
  existsb (String.eqb x) l.

(** The two nested loops over the significant authors of one paper. *)
Definition pair_with (indices : gmap string nat) (idx1 : nat)
    (others : list string) (m : list (list nat)) : list (list nat) :=
  foldl (fun m author2 =>
           match indices !! author2 with
           | Some idx2 => increment idx2 idx1 (increment idx1 idx2 m)
           | None => m
           end) m others.

Fixpoint count_pairs (indices : gmap string nat) (paper_authors : list string)
    (m : list (list nat)) : list (list nat) :=
  match paper_authors with
  | [] => m
  | author1 :: rest =>
      let m := match indices !! author1 with
               | Some idx1 => pair_with indices idx1 rest m
               | None => m
               end in
      count_pairs indices rest m
  end.

Fixpoint collaborate (significant_authors : list string)
    (indices : gmap string nat) (rows : list Series) (m : list (list nat))
    : result (list (list nat)) :=
  match rows with
  | [] => Ok m
  | row :: rest =>
      names ← split_names (at_col "authors" row);
      let paper_authors :=
        List.filter (fun a => member a significant_authors) names in
      collaborate significant_authors indices rest
                  (count_pairs indices paper_authors m)
  end.

Definition analyze_authors (df : DataFrame) : result result_dict :=
  if empty df || negb (has_column df "authors") then Ok empty_result
  else
    extracted ← extract_authors ([], []) df;
    let author_papers := extracted.2 in
    metrics ← author_metrics (has_column df "citations") author_papers;
    (* author_impact = pd.DataFrame(author_metrics): without a row the
       frame has no column, and author_impact['paper_count'] raises *)
    match metrics with
    | [] => Raise (KeyError "paper_count")
    | _ =>
        let significant_authors :=
          author <$> List.filter (fun a => (2 <=? paper_count a)%nat) metrics in
        let indices := author_indices significant_authors in
        m ← collaborate significant_authors indices df
              (zeros (length significant_authors));
        mret {| author_impact := metrics;
                author_collaborations :=
                  {| labels := significant_authors; counts := m |} |}
    end.

End Authors.

(** ** [analyze_keywords] *)

(** Three more library routines are parameters.

    [Series.value_counts] and [DataFrame.sort_values] order rows by a
    count, the largest first, and leave the order of the rows with equal
    counts to the sorting routine: [sort_by_count] is that routine, of
    which the model knows that it rearranges the rows it is given and that
    the counts of its result never grow.

    [to_datetime_raise] is [pd.to_datetime(column)] with the default
    [errors='raise']: it raises where the other coerces to [NaT], and
    returns one value for each value it is given.

    [fit_transform_titles] is [CountVectorizer(stop_words='english',
    min_df=3, ngram_range=(1, 2)).fit_transform] on texts, returned with
    the vocabulary that [get_feature_names_out()] gives afterwards: a row
    of counts for each text, a count for each term of the vocabulary. *)
Class Sorting := {
  sort_by_count : list (string * nat) -> list (string * nat);
  sort_by_count_perm : forall l, sort_by_count l ≡ₚ l;
  sort_by_count_sorted :
    forall l, StronglySorted (fun x y : string * nat => (y.2 <= x.2)%nat)
                             (sort_by_count l)
}.

Class Dates := {
  to_datetime_raise : list cell -> result (list (option date));
  to_datetime_raise_length :
    forall l dates, to_datetime_raise l = Ok dates -> length dates = length l
}.

Class TitleVectorizer := {
  fit_transform_titles : list string -> result (list string * list (list nat))
}.

(** [counts[v] += 1] on the counts of the distinct values, kept in the
    order in which the values first occur. *)
Fixpoint tally (v : string) (counts : list (string * nat)) : list (string * nat) :=
  match counts with
  | [] => [(v, 1%nat)]
  | (v', n) :: rest =>
      if String.eqb v v' then (v', S n) :: rest else (v', n) :: tally v rest
  end.

(** [pd.Series(values).value_counts()] *)
Definition value_counts `{Sorting} (values : list string) : list (string * nat) :=
  sort_by_count (foldl (fun counts v => tally v counts) [] values).

(** [d[k]] for a [dict] of lists, [None] when [k not in d]. *)
Fixpoint dict_get {A} (k : string) (d : list (string * list A)) : option (list A) :=
  match d with
  | [] => None
  | (k', vs) :: rest => if String.eqb k k' then Some vs else dict_get k rest
  end.

(** A cell of [df['title'].fillna('')] as the vectorizer takes it: a
    missing title is the empty text, and the vectorizer calls [lower] on
    the document, which only text has. *)
Definition title_document (x : cell) : result string :=
  match x with
  | NaN => Ok ""
  | Str s => Ok s
  | Num _ | Timestamp _ => Raise AttributeError
  end.

(** [np.sum(rows, axis=0)] for rows of [width] counts *)
Definition column_sums (width : nat) (rows : list (list nat)) : list nat :=
  (fun j => sum_list ((fun row => default 0%nat (row !! j)) <$> rows))
    <$> seq 0 width.

Module Keywords.

Record KeywordStats := {
  keyword : string;
  paper_count : nat;
  total_citations : Q;
  avg_citations : option Q
}.

(** A row of [keyword_trends]: its columns [keyword], [year], [count]. *)
Record KeywordTrend := {
  trend_keyword : string;
  trend_year : Z;
  trend_count : nat
}.

Record result_dict := {
  keyword_frequency : list (string * nat);
  keyword_impact : list KeywordStats;
  keyword_trends : list KeywordTrend
}.

Definition empty_result : result_dict :=
  {| keyword_frequency := []; keyword_impact := []; keyword_trends := [] |}.

(** The first loop over the rows: [all_keywords] and [keyword_papers]. *)
Definition extract_step (acc : list string * list (string * list Series))
    (row : Series) : result (list string * list (string * list Series)) :=
  paper_keywords ← split_names (at_col "keywords" row);
  mret (foldl (fun acc keyword =>
                 if nonempty keyword
                 then (acc.1 ++ [keyword], dict_append keyword row acc.2)
                 else acc) acc paper_keywords).

Fixpoint extract_keywords (acc : list string * list (string * list Series))
    (rows : list Series) : result (list string * list (string * list Series)) :=
  match rows with
  | [] => Ok acc
  | row :: rest => acc ← extract_step acc row; extract_keywords acc rest
  end.

(** The metrics of one keyword with at least three papers;
    [has_citations] tells whether the frame has a [citations] column. *)
Definition keyword_stats (has_citations : bool) (name : string)
    (papers : list Series) : result KeywordStats :=
  if negb has_citations then Raise (KeyError "citations")
  else
    cells ← mapM numeric (column papers "citations");
    let values := omap id cells in
    mret {| keyword := name;
            paper_count := length papers;
            total_citations := Qsum values;
            avg_citations := mean values |}.

Fixpoint keyword_metrics (has_citations : bool)
    (keyword_papers : list (string * list Series)) : result (list KeywordStats) :=
  match keyword_papers with
  | [] => Ok []
  | (name, papers) :: rest =>
      if (length papers <? 3)%nat then keyword_metrics has_citations rest
      else
        stats ← keyword_stats has_citations name papers;
        more ← keyword_metrics has_citations rest;
        mret (stats :: more)
  end.

(** The rows that one keyword adds to [keyword_trends]: the years of its
    papers in ascending order, each with the number of papers. *)
Definition yearly_counts `{Dates} (name : string) (papers : list Series)
    : result (list KeywordTrend) :=
  dates ← to_datetime_raise (column papers "publication_date");
  let year := (fun d : option date => date_year <$> d) <$> dates in
  mret ((fun g : Z * list (option Z) =>
           {| trend_keyword := name; trend_year := g.1;
              trend_count := length g.2 |}) <$> groupby year year).

(** The loop over [top_keywords]; [has_date] tells whether the frame has a
    [publication_date] column. *)
Fixpoint trends `{Dates} (has_date : bool)
    (keyword_papers : list (string * list Series)) (top_keywords : list string)
    : result (list KeywordTrend) :=
  match top_keywords with
  | [] => Ok []
  | name :: rest =>
      match dict_get name keyword_papers with
      | Some papers =>
          if has_date then
            rows ← yearly_counts name papers;
            more ← trends has_date keyword_papers rest;
            mret (rows ++ more)
          else trends has_date keyword_papers rest
      | None => trends has_date keyword_papers rest
      end
  end.

Definition analyze_keywords `{Sorting} `{Dates} `{TitleVectorizer}
    (df : DataFrame) : result result_dict :=
  if empty df then Ok empty_result
  else
    let has_keywords := has_column df "keywords" && negb (all_na df "keywords") in
    if has_keywords then
      extracted ← extract_keywords ([], []) df;
      let all_keywords := extracted.1 in
      let keyword_papers := extracted.2 in
      let keyword_frequency := value_counts all_keywords in
      keyword_impact ← keyword_metrics (has_column df "citations") keyword_papers;
      let top_keywords := take 20 keyword_frequency.*1 in
      keyword_trends ←
        trends (has_column df "publication_date") keyword_papers top_keywords;
      mret {| keyword_frequency := keyword_frequency;
              keyword_impact := keyword_impact;
              keyword_trends := keyword_trends |}
    else if has_column df "title" && negb (all_na df "title") then
      documents ← mapM title_document (column df "title");
      fitted ← fit_transform_titles documents;
      let terms := fitted.1 in
      let term_freq := column_sums (length terms) fitted.2 in
      mret {| keyword_frequency := sort_by_count (zip terms term_freq);
              keyword_impact := [];
              keyword_trends := [] |}
    else Ok empty_result.

End Keywords.

(** ** [find_similar_papers] *)

(** Two more library routines are parameters: [str] on a cell that is not
    text, and [CountVectorizer(stop_words='english').fit_transform], which
    gives every document its vector of term counts over the vocabulary of
    the corpus and raises [ValueError] when that vocabulary is empty. *)
Class Python := {
  str_num : Q -> string;
  str_timestamp : date -> string
}.

Class Sklearn := {
  fit_transform : list string -> result (list (list nat))
}.

Definition str `{Python} (x : cell) : string :=
  match x with
  | Str s => s
  | Num q => str_num q
  | Timestamp d => str_timestamp d
  | NaN => "nan"
  end.

(** [' '.join(content)] *)
Fixpoint join (sep : string) (content : list string) : string :=
  match content with
  | [] => ""
  | [s] => s
  | s :: rest => s ++ sep ++ join sep rest
  end.

Definition dot (u v : list nat) : Z :=
  foldr Z.add 0%Z (zip_with (fun a b => Z.of_nat a * Z.of_nat b)%Z u v).

(** [cosine_similarity] divides the dot product of two rows by the
    product of their norms, and gives 0 when a row is null.  The ranking
    compares the entries of one row of the result only; term counts are
    not negative, so two of these entries are ordered as their squares
    are, and the square is the rational number below.  The division of
    [Q] gives 0 for a null denominator. *)
Definition cosine_sq (u v : list nat) : Q :=
  inject_Z (dot u v * dot u v) / inject_Z (dot u u * dot v v).

Definition similarity_row (content_vectors : list (list nat)) (target : nat)
    : list Q :=
  let u := default [] (content_vectors !! target) in
  cosine_sq u <$> content_vectors.

(** [np.argsort]: the positions in ascending order of their values, equal
    values in the order of their positions. *)
Fixpoint insert_sorted (x : Q * nat) (l : list (Q * nat)) : list (Q * nat) :=
  match l with
  | [] => [x]
  | y :: rest =>
      if Qle_bool x.1 y.1 then x :: l else y :: insert_sorted x rest
  end.

Definition argsort (values : list Q) : list nat :=
  snd <$> foldr insert_sorted [] (zip values (seq 0 (length values))).

(** [df.iloc[indices]] for positions that are all in range *)
Definition iloc (df : DataFrame) (indices : list nat) : DataFrame :=
  omap (fun i => df !! i) indices.

Module Similarity.

(** The features in use, in the order the function tests them. *)
Definition usable (df : DataFrame) (feature : string) : bool :=
  has_column df feature && negb (all_na df feature).

Definition features (df : DataFrame) : list string :=
  List.filter (usable df) ["abstract"; "title"; "keywords"].

Definition document `{Python} (features : list string) (row : Series) : string :=
  join " " (str <$> List.filter (fun x => negb (isna x))
                                ((fun f => at_col f row) <$> features)).

(** [np.argsort(similarities[target_paper_index])[::-1][1:n+1]], or no
    position at all where the function returns an empty frame;
    [target_paper_index] is a position from 0, [n] a count. *)
Definition similar_indices `{Python} `{Sklearn} (df : DataFrame)
    (target_paper_index : nat) (n : nat) : result (list nat) :=
  if empty df || (length df <=? 1)%nat then Ok []
  else if (length df <=? target_paper_index)%nat then Raise IndexError
  else
    let features := features df in
    match features with
    | [] => Ok []
    | _ =>
        let documents := document features <$> df in
        content_vectors ← fit_transform documents;
        let similarities := similarity_row content_vectors target_paper_index in
        mret (take n (drop 1 (reverse (argsort similarities))))
    end.

Definition find_similar_papers `{Python} `{Sklearn} (df : DataFrame)
    (target_paper_index : nat) (n : nat) : result DataFrame :=
  similar_indices ← similar_indices df target_paper_index n;
  mret (iloc df similar_indices).

End Similarity.

(** ** Instances for worked examples

    The library routines on the inputs that the examples use: decimal
    integers for [pd.to_numeric] and [str], dates written [YYYY-MM-DD],
    and a vectorizer that lower-cases ASCII text, takes the runs of two or
    more letters, digits and underscores as terms, and drops the stop
    words listed here, some of the English stop words of the library. *)

Definition digit_value (c : ascii) : option Z :=
  let n := nat_of_ascii c in
  if ((48 <=? n) && (n <=? 57))%nat then Some (Z.of_nat n - 48)%Z else None.

Fixpoint digits_value (acc : Z) (s : string) : option Z :=
  match s with
  | EmptyString => Some acc
  | String c rest =>
      match digit_value c with
      | Some d => digits_value (10 * acc + d)%Z rest
      | None => None
      end
  end.

Definition parse_nat (s : string) : option Z :=
  match s with
  | EmptyString => None
  | _ => digits_value 0 s
  end.

Definition parse_date (x : cell) : option date :=
  match x with
  | Timestamp d => Some d
  | Str s =>
      if negb (String.length s =? 10)%nat then None
      else
        match parse_nat (substring 0 4 s), parse_nat (substring 5 2 s),
              parse_nat (substring 8 2 s) with
        | Some y, Some m, Some d =>
            if (String.eqb (substring 4 1 s) "-" && String.eqb (substring 7 1 s) "-"
                && (1 <=? m)%Z && (m <=? 12)%Z && (1 <=? d)%Z && (d <=? 31)%Z)%bool
            then Some {| date_year := y; date_month := m; date_day := d |}
            else None
        | _, _, _ => None
        end
  | _ => None
  end.

Definition is_word_char (c : ascii) : bool :=
  let n := nat_of_ascii c in
  ((48 <=? n) && (n <=? 57) || (65 <=? n) && (n <=? 90)
   || (97 <=? n) && (n <=? 122) || (n =? 95))%nat.

Definition lower (c : ascii) : ascii :=
  let n := nat_of_ascii c in
  if ((65 <=? n) && (n <=? 90))%nat then ascii_of_nat (n + 32) else c.

(** The runs of word characters of a text, lower-cased; [word] is the run
    being read, in reverse. *)
Fixpoint runs (word : list ascii) (s : string) : list string :=
  let close := match word with
               | [] => []
               | _ => [string_of_list_ascii (rev word)]
               end in
  match s with
  | EmptyString => close
  | String c rest =>
      if is_word_char c then runs (lower c :: word) rest
      else close ++ runs [] rest
  end.

Definition stop_words : list string :=
  ["a"; "an"; "and"; "are"; "as"; "at"; "be"; "by"; "for"; "from"; "in";
   "is"; "it"; "of"; "on"; "or"; "that"; "the"; "this"; "to"; "was";
   "with"].

Definition tokens (doc : string) : list string :=
  List.filter (fun w => (2 <=? String.length w)%nat
                        && negb (existsb (String.eqb w) stop_words))
              (runs [] doc).

Definition count_terms (docs : list string) : result (list (list nat)) :=
  let corpus := tokens <$> docs in
  let vocabulary := remove_dups (concat corpus) in
  match vocabulary with
  | [] => Raise ValueError
  | _ => Ok ((fun ws => (fun t => length (List.filter (String.eqb t) ws))
                          <$> vocabulary) <$> corpus)
  end.

Definition pad2 (z : Z) : string :=
  if (z <? 10)%Z then ("0" ++ pretty z)%string else pretty z.

#[global] Instance example_pandas : Pandas := {|
  str_to_numeric := fun s => inject_Z <$> parse_nat (strip s);
  to_datetime := fmap parse_date;
  to_datetime_length := length_fmap parse_date
|}.

#[global] Instance example_python : Python := {|
  str_num := fun q => pretty (Qnum q);
  str_timestamp := fun d =>
    (pretty (date_year d) ++ "-" ++ pad2 (date_month d) ++ "-"
       ++ pad2 (date_day d) ++ " 00:00:00")%string
|}.

#[global] Instance example_sklearn : Sklearn := {|
  fit_transform := count_terms
|}.

(** For [analyze_keywords]: the rows ordered by a stable sort on the
    counts; dates that must be missing or written [YYYY-MM-DD]; and a
    vectorizer whose terms are the tokens above and the pairs of tokens
    that follow each other, kept when three texts or more hold them, in
    the order in which the corpus first holds them. *)
Definition by_count (x y : string * nat) : Prop := (y.2 <= x.2)%nat.

#[global] Instance by_count_decision (x y : string * nat) : Decision (by_count x y).
Proof. unfold by_count. apply _. Defined.

Definition parse_date_raise (x : cell) : result (option date) :=
  match x with
  | NaN => Ok None
  | _ => match parse_date x with
         | Some d => Ok (Some d)
         | None => Raise ValueError
         end
  end.

Fixpoint bigrams (ws : list string) : list string :=
  match ws with
  | w :: (w' :: _) as rest => (w ++ " " ++ w')%string :: bigrams rest
  | _ => []
  end.

Definition title_terms (doc : string) : list string :=
  let ws := tokens doc in ws ++ bigrams ws.

Definition count_title_terms (docs : list string)
    : result (list string * list (list nat)) :=
  let corpus := title_terms <$> docs in
  let document_frequency t :=
    length (List.filter (fun ws => existsb (String.eqb t) ws) corpus) in
  let vocabulary :=
    List.filter (fun t => (3 <=? document_frequency t)%nat)
                (remove_dups (concat corpus)) in
  match vocabulary with
  | [] => Raise ValueError
  | _ => Ok (vocabulary,
             (fun ws => (fun t => length (List.filter (String.eqb t) ws))
                          <$> vocabulary) <$> corpus)
  end.

#[global, refine] Instance example_sorting : Sorting :=
  {| sort_by_count := merge_sort by_count |}.
Proof.
  - intros l. apply merge_sort_Permutation.
  - intros l.
    assert (Transitive by_count) by (intros x y z; unfold by_count; lia).
    assert (Total by_count) by (intros x y; unfold by_count; lia).
    apply (StronglySorted_merge_sort by_count).
Defined.

#[global, refine] Instance example_dates : Dates :=
  {| to_datetime_raise := mapM parse_date_raise |}.
Proof.
  induction l as [|x l IH]; intros dates Hrun.
  - by injection Hrun as <-.
  - change (mapM parse_date_raise (x :: l))
      with (y ← parse_date_raise x; k ← mapM parse_date_raise l; mret (y :: k))
      in Hrun.
    destruct (parse_date_raise x); [|discriminate].
    destruct (mapM parse_date_raise l) as [k|]; [|discriminate].
    injection Hrun as <-. simpl. f_equal. by apply IH.
Defined.

#[global] Instance example_title_vectorizer : TitleVectorizer := {|
  fit_transform_titles := count_title_terms
|}.

(** ** Auxiliary definitions of the statements *)

(** The columns that [analyze_publications_by_time] writes. *)
Definition time_columns : list string :=
  ["publication_date"; "year"; "years_since_publication"; "citation_velocity"].

(** The number of rows that the groups of a [groupby] hold, and the
    number of those under the key [y]. *)
Definition group_sizes {A} (groups : list (Z * list A)) : nat :=
  sum_list ((fun g => length g.2) <$> groups).

Definition group_count {A} (y : Z) (groups : list (Z * list A)) : nat :=
  sum_list ((fun g => if (g.1 =? y)%Z then length g.2 else 0%nat) <$> groups).

(** The keys of the groups grow strictly. *)
Definition ascending {A} (groups : list (Z * list A)) : Prop :=
  StronglySorted (fun g g' : Z * list A => (g.1 < g'.1)%Z) groups.

Definition key_is (y : Z) (k : option Z) : bool :=
  match k with
  | Some k => (k =? y)%Z
  | None => false
  end.

(** The value that [percentile] interpolates at a virtual index given in
    hundredths. *)
Definition interpolate (s : list Q) (virtual : nat) : Q :=
  let previous := (virtual / 100)%nat in
  let next := Nat.min (S previous) (length s - 1) in
  nth previous s 0
  + inject_Z (Z.of_nat (virtual mod 100)) / 100
    * (nth next s 0 - nth previous s 0).

(** A [k] by [k] array, and an array equal to its transpose. *)
Definition Square (k : nat) (m : list (list nat)) : Prop :=
  length m = k /\ Forall (fun row => length row = k) m.

Definition SymmetricMatrix (m : list (list nat)) : Prop :=
  forall i j, entry m i j = entry m j i.

Definition ZeroDiagonal (m : list (list nat)) : Prop :=
  forall i, entry m i i = 0%nat.

(** Every pair of positions that [count_pairs] increments for the names
    [authors], the earlier name first, is a pair that [allowed] accepts. *)
Fixpoint pairs_allowed (indices : gmap string nat) (allowed : nat -> nat -> Prop)
    (authors : list string) : Prop :=
  match authors with
  | [] => True
  | author1 :: rest =>
      (forall author2 idx1 idx2,
          author2 ∈ rest -> indices !! author1 = Some idx1 ->
          indices !! author2 = Some idx2 -> allowed idx1 idx2)
      /\ pairs_allowed indices allowed rest
  end.

(** A cell that is a number or is missing. *)
Definition is_numeric (x : cell) : Prop :=
  match x with
  | Num _ | NaN => True
  | Str _ | Timestamp _ => False
  end.

(** ** Further definitions of the statements *)

(** The citations of the [i] most cited records of a descending vector. *)
Definition top_sum (i : nat) (citation_counts : list Q) : Q :=
  Qsum (take i citation_counts).

(** The number that a cell of a numeric column adds to a sum: a missing
    value adds nothing. *)
Definition cell_value (x : cell) : Q :=
  match x with
  | Num q => q
  | _ => 0
  end.

(** The citation counts of the records whose [publication_date] is read as
    a date. *)
Definition dated_citations `{Pandas} (df : DataFrame) : list Q :=
  (fun dc => cell_value dc.2)
    <$> List.filter (fun dc : option date * cell => bool_decide (is_Some dc.1))
          (zip (to_datetime (column df "publication_date"))
               (column df "citations")).

(** The citations that the groups of a [groupby] hold. *)
Definition group_total (groups : list (Z * list cell)) : Q :=
  Qsum ((fun g => Qsum (cell_value <$> g.2)) <$> groups).

(** The names that the first loop of [analyze_authors] credits, in the
    order of the records: the stripped pieces of every [authors] cell that
    are not empty. *)
Definition credited_names (df : DataFrame) : result (list string) :=
  names ← mapM (fun row => split_names (at_col "authors" row)) df;
  mret (List.filter nonempty (concat names)).

Definition occurrences (a : string) (names : list string) : nat :=
  length (List.filter (String.eqb a) names).

(** The number of rows that a [dict] of lists holds under the key [a]. *)
Definition dict_count {A} (a : string) (d : list (string * list A)) : nat :=
  sum_list ((fun kv => if String.eqb a kv.1 then length kv.2 else 0%nat) <$> d).

(** The records whose author list names both [a] and [b]. *)
Definition lists_both (a b : string) (row : Series) : bool :=
  match split_names (at_col "authors" row) with
  | Ok names => bool_decide (a ∈ names /\ b ∈ names)
  | Raise _ => false
  end.

Definition joint_records (a b : string) (df : DataFrame) : nat :=
  length (List.filter (lists_both a b) df).

(** What the loop of one record keeps true of [all_authors] and
    [author_papers]. *)
Definition papers_of (all_authors : list string)
    (author_papers : list (string * list Series)) : Prop :=
  NoDup author_papers.*1
  /\ Forall (fun kv => (0 < length kv.2)%nat) author_papers
  /\ forall a, dict_count a author_papers = occurrences a all_authors.

(** The entries of [author_papers] that [author_metrics] keeps. *)
Definition significant (kv : string * list Series) : bool :=
  (2 <=? length kv.2)%nat.

Definition stats_of (st : Authors.AuthorStats) (kv : string * list Series) : Prop :=
  Authors.author st = kv.1
  /\ Authors.paper_count st = length kv.2
  /\ (Authors.h_index st <= length kv.2)%nat.

(** A cell that is present and is not text. *)
Definition not_text (x : cell) : Prop :=
  match x with
  | Num _ | Timestamp _ => True
  | NaN | Str _ => False
  end.

(** The value at position [t] is larger than every other value. *)
Definition strict_maximum (values : list Q) (t : nat) : Prop :=
  exists v, values !! t = Some v
            /\ forall j w, j <> t -> values !! j = Some w -> w < v.

(** The order of [argsort] on the pairs of a value and its position. *)
Definition by_value (x y : Q * nat) : Prop := x.1 <= y.1.

(** The pairs of positions [p < q] of a list of names that hold [a] at
    [p] and [b] at [q]. *)
Fixpoint ordered_pairs (a b : string) (names : list string) : nat :=
  match names with
  | [] => 0%nat
  | x :: rest =>
      ((if String.eqb x a then occurrences b rest else 0) + ordered_pairs a b rest)%nat
  end.

(** The names of the [authors] cell of a record. *)
Definition names_of (row : Series) : list string :=
  match split_names (at_col "authors" row) with
  | Ok names => names
  | Raise _ => []
  end.

(** The number of times the records pair [a] with [b]: the pairs of
    positions of one author list that hold the two names, in either
    order, added up over the records. *)
Definition pairings (a b : string) (df : DataFrame) : nat :=
  sum_list ((fun row => (ordered_pairs a b (names_of row)
                         + ordered_pairs b a (names_of row))%nat) <$> df).

(** The number of times the records name [a] twice: the pairs of
    positions of one author list that both hold [a], added up over the
    records. *)
Definition repeated_pairs (a : string) (df : DataFrame) : nat :=
  sum_list ((fun row => ordered_pairs a a (names_of row)) <$> df).

(** The keywords that the first loop of [analyze_keywords] credits, in the
    order of the records: the stripped pieces of every [keywords] cell
    that are not empty. *)
Definition credited_keywords (df : DataFrame) : result (list string) :=
  names ← mapM (fun row => split_names (at_col "keywords" row)) df;
  mret (List.filter nonempty (concat names)).

(** The count that a table of counts holds for the value [a]. *)
Definition tally_count (a : string) (counts : list (string * nat)) : nat :=
  sum_list ((fun kv : string * nat => if String.eqb a kv.1 then kv.2 else 0%nat)
              <$> counts).

(** What the tally of the values [values] holds. *)
Definition tally_of (values : list string) (counts : list (string * nat)) : Prop :=
  NoDup counts.*1
  /\ Forall (fun kv => (0 < kv.2)%nat) counts
  /\ forall a, tally_count a counts = occurrences a values.

(** The entries of [keyword_papers] that [keyword_metrics] keeps. *)
Definition frequent (kv : string * list Series) : bool :=
  (3 <=? length kv.2)%nat.

Definition keyword_stats_of (st : Keywords.KeywordStats)
    (kv : string * list Series) : Prop :=
  Keywords.keyword st = kv.1 /\ Keywords.paper_count st = length kv.2.

(** The rows of [keyword_trends] for the keyword [k]. *)
Definition trend_rows (k : string) (rows : list Keywords.KeywordTrend)
    : list Keywords.KeywordTrend :=
  List.filter (fun row => String.eqb (Keywords.trend_keyword row) k) rows.

(** * Properties *)

(** ** Order on the rationals *)

#[global] Instance Qle_total : Total Qle.
Proof. intros x y. destruct (Qlt_le_dec y x); [right; apply Qlt_le_weak|left]; done. Qed.

#[global] Instance Qle_transitive : Transitive Qle.
Proof. intros x y z. apply Qle_trans. Qed.

#[global] Instance Qge_total : Total (flip Qle).
Proof. intros x y. destruct (Qle_total x y); [right|left]; done. Qed.

#[global] Instance Qge_transitive : Transitive (flip Qle).
Proof. intros x y z Hxy Hyz. exact (Qle_trans _ _ _ Hyz Hxy). Qed.

Lemma rank_le (i j : nat) : (i <= j)%nat -> rank i <= rank j.
Proof. intros Hij. unfold rank. rewrite <- Zle_Qle. lia. Qed.


Lemma Qle_bool_false (x y : Q) : Qle_bool x y = false <-> y < x.
Proof.
  rewrite <- not_true_iff_false, Qle_bool_iff. split.
  - apply Qnot_le_lt.
  - apply Qlt_not_le.
Qed.

Lemma sort_desc_sorted (l : list Q) : StronglySorted (flip Qle) (sort_desc l).
Proof. apply (StronglySorted_merge_sort (flip Qle)). Qed.

Lemma sort_asc_sorted (l : list Q) : StronglySorted Qle (sort_asc l).
Proof. apply (StronglySorted_merge_sort Qle). Qed.

Lemma sort_desc_perm (l : list Q) : sort_desc l ≡ₚ l.
Proof. apply merge_sort_Permutation. Qed.

Lemma sort_asc_perm (l : list Q) : sort_asc l ≡ₚ l.
Proof. apply merge_sort_Permutation. Qed.

(** ** The two h-index computations *)

Lemma count_ge_rank_length (k : nat) (l : list Q) :
  (count_ge_rank k l <= length l)%nat.
Proof.
  revert k. induction l as [|c l IH]; intros k; simpl; [lia|].
  specialize (IH (S k)). destruct (Qle_bool (rank k) c); lia.
Qed.

Lemma count_ge_rank_below (k k' : nat) (l : list Q) :
  (k <= k')%nat -> Forall (fun c => c < rank k) l -> count_ge_rank k' l = 0%nat.
Proof.
  intros Hk Hl. revert k' Hk.
  induction Hl as [|c l Hc _ IH]; intros k' Hk; simpl; [done|].
  rewrite (IH (S k')) by lia.
  assert (Qle_bool (rank k') c = false) as ->; [|done].
  apply Qle_bool_false. eapply Qlt_le_trans; [exact Hc|]. by apply rank_le.
Qed.

(** On a descending sequence the loop that stops at the first failure
    counts exactly the ranks that the comparison of arrays counts. *)
Lemma h_index_loop_count (i : nat) (s : list Q) :
  StronglySorted (flip Qle) s ->
  DataProcessing.h_index_loop i i s = (i + count_ge_rank (i + 1) s)%nat.
Proof.
  intros Hs. revert i.
  induction Hs as [|c s _ IH Hc]; intros i; simpl; [lia|].
  destruct (Qle_bool (rank (i + 1)) c) eqn:Hle.
  - replace (i + 1)%nat with (S i) by lia. rewrite IH.
    replace (S i + 1)%nat with (S (S i)) by lia. lia.
  - rewrite (count_ge_rank_below (i + 1)); [lia|lia|].
    apply Qle_bool_false in Hle.
    eapply Forall_impl; [exact Hc|]. intros x Hx. simpl in Hx.
    eapply Qle_lt_trans; [exact Hx|exact Hle].
Qed.

Lemma h_index_loop_bound (M : Q) (i h : nat) (s : list Q) :
  Forall (fun c => c <= M) s -> rank h <= M ->
  rank (DataProcessing.h_index_loop i h s) <= M.
Proof.
  intros Hs. revert i h.
  induction Hs as [|c s Hc _ IH]; intros i h Hh; simpl; [done|].
  destruct (Qle_bool (rank (i + 1)) c) eqn:Hle; [|done].
  apply IH. apply Qle_bool_iff in Hle. by etransitivity.
Qed.

Import AppFunctions.

(** ** Frames of citation counts *)

Lemma empty_rows (df : DataFrame) :
  empty df = true -> forall row, row ∈ df -> row = ∅.
Proof.
  unfold empty. rewrite forallb_forall. intros Hall row Hrow.
  apply list_elem_of_In, Hall in Hrow. by apply bool_decide_eq_true in Hrow.
Qed.

Lemma empty_has_no_column (df : DataFrame) (c : string) :
  empty df = true -> has_column df c = false.
Proof.
  intros Hempty. apply not_true_iff_false. unfold has_column.
  rewrite existsb_exists. intros (row & Hrow & Hc).
  apply list_elem_of_In in Hrow.
  rewrite (empty_rows df Hempty row Hrow) in Hc.
  apply bool_decide_eq_true in Hc. rewrite lookup_empty in Hc.
  by destruct Hc.
Qed.

Lemma citation_frame_empty (cs : list Q) :
  empty (citation_frame cs) = match cs with [] => true | _ => false end.
Proof. by destruct cs. Qed.

Lemma citation_frame_has_column (c : Q) (cs : list Q) :
  has_column (citation_frame (c :: cs)) "citations" = true.
Proof. done. Qed.

Lemma citation_frame_column (cs : list Q) :
  column (citation_frame cs) "citations" = Num <$> cs.
Proof.
  unfold column, citation_frame. rewrite <- list_fmap_compose.
  apply list_fmap_ext. intros i c _. simpl. unfold at_col.
  by rewrite lookup_singleton_eq.
Qed.

Lemma coerced_citation_frame `{Pandas} (c : Q) (cs : list Q) :
  coerced_citations (citation_frame (c :: cs)) = c :: cs.
Proof.
  unfold coerced_citations. rewrite citation_frame_has_column.
  rewrite citation_frame_column, <- list_fmap_compose.
  rewrite <- (list_fmap_id (c :: cs)) at 2. by apply list_fmap_ext.
Qed.

Lemma coerced_citations_length `{Pandas} (df : DataFrame) :
  length (coerced_citations df) = length df.
Proof.
  unfold coerced_citations, column. destruct (has_column df "citations").
  - by rewrite !length_fmap.
  - by rewrite length_replicate.
Qed.

Lemma set_column_length (c : string) (values : list cell) (df : DataFrame) :
  length (set_column c values df) = length df.
Proof. apply length_imap. Qed.

Lemma mapM_numeric_Num (cs : list Q) : mapM numeric (Num <$> cs) = Ok (Some <$> cs).
Proof.
  induction cs as [|c cs IH]; [done|].
  rewrite fmap_cons. change (mapM numeric (Num c :: (Num <$> cs)))
    with (y ← numeric (Num c); k ← mapM numeric (Num <$> cs); mret (y :: k)).
  by rewrite IH.
Qed.

Lemma omap_id_Some {A} (l : list A) : omap id (Some <$> l) = l.
Proof. induction l as [|x l IH]; [done|]. rewrite fmap_cons. cbn. by f_equal. Qed.

Lemma maximum_upper (l : list Q) : Forall (fun c => c <= maximum l) l.
Proof.
  destruct l as [|x l]; [constructor|]. simpl.
  assert (forall l a, a <= foldl Qmax a l /\ Forall (fun c => c <= foldl Qmax a l) l) as Hfold.
  { clear. induction l as [|y l IH]; intros a; simpl.
    - split; [apply Qle_refl|constructor].
    - destruct (IH (Qmax a y)) as [Ha Hl].
      assert (a <= Qmax a y /\ y <= Qmax a y) as [Ha' Hy].
      { unfold Qmax. destruct (Qle_bool a y) eqn:Hle.
        - apply Qle_bool_iff in Hle. split; [done|apply Qle_refl].
        - apply Qle_bool_false in Hle. split; [apply Qle_refl|by apply Qlt_le_weak]. }
      split; [by etransitivity|]. constructor; [by etransitivity|done]. }
  destruct (Hfold l x). by constructor.
Qed.

(** The h-index of a non-empty frame is the count over its descending
    citation vector, and never more than the length of that vector. *)
Lemma h_index_nonempty `{Pandas} (df : DataFrame) :
  empty df = false ->
  h_index (calculate_impact_metrics df).1
  = count_ge_rank 1 (sort_desc (coerced_citations df)).
Proof. intros Hne. unfold calculate_impact_metrics. by rewrite Hne. Qed.

Lemma h_index_le_publications `{Pandas} (df : DataFrame) :
  (h_index (calculate_impact_metrics df).1
   <= total_publications (calculate_impact_metrics df).1)%nat.
Proof.
  unfold calculate_impact_metrics. destruct (empty df); simpl; [lia|].
  rewrite set_column_length, <- (coerced_citations_length df).
  rewrite <- (Permutation_length (sort_desc_perm _)).
  apply count_ge_rank_length.
Qed.

Lemma count_ge_rank_le_max (l : list Q) (M : Q) :
  0 <= M -> Forall (fun c => c <= M) l ->
  rank (count_ge_rank 1 (sort_desc l)) <= M.
Proof.
  intros HM Hl.
  pose proof (h_index_loop_count 0 (sort_desc l) (sort_desc_sorted l)) as Hloop.
  simpl in Hloop. rewrite <- Hloop.
  apply h_index_loop_bound; [|done].
  by rewrite (sort_desc_perm l).
Qed.

(** ** The g-index of the worked example *)

(** C1, as the design document states it: the g-index of the citation
    vector [25, 8, 5, 3, 3] would be 2.  It is not: the running sums are
    25, 33, 38, 41 and 44, and 38 reaches 9, so rank 3 does not fail. *)
Lemma g_index_example_is_not_2 :
  g_index (calculate_impact_metrics (citation_frame [25; 8; 5; 3; 3])).1 <> 2%nat.
Proof. vm_compute. discriminate. Qed.

(** C1, amended: for the citation vector [25, 8, 5, 3, 3] the loop of
    [calculate_impact_metrics] passes every rank (25 >= 1, 33 >= 4,
    38 >= 9, 41 >= 16, 44 >= 25) and the g-index is 5. *)
Theorem g_index_example `{Pandas} :
  g_index (calculate_impact_metrics (citation_frame [25; 8; 5; 3; 3])).1 = 5%nat.
Proof. vm_compute. reflexivity. Qed.

(** The examples of the design document for the h-index and the
    i10-index. *)
Example h_index_example `{Pandas} :
  h_index (calculate_impact_metrics (citation_frame [10; 8; 5; 4; 3; 1])).1 = 4%nat.
Proof. vm_compute. reflexivity. Qed.

Example i10_index_example `{Pandas} :
  i10_index (calculate_impact_metrics (citation_frame [15; 10; 9; 2])).1 = 2%nat.
Proof. vm_compute. reflexivity. Qed.

(** ** Bounds on the h-index *)

(** C7: the h-index that [calculate_impact_metrics] computes for a
    citation vector is at most the number of publications, and, for a
    non-empty vector of citation counts (which are not negative), at most
    the largest count. *)
Theorem h_index_bounded `{Pandas} (cs : list Q) :
  let m := (calculate_impact_metrics (citation_frame cs)).1 in
  (h_index m <= total_publications m)%nat
  /\ (h_index m <= length cs)%nat
  /\ (cs <> [] -> Forall (fun c => 0 <= c) cs -> rank (h_index m) <= maximum cs).
Proof.
  intros m. subst m. split; [apply h_index_le_publications|].
  destruct cs as [|c cs].
  - split; [simpl; lia|done].
  - rewrite h_index_nonempty by done. rewrite coerced_citation_frame. split.
    + rewrite <- (Permutation_length (sort_desc_perm (c :: cs))).
      apply count_ge_rank_length.
    + intros _ Hpos. pose proof (maximum_upper (c :: cs)) as Hmax.
      apply count_ge_rank_le_max; [|done].
      inversion Hpos as [|? ? Hc _]; subst. inversion Hmax as [|? ? Hc' _]; subst.
      by etransitivity.
Qed.

Lemma h_index_bounded_witness :
  let cs := [10; 8; 5; 4; 3; 1] in
  rank (h_index (calculate_impact_metrics (citation_frame cs)).1) <= maximum cs.
Proof.
  intros cs. apply (h_index_bounded cs).
  - discriminate.
  - repeat constructor; discriminate.
Defined.

(** ** The empty batch *)

(** C8: on an empty batch [calculate_impact_metrics] returns zeros and an
    empty percentile list, and every other aggregate function of the
    engine returns its empty result: [calculate_metrics],
    [analyze_publications_by_time], [analyze_authors], [analyze_keywords]
    and [find_similar_papers]; none raises. *)
Theorem empty_batch_results `{Pandas} `{Python} `{Sklearn} `{Sorting} `{Dates}
    `{TitleVectorizer} (df : DataFrame) (current_year : Z)
    (target_paper_index n : nat) :
  empty df = true ->
  (calculate_impact_metrics df).1
  = {| total_publications := 0; total_citations := 0; avg_citations := 0;
       h_index := 0; i10_index := 0; g_index := 0; citation_percentiles := [] |}
  /\ DataProcessing.calculate_metrics df
     = Ok {| DataProcessing.total_publications := 0;
             DataProcessing.total_citations := 0;
             DataProcessing.avg_citations := 0;
             DataProcessing.h_index := 0 |}
  /\ (TimeAnalysis.analyze_publications_by_time current_year df).1
     = Ok {| TimeAnalysis.publications_by_year := [];
             TimeAnalysis.citations_by_year := [];
             TimeAnalysis.citation_velocity := [] |}
  /\ Authors.analyze_authors df
     = Ok {| Authors.author_impact := [];
             Authors.author_collaborations :=
               {| Authors.labels := []; Authors.counts := [] |} |}
  /\ Keywords.analyze_keywords df
     = Ok {| Keywords.keyword_frequency := [];
             Keywords.keyword_impact := [];
             Keywords.keyword_trends := [] |}
  /\ Similarity.find_similar_papers df target_paper_index n = Ok [].
Proof.
  intros Hempty.
  unfold calculate_impact_metrics, DataProcessing.calculate_metrics,
    TimeAnalysis.analyze_publications_by_time, Authors.analyze_authors,
    Keywords.analyze_keywords, Similarity.find_similar_papers,
    Similarity.similar_indices.
  rewrite Hempty. simpl. done.
Qed.

(** The batch of records without a column is empty as the batch without
    a record is. *)
Lemma empty_batch_results_witness :
  (calculate_impact_metrics [∅; ∅]).1
  = {| total_publications := 0; total_citations := 0; avg_citations := 0;
       h_index := 0; i10_index := 0; g_index := 0; citation_percentiles := [] |}
  /\ Keywords.analyze_keywords [∅; ∅] = Ok Keywords.empty_result.
Proof.
  destruct (empty_batch_results [∅; ∅] 2024 0 5) as (Hmetrics & _ & _ & _ & Hkeywords & _).
  - reflexivity.
  - split; [exact Hmetrics|exact Hkeywords].
Defined.

(** ** The two h-index computations agree *)

(** C10: for every citation vector, the h-index of [calculate_metrics]
    (the loop that stops at the first rank whose count is short) is the
    h-index of [calculate_impact_metrics] (the number of ranks whose count
    is not short). *)
Theorem h_index_agree `{Pandas} (cs : list Q) :
  exists m, DataProcessing.calculate_metrics (citation_frame cs) = Ok m
    /\ DataProcessing.h_index m
       = h_index (calculate_impact_metrics (citation_frame cs)).1.
Proof.
  destruct cs as [|c cs]; [by eexists|].
  unfold DataProcessing.calculate_metrics.
  rewrite citation_frame_empty, citation_frame_has_column. simpl negb. cbv iota.
  rewrite citation_frame_column, mapM_numeric_Num. cbn [mbind result_bind].
  eexists. split; [reflexivity|]. cbn [DataProcessing.h_index].
  rewrite omap_id_Some, h_index_nonempty by done.
  rewrite coerced_citation_frame.
  apply (h_index_loop_count 0), sort_desc_sorted.
Qed.

(** ** Percentiles *)

Lemma sorted_nth (s : list Q) (i j : nat) :
  StronglySorted Qle s -> (i <= j)%nat -> (j < length s)%nat ->
  nth i s 0 <= nth j s 0.
Proof.
  intros Hs. revert i j.
  induction Hs as [|x s _ IH Hx]; intros i j Hij Hj; simpl in Hj; [lia|].
  destruct i as [|i], j as [|j]; simpl; try lia.
  - apply Qle_refl.
  - rewrite Forall_forall in Hx. apply Hx, list_elem_of_In, nth_In. lia.
  - apply IH; lia.
Qed.

Lemma percentile_interpolate (a : list Q) (p : nat) :
  percentile a p = interpolate (sort_asc a) ((length (sort_asc a) - 1) * p).
Proof. reflexivity. Qed.

Lemma interpolate_between (s : list Q) (v : nat) :
  StronglySorted Qle s -> (v <= (length s - 1) * 100)%nat -> (0 < length s)%nat ->
  nth (v / 100) s 0 <= interpolate s v
  /\ interpolate s v <= nth (Nat.min (S (v / 100)) (length s - 1)) s 0.
Proof.
  intros Hs Hv Hn. unfold interpolate.
  set (k := (v / 100)%nat). set (r := (v mod 100)%nat).
  assert (k <= length s - 1)%nat by (apply Nat.Div0.div_le_upper_bound; lia).
  assert (nth k s 0 <= nth (Nat.min (S k) (length s - 1)) s 0) as Hd
    by (apply sorted_nth; [done|lia|lia]).
  assert (0 <= inject_Z (Z.of_nat r) <= 99) as [Hr0 Hr1].
  { assert (r < 100)%nat by (apply Nat.mod_upper_bound; lia).
    split; [change 0 with (inject_Z 0)|change 99 with (inject_Z 99)];
      rewrite <- Zle_Qle; lia. }
  set (x := nth k s 0) in *. set (y := nth (Nat.min (S k) (length s - 1)) s 0) in *.
  set (g := inject_Z (Z.of_nat r)) in *.
  assert (0 <= g / 100 <= 1) as [Ht0 Ht1]
    by (split; [apply Qle_shift_div_l|apply Qle_shift_div_r]; lra).
  set (t := g / 100) in *.
  assert (0 <= t * (y - x)) by (apply Qmult_le_0_compat; lra).
  assert (0 <= (1 - t) * (y - x)) by (apply Qmult_le_0_compat; lra).
  split; lra.
Qed.

Lemma interpolate_mono (s : list Q) (v1 v2 : nat) :
  StronglySorted Qle s -> (0 < length s)%nat ->
  (v1 <= v2)%nat -> (v2 <= (length s - 1) * 100)%nat ->
  interpolate s v1 <= interpolate s v2.
Proof.
  intros Hs Hn H12 Hv2.
  assert (v1 / 100 <= v2 / 100)%nat as Hk by (apply Nat.Div0.div_le_mono; lia).
  assert (v2 / 100 <= length s - 1)%nat
    by (apply Nat.Div0.div_le_upper_bound; lia).
  destruct (decide (v1 / 100 = v2 / 100)%nat) as [Heq|Hne].
  - unfold interpolate. rewrite <- Heq.
    set (k := (v1 / 100)%nat) in *.
    assert (nth k s 0 <= nth (Nat.min (S k) (length s - 1)) s 0) as Hd
      by (apply sorted_nth; [done|lia|lia]).
    assert (inject_Z (Z.of_nat (v1 mod 100)) <= inject_Z (Z.of_nat (v2 mod 100))) as Hr.
    { rewrite <- Zle_Qle. apply Nat2Z.inj_le.
      pose proof (Nat.div_mod_eq v1 100). pose proof (Nat.div_mod_eq v2 100).
      fold k in H0. rewrite <- Heq in H1. fold k in H1. lia. }
    set (x := nth k s 0) in *. set (y := nth (Nat.min (S k) (length s - 1)) s 0) in *.
    set (g1 := inject_Z (Z.of_nat (v1 mod 100))) in *.
    set (g2 := inject_Z (Z.of_nat (v2 mod 100))) in *.
    assert (0 <= (g2 - g1) / 100) by (apply Qle_shift_div_l; lra).
    assert (0 <= (g2 - g1) / 100 * (y - x)) as Hp
      by (apply Qmult_le_0_compat; lra).
    assert ((g2 - g1) / 100 * (y - x)
            == g2 / 100 * (y - x) - g1 / 100 * (y - x)) as Hsplit by field.
    rewrite Hsplit in Hp. lra.
  - destruct (interpolate_between s v1) as [_ Hup]; [done|lia|done|].
    destruct (interpolate_between s v2) as [Hlo _]; [done|lia|done|].
    etransitivity; [exact Hup|]. etransitivity; [|exact Hlo].
    apply sorted_nth; [done|lia|lia].
Qed.

Lemma percentile_mono (a : list Q) (p1 p2 : nat) :
  a <> [] -> (p1 <= p2)%nat -> (p2 <= 100)%nat ->
  percentile a p1 <= percentile a p2.
Proof.
  intros Ha H12 H2. rewrite !percentile_interpolate.
  assert (0 < length (sort_asc a))%nat.
  { rewrite (Permutation_length (sort_asc_perm a)). destruct a; [done|simpl; lia]. }
  apply interpolate_mono; [apply sort_asc_sorted|done|nia|nia].
Qed.

(** C9: for a non-empty citation vector, the seven percentile values that
    [calculate_impact_metrics] reports grow with the percentile. *)
Theorem percentiles_monotone `{Pandas} (cs : list Q) (p1 p2 : nat) (v1 v2 : Q) :
  cs <> [] ->
  let m := (calculate_impact_metrics (citation_frame cs)).1 in
  (p1, v1) ∈ citation_percentiles m ->
  (p2, v2) ∈ citation_percentiles m ->
  (p1 < p2)%nat ->
  v1 <= v2.
Proof.
  intros Hcs m H1 H2 Hlt. subst m.
  destruct cs as [|c cs]; [done|].
  unfold calculate_impact_metrics in H1, H2.
  rewrite citation_frame_empty in H1, H2.
  cbn [fst citation_percentiles] in H1, H2.
  rewrite coerced_citation_frame in H1, H2.
  apply list_elem_of_fmap in H1 as (q1 & [= -> ->] & Hq1).
  apply list_elem_of_fmap in H2 as (q2 & [= -> ->] & Hq2).
  apply percentile_mono; [done|lia|].
  unfold percentiles in Hq2.
  repeat (apply elem_of_cons in Hq2 as [->|Hq2]; [lia|]).
  by apply elem_of_nil in Hq2.
Qed.

Lemma percentiles_monotone_witness :
  percentile [25; 8; 5; 3; 3] 50 <= percentile [25; 8; 5; 3; 3] 90.
Proof.
  apply (percentiles_monotone [25; 8; 5; 3; 3] 50 90).
  - discriminate.
  - vm_compute. do 2 right. left.
  - vm_compute. do 4 right. left.
  - lia.
Defined.

(** ** What the engine writes in the frame it is given *)

Lemma lookup_without (cs : list string) (row : Series) (k : string) :
  foldr delete row cs !! k = if decide (k ∈ cs) then None else row !! k.
Proof.
  induction cs as [|c cs IH]; cbn [foldr].
  - destruct (decide (k ∈ [])) as [Hin|_]; [by apply elem_of_nil in Hin|done].
  - destruct (decide (c = k)) as [->|Hne].
    + rewrite lookup_delete_eq.
      destruct (decide (k ∈ k :: cs)) as [_|Hout]; [done|].
      exfalso. apply Hout. left.
    + rewrite lookup_delete_ne, IH by done.
      destruct (decide (k ∈ cs)) as [Hin|Hout],
               (decide (k ∈ c :: cs)) as [Hin'|Hout']; try done.
      * exfalso. apply Hout'. by right.
      * apply elem_of_cons in Hin' as [->|Hin']; done.
Qed.

Lemma without_set_column (cs : list string) (c : string) (values : list cell)
    (df : DataFrame) :
  c ∈ cs -> without cs (set_column c values df) = without cs df.
Proof.
  intros Hc. apply list_eq. intros i. unfold without, set_column.
  rewrite !list_lookup_fmap, list_lookup_imap.
  destruct (df !! i) as [row|]; [simpl; f_equal|done].
  apply map_eq. intros k. rewrite !lookup_without.
  destruct (decide (k ∈ cs)); [done|].
  apply lookup_insert_ne. by intros ->.
Qed.

Lemma column_set_column (c : string) (values : list cell) (df : DataFrame) :
  length values = length df -> column (set_column c values df) c = values.
Proof.
  intros Hlen. apply list_eq. intros i. unfold column, set_column.
  rewrite list_lookup_fmap, list_lookup_imap.
  destruct (df !! i) as [row|] eqn:Hrow; simpl.
  - unfold at_col. rewrite lookup_insert_eq. simpl.
    apply lookup_lt_Some in Hrow. rewrite <- Hlen in Hrow.
    by destruct (lookup_lt_is_Some_2 values i Hrow) as [x ->].
  - symmetry. apply lookup_ge_None. apply lookup_ge_None in Hrow. lia.
Qed.

Lemma set_column_same (c : string) (df : DataFrame) :
  Forall (fun row => is_Some (row !! c)) df ->
  set_column c (column df c) df = df.
Proof.
  intros Hall. apply list_eq. intros i. unfold set_column, column.
  rewrite list_lookup_imap, list_lookup_fmap.
  destruct (df !! i) as [row|] eqn:Hrow; [simpl; f_equal|done].
  rewrite Forall_lookup in Hall. destruct (Hall i row Hrow) as [x Hx].
  unfold at_col. rewrite Hx. simpl. by apply insert_id.
Qed.

Lemma set_column_defined (c : string) (values : list cell) (df : DataFrame) :
  Forall (fun row => is_Some (row !! c)) (set_column c values df).
Proof.
  apply Forall_lookup. intros i row. unfold set_column.
  rewrite list_lookup_imap. destruct (df !! i); [|done].
  intros [= <-]. rewrite lookup_insert_eq. by eexists.
Qed.

Lemma has_column_defined (c : string) (df : DataFrame) :
  df <> [] -> Forall (fun row => is_Some (row !! c)) df -> has_column df c = true.
Proof.
  intros Hne Hall. destruct df as [|row df]; [done|].
  inversion Hall; subst. unfold has_column. simpl.
  by rewrite bool_decide_eq_true_2.
Qed.

Lemma empty_defined (c : string) (df : DataFrame) :
  df <> [] -> Forall (fun row => is_Some (row !! c)) df -> empty df = false.
Proof.
  intros Hne Hall. destruct df as [|row df]; [done|].
  inversion Hall as [|? ? [x Hx] _]; subst. unfold empty. simpl.
  rewrite bool_decide_eq_false_2; [done|]. intros ->. by rewrite lookup_empty in Hx.
Qed.

(** The frame that [calculate_impact_metrics] leaves. *)
Lemma calculate_impact_metrics_frame `{Pandas} (df : DataFrame) :
  (calculate_impact_metrics df).2
  = if empty df then df
    else set_column "citations" (Num <$> coerced_citations df) df.
Proof. unfold calculate_impact_metrics. by destruct (empty df). Qed.

Lemma calculate_impact_metrics_again `{Pandas} (df : DataFrame) :
  let df' := (calculate_impact_metrics df).2 in
  (calculate_impact_metrics df').2 = df'.
Proof.
  intros df'. subst df'. rewrite (calculate_impact_metrics_frame df).
  destruct (empty df) eqn:Hempty.
  - by rewrite calculate_impact_metrics_frame, Hempty.
  - set (df' := set_column _ _ df).
    assert (df' <> []) as Hne.
    { intros Hnil. apply (f_equal length) in Hnil.
      unfold df' in Hnil. rewrite set_column_length in Hnil.
      destruct df; [done|discriminate]. }
    pose proof (set_column_defined "citations" (Num <$> coerced_citations df) df)
      as Hdef. fold df' in Hdef.
    rewrite calculate_impact_metrics_frame, (empty_defined _ _ Hne Hdef).
    assert (column df' "citations" = Num <$> coerced_citations df) as Hcol.
    { apply column_set_column.
      by rewrite length_fmap, coerced_citations_length. }
    assert (Num <$> coerced_citations df' = column df' "citations") as ->.
    { unfold coerced_citations at 1.
      rewrite (has_column_defined _ _ Hne Hdef), Hcol, <- list_fmap_compose.
      rewrite <- list_fmap_compose. by apply list_fmap_ext. }
    by apply set_column_same.
Qed.

(** ** Grouping by year *)

Lemma group_insert_sizes {A} (k : Z) (v : A) (groups : list (Z * list A)) :
  group_sizes (group_insert k v groups) = S (group_sizes groups).
Proof.
  induction groups as [|[k' vs] groups IH]; [done|].
  cbn [group_insert]. destruct (k <? k')%Z; [done|].
  destruct (k =? k')%Z.
  - unfold group_sizes. rewrite !fmap_cons. cbn [snd sum_list sum_list_with].
    rewrite length_app. simpl. lia.
  - unfold group_sizes in *. rewrite !fmap_cons. cbn [snd sum_list sum_list_with].
    rewrite IH. lia.
Qed.

Lemma groupby_sizes {A} (keys : list (option Z)) (values : list A) :
  length keys = length values ->
  group_sizes (groupby keys values) = length (omap id keys).
Proof.
  unfold groupby.
  enough (forall acc, length keys = length values ->
            group_sizes (foldl (fun groups kv =>
                                  match kv.1 with
                                  | Some k => group_insert k kv.2 groups
                                  | None => groups
                                  end) acc (zip keys values))
            = (group_sizes acc + length (omap id keys))%nat) as Hgen.
  { intros Hlen. by rewrite Hgen. }
  revert values. induction keys as [|k keys IH]; intros values acc Hlen.
  - simpl. lia.
  - destruct values as [|v values]; [done|]. simpl in Hlen.
    cbn [zip zip_with foldl fst snd]. rewrite IH by lia.
    destruct k as [k|]; cbn.
    + rewrite group_insert_sizes. lia.
    + done.
Qed.

Lemma publication_counts_sum {A} (keys : list (option Z)) (values : list A) :
  length keys = length values ->
  sum_list (snd <$> ((fun g => (g.1, length g.2)) <$> groupby keys values))
  = length (omap id keys).
Proof.
  intros Hlen. rewrite <- list_fmap_compose.
  by apply (groupby_sizes keys values).
Qed.

Lemma omap_id_length {A} (l : list (option A)) :
  (length (omap id l) <= length l)%nat.
Proof. induction l as [|[x|] l IH]; cbn; lia. Qed.

Lemma column_length (df : DataFrame) (c : string) : length (column df c) = length df.
Proof. apply length_fmap. Qed.

Lemma years_of_dates (dates : list (option date)) :
  length (omap id (dt_year <$> (date_cell <$> dates))) = length (omap id dates).
Proof.
  induction dates as [|[d|] dates IH]; [done| |]; cbn; [f_equal|]; exact IH.
Qed.

(** ** [analyze_publications_by_time] *)

Lemma analyze_publications_by_time_frame `{Pandas} (current_year : Z)
    (df : DataFrame) :
  let df' := (TimeAnalysis.analyze_publications_by_time current_year df).2 in
  length df' = length df /\ without time_columns df' = without time_columns df.
Proof.
  unfold TimeAnalysis.analyze_publications_by_time.
  repeat case_match; simpl; rewrite ?set_column_length;
    (split; [done|]);
    rewrite ?without_set_column by (unfold time_columns; set_solver); done.
Qed.

Lemma analyze_publications_by_time_counts `{Pandas} (current_year : Z)
    (df : DataFrame) (r : TimeAnalysis.result_dict) :
  (TimeAnalysis.analyze_publications_by_time current_year df).1 = Ok r ->
  sum_list (snd <$> TimeAnalysis.publications_by_year r) = records_with_date df.
Proof.
  unfold TimeAnalysis.analyze_publications_by_time, records_with_date.
  destruct (empty df) eqn:Hempty; simpl.
  { intros [= <-]. by rewrite (empty_has_no_column df _ Hempty). }
  destruct (has_column df "publication_date") eqn:Hdate; simpl;
    [|by intros [= <-]].
  set (dates := to_datetime (column df "publication_date")).
  set (df1 := set_column "publication_date" (date_cell <$> dates) df).
  assert (column df1 "publication_date" = date_cell <$> dates) as Hcol.
  { apply column_set_column. unfold dates.
    by rewrite length_fmap, to_datetime_length, column_length. }
  rewrite Hcol.
  set (year := dt_year <$> (date_cell <$> dates)).
  set (df2 := set_column "year" _ df1).
  intros Hr.
  assert (TimeAnalysis.publications_by_year r
          = (fun g => (g.1, length g.2)) <$> groupby year (column df2 "year"))
    as ->.
  { repeat case_match; try discriminate. by injection Hr as <-. }
  rewrite publication_counts_sum.
  - apply years_of_dates.
  - rewrite column_length. unfold year, df2, df1, dates.
    by rewrite !length_fmap, !set_column_length, to_datetime_length, column_length.
Qed.

Lemma records_with_date_le `{Pandas} (df : DataFrame) :
  (records_with_date df <= length df)%nat.
Proof.
  unfold records_with_date. destruct (has_column df "publication_date"); [|lia].
  rewrite <- (column_length df "publication_date"), <- to_datetime_length.
  apply omap_id_length.
Qed.

Lemma total_publications_nonempty `{Pandas} (df : DataFrame) :
  empty df = false -> total_publications (calculate_impact_metrics df).1 = length df.
Proof.
  intros Hne. unfold calculate_impact_metrics. rewrite Hne. simpl.
  apply set_column_length.
Qed.

Local Open Scope nat_scope.

(** ** The groups of a [groupby], year by year *)

Lemma group_insert_count {A} (y k : Z) (v : A) (groups : list (Z * list A)) :
  group_count y (group_insert k v groups)
  = group_count y groups + (if (k =? y)%Z then 1 else 0).
Proof.
  unfold group_count.
  induction groups as [|[k' vs] groups IH]; cbn [group_insert].
  - cbn. destruct (k =? y)%Z; lia.
  - destruct (k <? k')%Z eqn:Hlt.
    + rewrite fmap_cons. cbn [fst snd sum_list sum_list_with length].
      destruct (k =? y)%Z; cbn; lia.
    + destruct (k =? k')%Z eqn:Heq.
      * apply Z.eqb_eq in Heq as ->. rewrite !fmap_cons.
        cbn [fst snd sum_list sum_list_with]. rewrite length_app.
        destruct (k' =? y)%Z; simpl; lia.
      * rewrite !fmap_cons. cbn [fst snd sum_list sum_list_with].
        rewrite IH. lia.
Qed.

Lemma groupby_count {A} (y : Z) (keys : list (option Z)) (values : list A) :
  length keys = length values ->
  group_count y (groupby keys values) = length (List.filter (key_is y) keys).
Proof.
  unfold groupby.
  enough (forall acc, length keys = length values ->
            group_count y (foldl (fun groups kv =>
                                    match kv.1 with
                                    | Some k => group_insert k kv.2 groups
                                    | None => groups
                                    end) acc (zip keys values))
            = group_count y acc + length (List.filter (key_is y) keys)) as Hgen.
  { intros Hlen. by rewrite Hgen. }
  revert values. induction keys as [|k keys IH]; intros values acc Hlen.
  - simpl. lia.
  - destruct values as [|v values]; [done|]. simpl in Hlen.
    cbn [zip zip_with foldl fst snd]. rewrite IH by lia.
    destruct k as [k|]; cbn [List.filter key_is].
    + rewrite group_insert_count. destruct (k =? y)%Z; simpl; lia.
    + lia.
Qed.

Lemma group_insert_keys {A} (Q : Z -> Prop) (k : Z) (v : A)
    (groups : list (Z * list A)) :
  Q k -> Forall (fun g => Q g.1) groups ->
  Forall (fun g => Q g.1) (group_insert k v groups).
Proof.
  intros Hk. induction 1 as [|[k' vs] groups Hk' Hgroups IH]; cbn [group_insert].
  - by repeat constructor.
  - destruct (k <? k')%Z; [by repeat constructor|].
    destruct (k =? k')%Z; by constructor.
Qed.

Lemma group_insert_ascending {A} (k : Z) (v : A) (groups : list (Z * list A)) :
  ascending groups -> ascending (group_insert k v groups).
Proof.
  unfold ascending. induction 1 as [|[k' vs] groups Hsorted IH Hall];
    cbn [group_insert].
  - repeat constructor.
  - destruct (k <? k')%Z eqn:Hlt.
    + apply Z.ltb_lt in Hlt. constructor; [by constructor|].
      constructor; [done|]. eapply Forall_impl; [exact Hall|].
      intros g Hg. simpl in *. lia.
    + destruct (k =? k')%Z eqn:Heq; constructor; try done.
      apply (group_insert_keys (fun key => (k' < key)%Z)); [|done].
      apply Z.ltb_ge in Hlt. apply Z.eqb_neq in Heq. lia.
Qed.

Lemma groupby_ascending {A} (keys : list (option Z)) (values : list A) :
  ascending (groupby keys values).
Proof.
  unfold groupby.
  generalize (zip keys values) (@nil (Z * list A))
             (SSorted_nil (fun g g' : Z * list A => (g.1 < g'.1)%Z)).
  induction l as [|[k v] kvs IH]; intros acc Hacc; [exact Hacc|].
  cbn [foldl]. apply IH. destruct k as [k|]; simpl; [|done].
  by apply group_insert_ascending.
Qed.

Lemma ascending_count {A} (y : Z) (vs : list A) (groups : list (Z * list A)) :
  ascending groups -> (y, vs) ∈ groups -> group_count y groups = length vs.
Proof.
  unfold ascending, group_count.
  induction 1 as [|[k' vs'] groups Hsorted IH Hall]; intros Hin.
  - by apply elem_of_nil in Hin.
  - rewrite fmap_cons. cbn [fst snd sum_list sum_list_with].
    assert (forall z, Forall (fun g : Z * list A => (z < g.1)%Z) groups ->
              sum_list ((fun g : Z * list A =>
                           if (g.1 =? y)%Z then length g.2 else 0) <$> groups) = 0
              \/ (z < y)%Z) as Hzero.
    { clear. intros z. induction 1 as [|[k ws] groups Hk _ IH]; [by left|].
      rewrite fmap_cons. cbn [fst snd sum_list sum_list_with]. simpl in Hk.
      destruct (k =? y)%Z eqn:Heq.
      - apply Z.eqb_eq in Heq. right. lia.
      - destruct IH as [->|IH]; [by left|by right]. }
    apply elem_of_cons in Hin as [[= <- <-]|Hin].
    + rewrite Z.eqb_refl. destruct (Hzero y Hall) as [->|Hlt]; unfold id; lia.
    + rewrite IH by done.
      destruct (k' =? y)%Z eqn:Heq; [|unfold id; lia].
      apply Z.eqb_eq in Heq as ->.
      rewrite Forall_forall in Hall. specialize (Hall _ Hin). simpl in Hall. lia.
Qed.

Lemma years_in_year (y : Z) (dates : list (option date)) :
  List.filter (key_is y) (dt_year <$> (date_cell <$> dates))
  = dt_year <$> (date_cell <$> List.filter (in_year y) dates).
Proof.
  induction dates as [|[d|] dates IH]; [done| |]; cbn; [|exact IH].
  destruct (date_year d =? y)%Z; cbn; by rewrite IH.
Qed.

Lemma analyze_publications_by_time_year `{Pandas} (current_year : Z)
    (df : DataFrame) (r : TimeAnalysis.result_dict) (y : Z) (n : nat) :
  (TimeAnalysis.analyze_publications_by_time current_year df).1 = Ok r ->
  (y, n) ∈ TimeAnalysis.publications_by_year r ->
  n = records_in_year df y.
Proof.
  unfold TimeAnalysis.analyze_publications_by_time, records_in_year.
  destruct (empty df || negb (has_column df "publication_date")).
  { intros [= <-] Hin. by apply elem_of_nil in Hin. }
  set (dates := to_datetime (column df "publication_date")).
  set (df1 := set_column "publication_date" (date_cell <$> dates) df).
  assert (column df1 "publication_date" = date_cell <$> dates) as Hcol.
  { apply column_set_column. unfold dates.
    by rewrite length_fmap, to_datetime_length, column_length. }
  rewrite Hcol.
  set (year := dt_year <$> (date_cell <$> dates)).
  set (df2 := set_column "year" _ df1).
  intros Hr.
  assert (TimeAnalysis.publications_by_year r
          = (fun g => (g.1, length g.2)) <$> groupby year (column df2 "year"))
    as ->.
  { repeat case_match; try discriminate. by injection Hr as <-. }
  intros Hin. apply list_elem_of_fmap in Hin as ([k vs] & [= -> ->] & Hin).
  rewrite <- (ascending_count _ _ _ (groupby_ascending _ _) Hin).
  rewrite groupby_count.
  - unfold year. by rewrite years_in_year, !length_fmap.
  - rewrite column_length. unfold year, df2, df1, dates.
    by rewrite !length_fmap, !set_column_length, to_datetime_length, column_length.
Qed.

(** ** When [analyze_publications_by_time] returns *)

Lemma mapM_Ok {A B} (f : A -> result B) (l : list A) :
  Forall (fun x => exists y, f x = Ok y) l -> exists ys, mapM f l = Ok ys.
Proof.
  induction 1 as [|x l [y Hy] _ [ys Hys]]; [by eexists|].
  change (mapM f (x :: l)) with (y ← f x; k ← mapM f l; mret (y :: k)).
  rewrite Hy, Hys. by eexists.
Qed.

Lemma numeric_Ok (x : cell) : is_numeric x -> exists v, numeric x = Ok v.
Proof. destruct x; simpl; by eauto. Qed.

Lemma group_insert_Forall {A} (Q : A -> Prop) (k : Z) (v : A)
    (groups : list (Z * list A)) :
  Q v -> Forall (fun g => Forall Q g.2) groups ->
  Forall (fun g => Forall Q g.2) (group_insert k v groups).
Proof.
  intros Hv. induction 1 as [|[k' vs] groups Hvs Hgroups IH]; cbn [group_insert].
  - repeat constructor. done.
  - destruct (k <? k')%Z; [repeat constructor; done|].
    destruct (k =? k')%Z; constructor; try done.
    simpl in *. apply Forall_app. split; [done|by constructor].
Qed.

Lemma groupby_Forall {A} (Q : A -> Prop) (keys : list (option Z))
    (values : list A) :
  Forall Q values -> Forall (fun g => Forall Q g.2) (groupby keys values).
Proof.
  intros Hvalues. unfold groupby.
  assert (Forall (fun kv : option Z * A => Q kv.2) (zip keys values)) as Hzip.
  { apply Forall_forall. intros [k v] Hkv. simpl.
    rewrite Forall_forall in Hvalues. apply Hvalues.
    eapply elem_of_zip_r, Hkv. }
  generalize (@nil (Z * list A))
             (Forall_nil_2 (fun g : Z * list A => Forall Q g.2)).
  induction Hzip as [|[k v] kvs Hv _ IH]; intros acc Hacc; [exact Hacc|].
  cbn [foldl]. apply IH. destruct k as [k|]; simpl; [|done].
  by apply group_insert_Forall.
Qed.

Lemma column_set_column_ne (c c' : string) (values : list cell) (df : DataFrame) :
  c <> c' -> column (set_column c values df) c' = column df c'.
Proof.
  intros Hne. apply list_eq. intros i. unfold column, set_column.
  rewrite !list_lookup_fmap, list_lookup_imap.
  destruct (df !! i) as [row|]; [simpl|done].
  unfold at_col. by rewrite lookup_insert_ne.
Qed.

Lemma has_column_set_column_ne (c c' : string) (values : list cell)
    (df : DataFrame) :
  c <> c' -> has_column (set_column c values df) c' = has_column df c'.
Proof.
  intros Hne. unfold has_column, set_column.
  apply eq_true_iff_eq. rewrite !existsb_exists. split.
  - intros (row & Hrow & Hc). apply list_elem_of_In, list_elem_of_lookup in Hrow as [i Hi].
    rewrite list_lookup_imap in Hi.
    destruct (df !! i) as [row'|] eqn:Hrow'; [|done]. injection Hi as <-.
    exists row'. split; [by eapply list_elem_of_In, list_elem_of_lookup_2|].
    by rewrite lookup_insert_ne in Hc.
  - intros (row & Hrow & Hc). apply list_elem_of_In, list_elem_of_lookup in Hrow as [i Hi].
    eexists. split.
    + eapply list_elem_of_In, list_elem_of_lookup_2.
      rewrite list_lookup_imap, Hi. reflexivity.
    + by rewrite lookup_insert_ne.
Qed.

Lemma analyze_publications_by_time_returns `{Pandas} (current_year : Z)
    (df : DataFrame) :
  has_column df "citations" = true ->
  Forall is_numeric (column df "citations") ->
  exists r, (TimeAnalysis.analyze_publications_by_time current_year df).1 = Ok r.
Proof.
  intros Hhas Hnum. unfold TimeAnalysis.analyze_publications_by_time.
  destruct (empty df || negb (has_column df "publication_date")); [by eexists|].
  set (df1 := set_column "publication_date" _ df).
  set (year := dt_year <$> column df1 "publication_date").
  set (df2 := set_column "year" _ df1).
  assert (column df2 "citations" = column df "citations") as Hcol.
  { unfold df2, df1. by rewrite !column_set_column_ne. }
  assert (has_column df2 "citations" = true) as ->.
  { unfold df2, df1. by rewrite !has_column_set_column_ne. }
  cbn [negb]. rewrite Hcol.
  destruct (mapM_Ok (fun g : Z * list cell =>
                       vs ← mapM numeric g.2; mret (g.1, TimeAnalysis.year_stats vs))
                    (groupby year (column df "citations"))) as [stats ->].
  { eapply Forall_impl; [apply (groupby_Forall is_numeric), Hnum|].
    intros g Hg. destruct (mapM_Ok numeric g.2) as [vs Hvs].
    - eapply Forall_impl; [exact Hg|]. apply numeric_Ok.
    - rewrite Hvs. by eexists. }
  rewrite column_set_column_ne, Hcol by done.
  destruct (mapM_Ok numeric (column df "citations")) as [vs ->].
  { eapply Forall_impl; [exact Hnum|]. apply numeric_Ok. }
  by eexists.
Qed.

Local Open Scope Q_scope.

(** ** The input frame after a call *)

(** C5, as stated: the engine would leave its input batch as it was.
    A batch without a [citations] column has one after
    [calculate_impact_metrics]. *)
Lemma input_frame_changes :
  (calculate_impact_metrics [{[ "title" := Str "A survey" ]}]).2
  <> [{[ "title" := Str "A survey" ]}].
Proof.
  intros Heq.
  apply (f_equal (fun df => df !! 0%nat ≫= (.!! "citations"))) in Heq.
  vm_compute in Heq. discriminate.
Qed.

(** ** Publications per year *)

(** C6: the per-year publication counts of [analyze_publications_by_time]
    add up to the number of records whose [publication_date] is read as a
    date, and the count of a year is the number of records dated in that
    year, so a record without such a date is in no group; the function
    returns these counts whenever the batch has a [citations] column of
    numbers; and [calculate_impact_metrics] counts every record of a
    non-empty batch in [total_publications], dated or not. *)
Theorem yearly_counts_total `{Pandas} (current_year : Z) (df : DataFrame) :
  (forall r,
      (TimeAnalysis.analyze_publications_by_time current_year df).1 = Ok r ->
      sum_list (snd <$> TimeAnalysis.publications_by_year r)
      = records_with_date df
      /\ forall y n, (y, n) ∈ TimeAnalysis.publications_by_year r ->
                     n = records_in_year df y)
  /\ (has_column df "citations" = true ->
      Forall is_numeric (column df "citations") ->
      exists r,
        (TimeAnalysis.analyze_publications_by_time current_year df).1 = Ok r)
  /\ (records_with_date df <= length df)%nat
  /\ (empty df = false ->
      total_publications (calculate_impact_metrics df).1 = length df).
Proof.
  split; [|split; [|split]].
  - intros r Hr. split.
    + by apply (analyze_publications_by_time_counts current_year).
    + intros y n. by apply (analyze_publications_by_time_year current_year).
  - apply analyze_publications_by_time_returns.
  - apply records_with_date_le.
  - apply total_publications_nonempty.
Qed.

Lemma yearly_counts_total_witness :
  let df := [ {[ "publication_date" := Str "2020-01-05"; "citations" := Num 3 ]};
              {[ "publication_date" := Str "unknown"; "citations" := Num 4 ]};
              {[ "publication_date" := Str "2019-03-04"; "citations" := Num 1 ]};
              {[ "publication_date" := Str "2020-10-10"; "citations" := Num 8 ]} ] in
  exists r,
    (TimeAnalysis.analyze_publications_by_time 2024 df).1 = Ok r
    /\ TimeAnalysis.publications_by_year r = [(2019%Z, 1%nat); (2020%Z, 2%nat)]
    /\ sum_list (snd <$> TimeAnalysis.publications_by_year r) = records_with_date df
    /\ total_publications (calculate_impact_metrics df).1 = 4%nat.
Proof.
  intros df.
  assert (exists r,
            (TimeAnalysis.analyze_publications_by_time 2024 df).1 = Ok r
            /\ TimeAnalysis.publications_by_year r
               = [(2019%Z, 1%nat); (2020%Z, 2%nat)]) as (r & Hr & Hyears).
  { eexists. split; [vm_compute; reflexivity|reflexivity]. }
  destruct (yearly_counts_total 2024 df) as (Hsum & _ & _ & Htotal).
  exists r. split; [exact Hr|]. split; [exact Hyears|].
  split; [by apply Hsum|]. apply Htotal. reflexivity.
Defined.

Local Open Scope nat_scope.

(** ** Square arrays of counts *)

Lemma square_zeros (k : nat) : Square k (zeros k).
Proof.
  split; [apply length_replicate|].
  apply Forall_replicate, length_replicate.
Qed.

Lemma square_increment (k a b : nat) (m : list (list nat)) :
  Square k m -> Square k (increment a b m).
Proof.
  intros [Hlen Hrows]. split; unfold increment.
  - by rewrite length_alter.
  - apply Forall_lookup. intros i row. rewrite list_lookup_alter.
    rewrite Forall_lookup in Hrows.
    destruct (decide (a = i)) as [->|_].
    + destruct (m !! i) as [row'|] eqn:Hrow; [|done].
      intros [= <-]. rewrite length_alter. by apply (Hrows i).
    + apply Hrows.
Qed.

Lemma entry_square (k i j : nat) (m : list (list nat)) :
  Square k m -> i < k -> j < k -> exists row x, m !! i = Some row /\ row !! j = Some x.
Proof.
  intros [Hlen Hrows] Hi Hj.
  destruct (lookup_lt_is_Some_2 m i) as [row Hrow]; [lia|].
  rewrite Forall_lookup in Hrows. pose proof (Hrows i row Hrow) as Hk.
  destruct (lookup_lt_is_Some_2 row j) as [x Hx]; [lia|].
  by exists row, x.
Qed.

Lemma entry_outside (k i j : nat) (m : list (list nat)) :
  Square k m -> ~ (i < k /\ j < k) -> m !! i ≫= (.!! j) = None.
Proof.
  intros [Hlen Hrows] Hout.
  destruct (m !! i) as [row|] eqn:Hrow; [simpl|done].
  apply lookup_ge_None. rewrite Forall_lookup in Hrows.
  rewrite (Hrows i row Hrow). apply lookup_lt_Some in Hrow. lia.
Qed.

(** [m[a, b] += 1] adds one to the entry it names and to no other. *)
Lemma entry_increment (k a b i j : nat) (m : list (list nat)) :
  Square k m ->
  entry (increment a b m) i j
  = entry m i j + (if bool_decide (a = i /\ b = j /\ a < k /\ b < k) then 1 else 0).
Proof.
  intros Hsq. unfold entry, increment. rewrite list_lookup_alter.
  destruct (decide (a = i)) as [->|Hai].
  - destruct (decide (i < k /\ j < k)) as [[Hi Hj]|Hout].
    + destruct (entry_square k i j m Hsq Hi Hj) as (row & x & Hrow & Hx).
      rewrite Hrow. simpl. rewrite list_lookup_alter.
      destruct (decide (b = j)) as [->|Hbj].
      * rewrite Hx. simpl. rewrite bool_decide_eq_true_2 by done. lia.
      * rewrite Hx. simpl. rewrite bool_decide_eq_false_2 by lia. lia.
    + pose proof (entry_outside k i j m Hsq Hout) as Hnone.
      destruct (m !! i) as [row|] eqn:Hrow; simpl in *.
      * rewrite list_lookup_alter.
        destruct (decide (b = j)) as [->|Hbj].
        -- rewrite Hnone. simpl. rewrite bool_decide_eq_false_2 by lia. lia.
        -- rewrite Hnone. simpl. rewrite bool_decide_eq_false_2 by lia. lia.
      * rewrite bool_decide_eq_false_2; [lia|].
        apply lookup_ge_None in Hrow. destruct Hsq as [Hlen _]. lia.
  - rewrite bool_decide_eq_false_2 by lia. lia.
Qed.

Lemma symmetric_increment_pair (k a b : nat) (m : list (list nat)) :
  Square k m -> SymmetricMatrix m ->
  SymmetricMatrix (increment b a (increment a b m)).
Proof.
  intros Hsq Hsym i j.
  rewrite !(entry_increment k) by auto using square_increment.
  rewrite (Hsym i j).
  repeat case_bool_decide; lia.
Qed.

Lemma zero_diagonal_increment_pair (k a b : nat) (m : list (list nat)) :
  Square k m -> a <> b -> ZeroDiagonal m ->
  ZeroDiagonal (increment b a (increment a b m)).
Proof.
  intros Hsq Hab Hzero i.
  rewrite !(entry_increment k) by auto using square_increment.
  rewrite (Hzero i).
  rewrite !bool_decide_eq_false_2 by lia. done.
Qed.

Import Authors.

(** ** The loops of the collaboration matrix *)

Section Preserved.
Context (k : nat) (indices : gmap string nat).
Context (P : list (list nat) -> Prop) (allowed : nat -> nat -> Prop).
Hypothesis step : forall m idx1 idx2,
  allowed idx1 idx2 -> Square k m -> P m ->
  P (increment idx2 idx1 (increment idx1 idx2 m)).

Lemma pair_with_preserved (idx1 : nat) (others : list string)
    (m : list (list nat)) :
  (forall author2 idx2, author2 ∈ others -> indices !! author2 = Some idx2 ->
                        allowed idx1 idx2) ->
  Square k m -> P m ->
  Square k (pair_with indices idx1 others m) /\ P (pair_with indices idx1 others m).
Proof.
  unfold pair_with. revert m.
  induction others as [|author2 others IH]; intros m Hall Hsq HP; [done|].
  cbn [foldl]. apply IH.
  - intros a i Ha. apply Hall. by right.
  - destruct (indices !! author2); auto using square_increment.
  - destruct (indices !! author2) as [idx2|] eqn:Hidx; [|done].
    apply step; [|done..]. apply (Hall author2); [left|done].
Qed.

Lemma count_pairs_preserved (authors : list string) (m : list (list nat)) :
  pairs_allowed indices allowed authors ->
  Square k m -> P m ->
  Square k (count_pairs indices authors m) /\ P (count_pairs indices authors m).
Proof.
  revert m. induction authors as [|author1 rest IH]; intros m Hall Hsq HP; [done|].
  destruct Hall as [Hfirst Hrest]. cbn [count_pairs].
  destruct (indices !! author1) as [idx1|] eqn:Hidx; [|by apply IH].
  destruct (pair_with_preserved idx1 rest m) as [Hsq' HP']; [|done..|by apply IH].
  intros a i Ha Hi. by apply (Hfirst a).
Qed.

Lemma collaborate_preserved (significant_authors : list string)
    (rows : list Series) (m m' : list (list nat)) :
  (forall row names, row ∈ rows -> split_names (at_col "authors" row) = Ok names ->
     pairs_allowed indices allowed
       (List.filter (fun a => member a significant_authors) names)) ->
  collaborate significant_authors indices rows m = Ok m' ->
  Square k m -> P m -> Square k m' /\ P m'.
Proof.
  revert m. induction rows as [|row rows IH]; intros m Hall Hrun Hsq HP.
  - by injection Hrun as <-.
  - cbn [collaborate] in Hrun.
    destruct (split_names (at_col "authors" row)) as [names|e] eqn:Hnames;
      [|discriminate].
    cbn [mbind result_bind] in Hrun.
    destruct (count_pairs_preserved
                (List.filter (fun a => member a significant_authors) names) m)
      as [Hsq' HP']; [|done..|].
    { apply (Hall row); [left|done]. }
    apply IH in Hrun; [done| |done..].
    intros r ns Hr. apply Hall. by right.
Qed.
End Preserved.

Lemma pairs_allowed_always (indices : gmap string nat) (authors : list string) :
  pairs_allowed indices (fun _ _ => True) authors.
Proof. induction authors; simpl; auto. Qed.

(** A name stands at the position that [author_indices] gives it. *)
Lemma author_indices_lookup (significant_authors : list string) (a : string)
    (i : nat) :
  author_indices significant_authors !! a = Some i ->
  significant_authors !! i = Some a.
Proof.
  unfold author_indices.
  enough (forall (l : list string) (s : nat) (acc : gmap string nat),
            foldl (fun m ia => <[ia.2 := ia.1]> m) acc (zip (seq s (length l)) l)
              !! a = Some i ->
            acc !! a = Some i \/ (s <= i /\ l !! (i - s) = Some a)) as Hgen.
  { intros Hi. apply Hgen in Hi as [Hi|[_ Hi]].
    - by rewrite lookup_empty in Hi.
    - by rewrite Nat.sub_0_r in Hi. }
  induction l as [|x l IH]; intros s acc Hi; [by left|].
  cbn [length seq zip zip_with foldl] in Hi. apply IH in Hi as [Hi|[Hs Hi]].
  - cbn [fst snd] in Hi. destruct (decide (x = a)) as [->|Hne].
    + rewrite lookup_insert_eq in Hi. injection Hi as <-.
      right. split; [lia|]. by rewrite Nat.sub_diag.
    + rewrite lookup_insert_ne in Hi by done. by left.
  - right. split; [lia|].
    replace (i - s) with (S (i - S s)) by lia. done.
Qed.

Lemma pairs_allowed_distinct (significant_authors authors : list string) :
  NoDup authors ->
  pairs_allowed (author_indices significant_authors) (fun i j => i <> j) authors.
Proof.
  induction 1 as [|a authors Hnotin _ IH]; [done|]. split; [|done].
  intros a2 i1 i2 Ha2 H1 H2 ->.
  apply author_indices_lookup in H1, H2.
  rewrite H1 in H2. injection H2 as ->. done.
Qed.

Lemma entry_zeros (k i j : nat) : entry (zeros k) i j = 0.
Proof.
  unfold entry, zeros. destruct (replicate k (replicate k 0) !! i) as [row|] eqn:Hrow;
    [simpl|done].
  apply lookup_replicate in Hrow as [-> _].
  destruct (replicate k 0 !! j) as [x|] eqn:Hx; [|done].
  by apply lookup_replicate in Hx as [-> _].
Qed.

(** What a successful run of [analyze_authors] returns. *)
Lemma analyze_authors_matrix (df : DataFrame) (r : result_dict) :
  analyze_authors df = Ok r ->
  r = empty_result
  \/ collaborate (labels (author_collaborations r))
                 (author_indices (labels (author_collaborations r))) df
                 (zeros (length (labels (author_collaborations r))))
     = Ok (counts (author_collaborations r)).
Proof.
  unfold analyze_authors.
  destruct (empty df || negb (has_column df "authors")); [intros [= <-]; by left|].
  destruct (extract_authors ([], []) df) as [extracted|]; [|discriminate].
  cbn [mbind result_bind].
  destruct (author_metrics _ _) as [[|stats metrics]|]; [discriminate| |discriminate].
  cbn [mbind result_bind].
  match goal with
  | |- context [collaborate ?s ?i df ?z] =>
      destruct (collaborate s i df z) as [m|] eqn:Hm; [|discriminate]
  end.
  cbn [mbind result_bind mret result_ret]. intros [= <-]. by right.
Qed.

(** ** The collaboration matrix *)

(** C3, as stated: the diagonal of the collaboration matrix would be zero
    even when a record names an author twice.  A record whose author list
    is "A. Smith, A. Smith" credits that author with two papers, pairs the
    two occurrences, and adds 2 to the author's own cell. *)
Lemma diagonal_counts_repeated_name :
  exists r,
    analyze_authors
      [{[ "authors" := Str "A. Smith, A. Smith"; "citations" := Num 4 ]}] = Ok r
    /\ labels (author_collaborations r) = ["A. Smith"]
    /\ entry (counts (author_collaborations r)) 0 0 = 2.
Proof. eexists. split; [vm_compute; reflexivity|]. split; reflexivity. Qed.

(** ** Batches without a significant author *)

(** C4: [analyze_authors] should return empty tables when no author is
    credited on two records.  On the batch of one record by two authors it
    builds [author_impact] from no row, the frame has no [paper_count]
    column, and selecting that column raises [KeyError]. *)
Theorem analyze_authors_raises_without_significant_author :
  analyze_authors
    [{[ "authors" := Str "Alice Martin, Bob Chen"; "citations" := Num 3 ]}]
  = Raise (KeyError "paper_count").
Proof. vm_compute. reflexivity. Qed.

Import Similarity.

(** ** The similarity ranking *)

Lemma similar_indices_at_most `{Python} `{Sklearn} (df : DataFrame)
    (target_paper_index n : nat) (indices : list nat) :
  similar_indices df target_paper_index n = Ok indices -> length indices <= n.
Proof.
  unfold similar_indices.
  destruct (empty df || (length df <=? 1)); [intros [= <-]; simpl; lia|].
  destruct (length df <=? target_paper_index); [discriminate|].
  destruct (features df) as [|feature features]; [intros [= <-]; simpl; lia|].
  destruct (fit_transform _) as [content_vectors|]; [|discriminate].
  cbn [mbind result_bind mret result_ret]. intros [= <-].
  rewrite length_take. lia.
Qed.

(** C2: [find_similar_papers] should never return the target record.
    It drops the first position of the descending ranking, which is the
    target only when its similarity to itself is the single largest of
    its row.  In the batch below the first two records have no title,
    their documents are empty and every similarity of either of them is
    0, itself included: the ranking is 2, 1, 0, the function drops
    position 2 and returns the records 1 and 0, whether the target is
    record 0 or record 1. *)
Theorem find_similar_papers_returns_target :
  let df := [ {[ "citations" := Num 3 ]};
              {[ "citations" := Num 1 ]};
              {[ "title" := Str "Deep learning"; "citations" := Num 7 ]} ] in
  similar_indices df 0 5 = Ok [1; 0]
  /\ similar_indices df 1 5 = Ok [1; 0]
  /\ find_similar_papers df 0 5
     = Ok [ {[ "citations" := Num 1 ]}; {[ "citations" := Num 3 ]} ].
Proof. repeat split; vm_compute; reflexivity. Qed.

(** The same with two records of the same text: the twin of the target
    takes the first place and the target is the one result. *)
Example find_similar_papers_twin :
  similar_indices [ {[ "title" := Str "Graph theory" ]};
                    {[ "title" := Str "Graph theory" ]};
                    {[ "title" := Str "Deep learning of graphs" ]} ] 0 1
  = Ok [0].
Proof. vm_compute. reflexivity. Qed.

Local Open Scope Q_scope.

(** * Further properties of the citation statistics *)

(** ** The g-index *)

(** Linear arithmetic with the ranks taken as unknowns. *)
Ltac rank_lra :=
  repeat match goal with
         | |- context [rank ?i] =>
             let r := fresh "r" in set (r := rank i) in *; clearbody r
         | H : context [rank ?i] |- _ =>
             let r := fresh "r" in set (r := rank i) in *; clearbody r
         end;
  repeat match goal with
         | H : forall _ : nat, _ |- _ => clear H
         end;
  lra.

Lemma rank_S (i : nat) : rank (S i) == rank i + 1.
Proof.
  unfold rank. rewrite Nat2Z.inj_succ. unfold Z.succ.
  by rewrite inject_Z_plus.
Qed.

Lemma rank_square (i : nat) : rank (i * i) == rank i * rank i.
Proof. unfold rank. by rewrite Nat2Z.inj_mul, inject_Z_mult. Qed.

Lemma rank_S_square (i : nat) :
  rank (S i * S i) == rank (i * i) + 2 * rank i + 1.
Proof. rewrite !rank_square, rank_S. ring. Qed.

Lemma rank_nonneg (i : nat) : 0 <= rank i.
Proof. apply (rank_le 0 i). lia. Qed.

Lemma top_sum_0 (l : list Q) : top_sum 0 l = 0.
Proof. reflexivity. Qed.

Lemma top_sum_cons (k : nat) (c : Q) (rest : list Q) :
  top_sum (S k) (c :: rest) = c + top_sum k rest.
Proof. reflexivity. Qed.

(** Below a descending tail, the mean of the ranks read so far bounds every
    count that follows: once the running sum is short of the square of
    its rank, it stays short at every later rank. *)
Lemma short_forever (rest : list Q) (i : nat) (cumulative : Q) (k : nat) :
  (1 <= i)%nat ->
  StronglySorted (flip Qle) rest ->
  Forall (fun c => rank i * c <= cumulative) rest ->
  cumulative < rank (i * i) ->
  (1 <= k <= length rest)%nat ->
  cumulative + top_sum k rest < rank ((i + k) * (i + k)).
Proof.
  intros Hi Hsorted. revert i cumulative k Hi.
  induction Hsorted as [|c rest _ IH Hc]; intros i cumulative k Hi Hmean Hshort Hk;
    [simpl in Hk; lia|].
  apply Forall_cons in Hmean as [Hmean_c Hmean].
  pose proof (rank_le 1 i Hi) as Hr. change (rank 1) with 1 in Hr.
  rewrite rank_square in Hshort.
  assert (c < rank i) as Hlt.
  { destruct (Qlt_le_dec c (rank i)) as [|Hge]; [done|].
    assert (rank i * rank i <= rank i * c) by (apply Qmult_le_l; rank_lra).
    rank_lra. }
  assert (cumulative + c < rank (S i * S i)) as Hshort'.
  { rewrite rank_S_square, rank_square. rank_lra. }
  destruct k as [|k]; [lia|]. rewrite top_sum_cons.
  destruct k as [|k].
  - replace (i + 1)%nat with (S i) by lia.
    rewrite top_sum_0. rank_lra.
  - specialize (IH (S i) (cumulative + c) (S k)).
    replace (i + S (S k))%nat with (S i + S k)%nat by lia.
    assert (cumulative + c + top_sum (S k) rest
            < rank ((S i + S k) * (S i + S k))) as Hrec; [|rank_lra].
    apply IH; [lia| |done|simpl in Hk; lia].
    rewrite Forall_forall in Hmean, Hc. apply Forall_forall. intros x Hx.
    specialize (Hmean x Hx). specialize (Hc x Hx). simpl in Hc, Hmean.
    rewrite rank_S. rank_lra.
Qed.

(** The loop of the g-index, entered at rank [i] with [g_index = i - 1]
    and the sum of the [i - 1] counts above. *)
Lemma g_index_loop_spec (rest : list Q) (i : nat) (cumulative : Q) :
  (1 <= i)%nat ->
  StronglySorted (flip Qle) rest ->
  Forall (fun c => rank (i - 1) * c <= cumulative) rest ->
  let g := g_index_loop i cumulative (i - 1) rest in
  (i - 1 <= g <= i - 1 + length rest)%nat
  /\ (forall k, (1 <= k)%nat -> (i - 1 + k <= g)%nat ->
        rank ((i - 1 + k) * (i - 1 + k)) <= cumulative + top_sum k rest)
  /\ (forall k, (1 <= k <= length rest)%nat -> (g < i - 1 + k)%nat ->
        cumulative + top_sum k rest < rank ((i - 1 + k) * (i - 1 + k))).
Proof.
  intros Hi Hsorted. revert i cumulative Hi.
  induction Hsorted as [|c rest Hsorted IH Hc]; intros i cumulative Hi Hmean g.
  - subst g. simpl. repeat split; try lia; intros k Hk; simpl in Hk; lia.
  - apply Forall_cons in Hmean as [Hmean_c Hmean].
    subst g. cbn [g_index_loop].
    assert (Forall (fun x => rank i * x <= cumulative + c) rest) as Hmean'.
    { rewrite Forall_forall in Hmean, Hc. apply Forall_forall. intros x Hx.
      specialize (Hmean x Hx). specialize (Hc x Hx). simpl in Hc, Hmean.
      replace i with (S (i - 1)) at 1 by lia. rewrite rank_S. rank_lra. }
    destruct (Qle_bool (rank (i * i)) (cumulative + c)) eqn:Hpass.
    + apply Qle_bool_iff in Hpass.
      specialize (IH (S i) (cumulative + c)).
      replace (S i - 1)%nat with i in IH by lia.
      destruct IH as (Hrange & Hpasses & Hfails); [lia|done|].
      split; [simpl; lia|]. split.
      * intros k Hk Hle. destruct k as [|k]; [lia|]. rewrite top_sum_cons.
        destruct k as [|k].
        -- replace (i - 1 + 1)%nat with i by lia. rewrite top_sum_0. rank_lra.
        -- specialize (Hpasses (S k)).
           replace (i - 1 + S (S k))%nat with (i + S k)%nat by lia.
           assert (rank ((i + S k) * (i + S k))
                   <= cumulative + c + top_sum (S k) rest); [|rank_lra].
           apply Hpasses; lia.
      * intros k Hk Hlt. destruct k as [|k]; [lia|]. rewrite top_sum_cons.
        destruct k as [|k]; [lia|].
        specialize (Hfails (S k)).
        replace (i - 1 + S (S k))%nat with (i + S k)%nat by lia.
        assert (cumulative + c + top_sum (S k) rest
                < rank ((i + S k) * (i + S k))); [|rank_lra].
        apply Hfails; simpl in Hk; lia.
    + apply Qle_bool_false in Hpass.
      split; [simpl; lia|]. split; [intros k Hk Hle; lia|].
      intros k Hk _. destruct k as [|k]; [lia|]. rewrite top_sum_cons.
      destruct k as [|k].
      * replace (i - 1 + 1)%nat with i by lia. rewrite top_sum_0. rank_lra.
      * replace (i - 1 + S (S k))%nat with (i + S k)%nat by lia.
        assert (cumulative + c + top_sum (S k) rest
                < rank ((i + S k) * (i + S k))); [|rank_lra].
        apply short_forever; [lia|done|done|done|simpl in Hk; lia].
Qed.

Lemma g_index_nonempty `{Pandas} (df : DataFrame) :
  empty df = false ->
  AppFunctions.g_index (AppFunctions.calculate_impact_metrics df).1
  = g_index_loop 1 0 0 (sort_desc (AppFunctions.coerced_citations df)).
Proof.
  intros Hne. unfold AppFunctions.calculate_impact_metrics. by rewrite Hne.
Qed.

(** X1: the g-index of [calculate_impact_metrics] is the largest rank whose
    top counts add up to its square: every rank up to it passes the test
    and every rank after it fails, so leaving the loop at the first
    failure loses nothing. *)
Theorem g_index_is_largest_rank `{Pandas} (cs : list Q) :
  let g := AppFunctions.g_index
             (AppFunctions.calculate_impact_metrics (citation_frame cs)).1 in
  (g <= length cs)%nat
  /\ (forall i, (1 <= i <= g)%nat -> rank (i * i) <= top_sum i (sort_desc cs))
  /\ (forall i, (g < i <= length cs)%nat ->
        top_sum i (sort_desc cs) < rank (i * i)).
Proof.
  intros g. subst g. destruct cs as [|c cs].
  { cbn. repeat split; try lia; intros i Hi; simpl in Hi; lia. }
  rewrite g_index_nonempty, coerced_citation_frame by done.
  destruct (g_index_loop_spec (sort_desc (c :: cs)) 1 0)
    as (Hrange & Hpasses & Hfails);
    [lia|apply sort_desc_sorted| |].
  { apply Forall_forall. intros x _. change (rank (1 - 1)) with 0. lra. }
  rewrite (Permutation_length (sort_desc_perm (c :: cs))) in Hrange, Hfails.
  cbn [Nat.sub] in *. split; [lia|]. split.
  - intros i Hi. specialize (Hpasses i). cbn [Nat.add] in Hpasses.
    assert (rank (i * i) <= 0 + top_sum i (sort_desc (c :: cs))); [|lra].
    apply Hpasses; lia.
  - intros i Hi. specialize (Hfails i). cbn [Nat.add] in Hfails.
    assert (0 + top_sum i (sort_desc (c :: cs)) < rank (i * i)); [|lra].
    apply Hfails; lia.
Qed.

Lemma g_index_is_largest_rank_witness :
  let cs := [9; 1; 1; 1; 0] in
  AppFunctions.g_index
    (AppFunctions.calculate_impact_metrics (citation_frame cs)).1 = 3%nat
  /\ rank (3 * 3) <= top_sum 3 (sort_desc cs)
  /\ top_sum 4 (sort_desc cs) < rank (4 * 4).
Proof.
  intros cs. split; [reflexivity|].
  destruct (g_index_is_largest_rank cs) as (_ & Hpasses & Hfails).
  split; [apply Hpasses|apply Hfails]; vm_compute; split; lia.
Defined.

(** ** The h-index against the g-index *)

Lemma rank_pred (i : nat) : (1 <= i)%nat -> rank (i - 1) == rank i - 1.
Proof.
  intros Hi. replace i with (S (i - 1)) at 2 by lia. rewrite rank_S. ring.
Qed.

Lemma h_le_g_loop (rest : list Q) (i : nat) (cumulative : Q) :
  (1 <= i)%nat ->
  StronglySorted (flip Qle) rest ->
  Forall (fun c => rank (i - 1) * c <= cumulative) rest ->
  (i - 1 + count_ge_rank i rest <= g_index_loop i cumulative (i - 1) rest)%nat.
Proof.
  intros Hi Hsorted. revert i cumulative Hi.
  induction Hsorted as [|c rest Hsorted IH Hc]; intros i cumulative Hi Hmean;
    [simpl; lia|].
  cbn [count_ge_rank].
  destruct (Qle_bool (rank i) c) eqn:Hh.
  - apply Qle_bool_iff in Hh.
    pose proof (Forall_inv Hmean) as Hmean_c. simpl in Hmean_c.
    assert (rank (i * i) <= cumulative + c) as Hpass.
    { rewrite rank_square. rewrite rank_pred in Hmean_c by done.
      pose proof (rank_le 1 i Hi) as Hr. change (rank 1) with 1 in Hr.
      assert (rank i * (rank i - 1) <= c * (rank i - 1)) as Hprod
        by (apply Qmult_le_compat_r; rank_lra).
      assert (rank i * (rank i - 1) == rank i * rank i - rank i) as Heq by ring.
      assert (c * (rank i - 1) == (rank i - 1) * c) as Heq' by ring.
      rewrite Heq, Heq' in Hprod. rank_lra. }
    cbn [g_index_loop]. apply Qle_bool_iff in Hpass. rewrite Hpass.
    specialize (IH (S i) (cumulative + c)).
    replace (S i - 1)%nat with i in IH by lia.
    assert (i + count_ge_rank (S i) rest
            <= g_index_loop (S i) (cumulative + c) i rest)%nat; [|lia].
    apply IH; [lia|].
    apply Forall_inv_tail in Hmean.
    rewrite Forall_forall in Hmean, Hc. apply Forall_forall. intros x Hx.
    specialize (Hmean x Hx). specialize (Hc x Hx). simpl in Hc, Hmean.
    rewrite rank_pred in Hmean by done. rank_lra.
  - apply Qle_bool_false in Hh.
    rewrite (count_ge_rank_below i (S i)); [|lia|].
    + destruct (g_index_loop_spec (c :: rest) i cumulative) as (Hrange & _);
        [done|by constructor|done|lia].
    + eapply Forall_impl; [exact Hc|]. intros x Hx. simpl in Hx. rank_lra.
Qed.

(** X2: the h-index that [calculate_impact_metrics] reports never exceeds
    the g-index it reports. *)
Theorem h_index_le_g_index `{Pandas} (cs : list Q) :
  let m := (AppFunctions.calculate_impact_metrics (citation_frame cs)).1 in
  (AppFunctions.h_index m <= AppFunctions.g_index m)%nat.
Proof.
  intros m. subst m. destruct cs as [|c cs]; [done|].
  rewrite g_index_nonempty, h_index_nonempty, coerced_citation_frame by done.
  apply (h_le_g_loop _ 1 0); [lia|apply sort_desc_sorted|].
  apply Forall_forall. intros x _. change (rank (1 - 1)) with 0. lra.
Qed.

(** ** The h-index as a count of records *)

Lemma count_ge_perm (b : Q) (l l' : list Q) :
  l ≡ₚ l' -> count_ge b l = count_ge b l'.
Proof.
  unfold count_ge. induction 1 as [|x l l' _ IH|x y l|l l' l'' _ IH _ IH'];
    simpl; [done| | |congruence].
  - destruct (Qle_bool b x); simpl; by rewrite IH.
  - destruct (Qle_bool b x), (Qle_bool b y); reflexivity.
Qed.

Lemma count_ge_app (b : Q) (l l' : list Q) :
  count_ge b (l ++ l') = (count_ge b l + count_ge b l')%nat.
Proof. unfold count_ge. by rewrite List.filter_app, length_app. Qed.

Lemma count_ge_length (b : Q) (l : list Q) : (count_ge b l <= length l)%nat.
Proof. apply List.filter_length_le. Qed.

Lemma count_ge_all (b : Q) (l : list Q) :
  Forall (fun c => b <= c) l -> count_ge b l = length l.
Proof.
  unfold count_ge. induction 1 as [|c l Hc _ IH]; [done|]. simpl.
  apply Qle_bool_iff in Hc. rewrite Hc. simpl. by rewrite IH.
Qed.

Lemma count_ge_none (b : Q) (l : list Q) :
  Forall (fun c => c < b) l -> count_ge b l = 0%nat.
Proof.
  unfold count_ge. induction 1 as [|c l Hc _ IH]; [done|]. simpl.
  apply Qle_bool_false in Hc. by rewrite Hc.
Qed.

Lemma count_ge_mono (b b' : Q) (l : list Q) :
  b <= b' -> (count_ge b' l <= count_ge b l)%nat.
Proof.
  intros Hb. unfold count_ge. induction l as [|c l IH]; [done|]. simpl.
  destruct (Qle_bool b' c) eqn:Hc'.
  - apply Qle_bool_iff in Hc'.
    assert (Qle_bool b c = true) as -> by (apply Qle_bool_iff; lra).
    simpl. lia.
  - destruct (Qle_bool b c); simpl; lia.
Qed.

(** On a descending vector the ranks that the h-index counts are the
    first ones: they all reach the last counted rank, and no later record
    reaches the next rank. *)
Lemma count_ge_rank_split (s : list Q) (i : nat) :
  StronglySorted (flip Qle) s ->
  let t := count_ge_rank i s in
  Forall (fun c => rank (i + t - 1) <= c) (take t s)
  /\ Forall (fun c => c < rank (i + t)) (drop t s).
Proof.
  intros Hsorted. revert i.
  induction Hsorted as [|c rest Hsorted IH Hc]; intros i t; [by split|].
  subst t. cbn [count_ge_rank].
  destruct (Qle_bool (rank i) c) eqn:Hh.
  - apply Qle_bool_iff in Hh. destruct (IH (S i)) as [Htake Hdrop].
    set (t := count_ge_rank (S i) rest) in *.
    replace (1 + t)%nat with (S t) by lia. cbn [take drop]. split.
    + constructor.
      * destruct (decide (t = 0%nat)) as [->|Hpos].
        -- by replace (i + 1 - 1)%nat with i by lia.
        -- pose proof (count_ge_rank_length (S i) rest) as Hlen. fold t in Hlen.
           destruct rest as [|c' rest]; [simpl in Hlen; lia|].
           destruct t as [|t]; [done|].
           apply Forall_inv in Htake, Hc. simpl in Hc.
           replace (i + S (S t) - 1)%nat with (S i + S t - 1)%nat by lia.
           by etransitivity.
      * by replace (i + S t - 1)%nat with (S i + t - 1)%nat by lia.
    + by replace (i + S t)%nat with (S i + t)%nat by lia.
  - apply Qle_bool_false in Hh.
    rewrite (count_ge_rank_below i (S i)); [|lia|].
    + cbn [Nat.add take drop]. split; [constructor|].
      replace (i + 0)%nat with i by lia. constructor; [done|].
      eapply Forall_impl; [exact Hc|]. intros x Hx. simpl in Hx.
      eapply Qle_lt_trans; [exact Hx|done].
    + eapply Forall_impl; [exact Hc|]. intros x Hx. simpl in Hx.
      eapply Qle_lt_trans; [exact Hx|done].
Qed.

(** X3: the h-index of [calculate_impact_metrics] is the largest number
    [k] such that [k] records have at least [k] citations each. *)
Theorem h_index_is_largest `{Pandas} (cs : list Q) (k : nat) :
  let h := AppFunctions.h_index
             (AppFunctions.calculate_impact_metrics (citation_frame cs)).1 in
  (k <= count_ge (rank k) cs)%nat <-> (k <= h)%nat.
Proof.
  intros h. subst h. destruct cs as [|c cs].
  { cbn. lia. }
  rewrite h_index_nonempty, coerced_citation_frame by done.
  set (s := sort_desc (c :: cs)). set (h := count_ge_rank 1 s).
  rewrite <- (count_ge_perm (rank k) _ _ (sort_desc_perm (c :: cs))). fold s.
  destruct (count_ge_rank_split s 1 (sort_desc_sorted _)) as [Htake Hdrop].
  fold h in Htake, Hdrop.
  replace (1 + h - 1)%nat with h in Htake by lia.
  replace (1 + h)%nat with (S h) in Hdrop by lia.
  pose proof (count_ge_rank_length 1 s) as Hlen. fold h in Hlen.
  assert (h <= count_ge (rank h) s)%nat as Hreach.
  { rewrite <- (take_drop h s), count_ge_app, (count_ge_all _ _ Htake).
    rewrite length_take. lia. }
  assert (count_ge (rank (S h)) s <= h)%nat as Hshort.
  { rewrite <- (take_drop h s), count_ge_app, (count_ge_none _ _ Hdrop).
    pose proof (count_ge_length (rank (S h)) (take h s)) as Hle.
    rewrite length_take in Hle. lia. }
  split.
  - intros Hk. destruct (decide (k <= h)%nat) as [|Hgt]; [done|].
    pose proof (count_ge_mono (rank (S h)) (rank k) s) as Hmono.
    assert (rank (S h) <= rank k) by (apply rank_le; lia).
    specialize (Hmono ltac:(done)). lia.
  - intros Hk.
    pose proof (count_ge_mono (rank k) (rank h) s (rank_le k h Hk)). lia.
Qed.

(** ** Percentiles *)

Lemma nth_sorted_elem (s : list Q) (i : nat) :
  (i < length s)%nat -> nth i s 0 ∈ s.
Proof. intros Hi. by apply list_elem_of_In, nth_In. Qed.

(** X4: every percentile that [np.percentile] interpolates lies between
    two bounds of the citation counts. *)
Theorem percentile_in_range (cs : list Q) (p : nat) (lo hi : Q) :
  cs <> [] -> (p <= 100)%nat ->
  Forall (fun c => lo <= c <= hi) cs ->
  lo <= percentile cs p <= hi.
Proof.
  intros Hcs Hp Hrange. rewrite percentile_interpolate.
  set (s := sort_asc cs).
  assert (0 < length s)%nat as Hn.
  { unfold s. rewrite (Permutation_length (sort_asc_perm cs)).
    destruct cs; [done|simpl; lia]. }
  assert (Forall (fun c => lo <= c <= hi) s) as Hs
    by (unfold s; by rewrite (sort_asc_perm cs)).
  rewrite Forall_forall in Hs.
  assert ((length s - 1) * p <= (length s - 1) * 100)%nat as Hv by nia.
  destruct (interpolate_between s _ (sort_asc_sorted cs) Hv Hn) as [Hlow Hup].
  assert ((length s - 1) * p / 100 <= length s - 1)%nat
    by (apply Nat.Div0.div_le_upper_bound; lia).
  destruct (Hs (nth ((length s - 1) * p / 100) s 0)) as [Hlo _];
    [apply nth_sorted_elem; lia|].
  destruct (Hs (nth (Nat.min (S ((length s - 1) * p / 100)) (length s - 1)) s 0))
    as [_ Hhi]; [apply nth_sorted_elem; lia|].
  split; [by etransitivity|by etransitivity].
Qed.

Lemma percentile_in_range_witness :
  3 <= percentile [25; 8; 5; 3; 3] 90 <= 25.
Proof.
  apply percentile_in_range; [discriminate|lia|].
  repeat constructor; discriminate.
Defined.

(** X5: the 50th percentile of [np.percentile] is the median that
    [analyze_publications_by_time] takes per year with [agg('median')]. *)
Theorem percentile_50_is_median (cs : list Q) (m : Q) :
  median cs = Some m -> percentile cs 50 == m.
Proof.
  unfold median. rewrite percentile_interpolate. unfold interpolate.
  set (s := sort_asc cs). set (n := length s).
  destruct (n =? 0)%nat eqn:Hn; [discriminate|]. apply Nat.eqb_neq in Hn.
  destruct (Nat.odd n) eqn:Hodd.
  - intros [= <-]. apply Nat.odd_spec in Hodd as [q Hq].
    change (Nat.divmod n 1 0 1).1 with (n / 2)%nat.
    assert ((n - 1) * 50 = q * 100)%nat as Hv by lia.
    rewrite Hv, Nat.div_mul, Nat.Div0.mod_mul by lia.
    replace (n / 2)%nat with q.
    + change (inject_Z (Z.of_nat 0)) with 0.
      generalize (nth q s 0) (nth (Nat.min (S q) (n - 1)) s 0).
      intros x y. field.
    + apply (Nat.div_unique n 2 q 1); lia.
  - intros [= <-]. change (Nat.divmod n 1 0 1).1 with (n / 2)%nat.
    assert (Nat.even n = true) as Heven by (rewrite <- Nat.negb_odd, Hodd; done).
    apply Nat.even_spec in Heven as [q Hq].
    assert (1 <= q)%nat by lia.
    assert ((n - 1) * 50 = 50 + (q - 1) * 100)%nat as Hv by lia.
    rewrite Hv, Nat.div_add, Nat.Div0.mod_add by lia.
    change (50 / 100)%nat with 0%nat. change (50 mod 100)%nat with 50%nat.
    replace (n / 2)%nat with q by (apply (Nat.div_unique n 2 q 0); lia).
    replace (Nat.min (S (0 + (q - 1))) (n - 1)) with q by lia.
    replace (0 + (q - 1))%nat with (q - 1)%nat by lia.
    change (inject_Z (Z.of_nat 50)) with 50.
    generalize (nth (q - 1) s 0) (nth q s 0). intros x y. field.
Qed.

Lemma percentile_50_is_median_witness :
  percentile [25; 8; 5; 3] 50 == 13 # 2.
Proof. apply percentile_50_is_median. reflexivity. Defined.

(** * Further properties of [analyze_publications_by_time] *)

(** The frame and the keys from which a run of the function groups. *)
Lemma analyze_publications_by_time_groups `{Pandas} (current_year : Z)
    (df : DataFrame) (r : TimeAnalysis.result_dict) :
  (TimeAnalysis.analyze_publications_by_time current_year df).1 = Ok r ->
  r = TimeAnalysis.empty_result
  \/ exists year df2,
       year = dt_year <$> (date_cell <$> to_datetime (column df "publication_date"))
       /\ length df2 = length df
       /\ column df2 "citations" = column df "citations"
       /\ TimeAnalysis.publications_by_year r
          = (fun g => (g.1, length g.2)) <$> groupby year (column df2 "year")
       /\ mapM (fun g : Z * list cell =>
                  vs ← mapM numeric g.2; mret (g.1, TimeAnalysis.year_stats vs))
               (groupby year (column df2 "citations"))
          = Ok (TimeAnalysis.citations_by_year r).
Proof.
  unfold TimeAnalysis.analyze_publications_by_time.
  destruct (empty df || negb (has_column df "publication_date"));
    [intros [= <-]; by left|].
  set (dates := to_datetime (column df "publication_date")).
  set (df1 := set_column "publication_date" (date_cell <$> dates) df).
  assert (column df1 "publication_date" = date_cell <$> dates) as Hcol.
  { apply column_set_column. unfold dates.
    by rewrite length_fmap, to_datetime_length, column_length. }
  rewrite Hcol.
  set (year := dt_year <$> (date_cell <$> dates)).
  set (df2 := set_column "year" _ df1).
  intros Hr. right. exists year, df2.
  split; [done|]. split; [unfold df2, df1; by rewrite !set_column_length|].
  split; [unfold df2, df1; by rewrite !column_set_column_ne|].
  destruct (negb (has_column df2 "citations")); [discriminate|].
  destruct (mapM _ (groupby year (column df2 "citations"))) as [stats|];
    [|discriminate].
  destruct (mapM numeric _) as [citations|]; [|discriminate].
  simpl in Hr. by injection Hr as <-.
Qed.

Lemma group_insert_nonempty {A} (k : Z) (v : A) (groups : list (Z * list A)) :
  Forall (fun g => (0 < length g.2)%nat) groups ->
  Forall (fun g => (0 < length g.2)%nat) (group_insert k v groups).
Proof.
  induction 1 as [|[k' vs] groups Hvs Hgroups IH]; cbn [group_insert].
  - repeat constructor.
  - destruct (k <? k')%Z; [repeat constructor; done|].
    destruct (k =? k')%Z; constructor; try done.
    simpl. rewrite length_app. simpl. lia.
Qed.

Lemma groupby_nonempty {A} (keys : list (option Z)) (values : list A) :
  Forall (fun g => (0 < length g.2)%nat) (groupby keys values).
Proof.
  unfold groupby.
  generalize (zip keys values) (@nil (Z * list A))
             (Forall_nil_2 (fun g : Z * list A => (0 < length g.2)%nat)).
  induction l as [|[k v] kvs IH]; intros acc Hacc; [exact Hacc|].
  cbn [foldl]. apply IH. destruct k as [k|]; simpl; [|done].
  by apply group_insert_nonempty.
Qed.

(** X6: the per-year table of [analyze_publications_by_time] lists its
    years in strictly ascending order, each once, and no year of the table
    is without a publication. *)
Theorem publications_by_year_ascending `{Pandas} (current_year : Z)
    (df : DataFrame) (r : TimeAnalysis.result_dict) :
  (TimeAnalysis.analyze_publications_by_time current_year df).1 = Ok r ->
  StronglySorted Z.lt (fst <$> TimeAnalysis.publications_by_year r)
  /\ Forall (fun yn => (0 < yn.2)%nat) (TimeAnalysis.publications_by_year r).
Proof.
  intros Hr.
  destruct (analyze_publications_by_time_groups current_year df r Hr)
    as [->|(year & df2 & _ & _ & _ & -> & _)]; [split; constructor|].
  split.
  - rewrite <- list_fmap_compose.
    eapply StronglySorted_fmap; [|apply (groupby_ascending year (column df2 "year"))].
    by intros g g' Hlt.
  - apply Forall_fmap. apply (groupby_nonempty year (column df2 "year")).
Qed.

Lemma publications_by_year_ascending_witness :
  let df := [ {[ "publication_date" := Str "2021-06-01"; "citations" := Num 2 ]};
              {[ "publication_date" := Str "2019-03-04"; "citations" := Num 1 ]};
              {[ "publication_date" := Str "2021-10-10"; "citations" := Num 8 ]} ] in
  exists r,
    (TimeAnalysis.analyze_publications_by_time 2024 df).1 = Ok r
    /\ StronglySorted Z.lt (fst <$> TimeAnalysis.publications_by_year r).
Proof.
  intros df.
  assert (exists r, (TimeAnalysis.analyze_publications_by_time 2024 df).1 = Ok r)
    as [r Hr] by (eexists; vm_compute; reflexivity).
  exists r. split; [exact Hr|].
  apply (publications_by_year_ascending 2024 df r Hr).
Defined.

(** X7: on a batch with dates but without a [citations] column the
    function raises the [KeyError] of the group selection, whose message is
    [Column not found: citations], and by then it has replaced
    [publication_date] by the parsed dates and written [year] in the
    caller's frame. *)
Theorem analyze_publications_by_time_without_citations `{Pandas}
    (current_year : Z) (df : DataFrame) :
  empty df = false ->
  has_column df "publication_date" = true ->
  has_column df "citations" = false ->
  exists df',
    TimeAnalysis.analyze_publications_by_time current_year df
    = (Raise (KeyError "Column not found: citations"), df')
    /\ column df' "publication_date"
       = date_cell <$> to_datetime (column df "publication_date")
    /\ has_column df' "year" = true
    /\ column df' "year"
       = (fun d : option date => opt_cell (inject_Z <$> (date_year <$> d)))
           <$> to_datetime (column df "publication_date")
    /\ has_column df' "citation_velocity" = has_column df "citation_velocity"
    /\ column df' "citation_velocity" = column df "citation_velocity".
Proof.
  intros Hne Hdate Hcit. unfold TimeAnalysis.analyze_publications_by_time.
  rewrite Hne, Hdate. cbn [negb orb].
  set (dates := to_datetime (column df "publication_date")).
  set (df1 := set_column "publication_date" (date_cell <$> dates) df).
  set (df2 := set_column "year" _ df1).
  assert (has_column df2 "citations" = false) as ->.
  { unfold df2, df1. by rewrite !has_column_set_column_ne. }
  cbn [negb]. exists df2. split; [done|].
  assert (df <> []) as Hrows by (intros ->; discriminate).
  assert (length dates = length df) as Hdates
    by (unfold dates; by rewrite to_datetime_length, column_length).
  assert (column df1 "publication_date" = date_cell <$> dates) as Hcol1
    by (apply column_set_column; by rewrite length_fmap).
  split; [|split; [|split; [|split]]].
  - unfold df2. by rewrite column_set_column_ne.
  - apply has_column_defined; [|apply set_column_defined].
    intros Hnil. apply (f_equal length) in Hnil.
    unfold df2, df1 in Hnil. rewrite !set_column_length in Hnil.
    by destruct df.
  - unfold df2. rewrite column_set_column.
    + rewrite Hcol1, <- !list_fmap_compose. apply list_fmap_ext. by intros i [d|] _.
    + unfold df1. by rewrite !length_fmap, column_length, set_column_length.
  - unfold df2, df1. by rewrite !has_column_set_column_ne.
  - unfold df2, df1. by rewrite !column_set_column_ne.
Qed.

Lemma analyze_publications_by_time_without_citations_witness :
  exists df',
    TimeAnalysis.analyze_publications_by_time 2024
      [ {[ "publication_date" := Str "2021-06-01"; "title" := Str "A survey" ]} ]
    = (Raise (KeyError "Column not found: citations"), df')
    /\ has_column df' "year" = true.
Proof.
  destruct (analyze_publications_by_time_without_citations 2024
              [ {[ "publication_date" := Str "2021-06-01";
                   "title" := Str "A survey" ]} ])
    as (df' & Hrun & _ & Hyear & _); [vm_compute; reflexivity..|].
  exists df'. split; [exact Hrun|exact Hyear].
Defined.

Local Open Scope nat_scope.

(** * Further properties of [analyze_authors] *)

(** ** The dictionary of papers by author *)

Lemma dict_append_count {A} (a k : string) (v : A) (d : list (string * list A)) :
  dict_count a (dict_append k v d)
  = dict_count a d + (if String.eqb a k then 1 else 0).
Proof.
  unfold dict_count. induction d as [|[k' vs] d IH]; cbn [dict_append].
  - cbn. destruct (String.eqb a k); lia.
  - destruct (String.eqb k k') eqn:Hk.
    + apply String.eqb_eq in Hk as ->. rewrite !fmap_cons.
      cbn [fst snd sum_list sum_list_with]. rewrite length_app.
      destruct (String.eqb a k'); unfold id; simpl; lia.
    + rewrite !fmap_cons. cbn [fst snd sum_list sum_list_with].
      rewrite IH. unfold id. lia.
Qed.

Lemma dict_append_keys {A} (k : string) (v : A) (d : list (string * list A)) :
  k ∈ d.*1 -> (dict_append k v d).*1 = d.*1.
Proof.
  induction d as [|[k' vs] d IH]; intros Hin; [by apply elem_of_nil in Hin|].
  cbn [dict_append]. destruct (String.eqb k k') eqn:Hk; [done|].
  apply String.eqb_neq in Hk. cbn. f_equal. apply IH.
  apply elem_of_cons in Hin as [|]; done.
Qed.

Lemma dict_append_keys_new {A} (k : string) (v : A) (d : list (string * list A)) :
  k ∉ d.*1 -> (dict_append k v d).*1 = d.*1 ++ [k].
Proof.
  induction d as [|[k' vs] d IH]; intros Hout; [done|].
  cbn [dict_append]. destruct (String.eqb k k') eqn:Hk.
  - apply String.eqb_eq in Hk as ->. exfalso. apply Hout. left.
  - cbn. f_equal. apply IH. intros Hin. apply Hout. by right.
Qed.

Lemma dict_append_NoDup {A} (k : string) (v : A) (d : list (string * list A)) :
  NoDup d.*1 -> NoDup (dict_append k v d).*1.
Proof.
  intros Hd. destruct (decide (k ∈ d.*1)) as [Hin|Hout].
  - by rewrite dict_append_keys.
  - rewrite dict_append_keys_new by done.
    apply NoDup_app. split; [done|]. split; [|apply NoDup_singleton].
    intros x Hx Hk. apply list_elem_of_singleton in Hk as ->. done.
Qed.

Lemma dict_count_unique {A} (a : string) (vs : list A) (d : list (string * list A)) :
  NoDup d.*1 -> (a, vs) ∈ d -> dict_count a d = length vs.
Proof.
  unfold dict_count. induction d as [|[k ws] d IH]; intros Hd Hin.
  - by apply elem_of_nil in Hin.
  - apply NoDup_cons in Hd as [Hk Hd]. rewrite fmap_cons.
    cbn [fst snd sum_list sum_list_with].
    assert (forall d' : list (string * list A), a ∉ d'.*1 ->
              sum_list ((fun kv : string * list A =>
                           if String.eqb a kv.1 then length kv.2 else 0) <$> d')
              = 0) as Hzero.
    { clear. induction d' as [|[k ws] d' IH]; intros Hout; [done|].
      rewrite fmap_cons. cbn [fst snd sum_list sum_list_with].
      destruct (String.eqb a k) eqn:Hk.
      - apply String.eqb_eq in Hk as ->. exfalso. apply Hout. left.
      - rewrite IH; [done|]. intros Hin. apply Hout. by right. }
    apply elem_of_cons in Hin as [[= <- <-]|Hin].
    + rewrite String.eqb_refl, Hzero by done. unfold id. lia.
    + rewrite IH by done. destruct (String.eqb a k) eqn:Hak; [|unfold id; lia].
      apply String.eqb_eq in Hak as ->. exfalso. apply Hk.
      apply list_elem_of_fmap. by exists (k, vs).
Qed.

Lemma dict_count_absent {A} (a : string) (d : list (string * list A)) :
  a ∉ d.*1 -> dict_count a d = 0.
Proof.
  unfold dict_count. induction d as [|[k ws] d IH]; intros Hout; [done|].
  rewrite fmap_cons. cbn [fst snd sum_list sum_list_with].
  destruct (String.eqb a k) eqn:Hk.
  - apply String.eqb_eq in Hk as ->. exfalso. apply Hout. left.
  - rewrite IH; [done|]. intros Hin. apply Hout. by right.
Qed.

Lemma dict_entries_nonempty {A} (k : string) (v : A) (d : list (string * list A)) :
  Forall (fun kv => 0 < length kv.2) d ->
  Forall (fun kv => 0 < length kv.2) (dict_append k v d).
Proof.
  induction 1 as [|[k' vs] d Hvs Hd IH]; cbn [dict_append].
  - repeat constructor.
  - destruct (String.eqb k k'); constructor; try done.
    simpl. rewrite length_app. simpl. lia.
Qed.

(** ** The first loop *)

Lemma occurrences_app (a : string) (l l' : list string) :
  occurrences a (l ++ l') = occurrences a l + occurrences a l'.
Proof. unfold occurrences. by rewrite List.filter_app, length_app. Qed.

Lemma credit_names (row : Series) (names : list string)
    (acc : list string * list (string * list Series)) :
  papers_of acc.1 acc.2 ->
  let acc' := foldl (fun acc author =>
                       if nonempty author
                       then (acc.1 ++ [author], dict_append author row acc.2)
                       else acc) acc names in
  acc'.1 = acc.1 ++ List.filter nonempty names /\ papers_of acc'.1 acc'.2.
Proof.
  revert acc. induction names as [|a names IH]; intros acc Hacc acc'.
  - subst acc'. simpl. by rewrite app_nil_r.
  - subst acc'. cbn [foldl List.filter]. destruct (nonempty a) eqn:Ha.
    + specialize (IH (acc.1 ++ [a], dict_append a row acc.2)).
      destruct IH as [Hall Hpapers].
      { destruct Hacc as (Hnodup & Hsome & Hcount). split; [|split].
        - by apply dict_append_NoDup.
        - by apply dict_entries_nonempty.
        - intros b. cbn [fst snd]. rewrite dict_append_count, occurrences_app, Hcount.
          unfold occurrences. simpl. by destruct (String.eqb b a). }
      split; [|done]. rewrite Hall. cbn [fst]. by rewrite <- app_assoc.
    + by apply IH.
Qed.

Lemma extract_authors_spec (rows : list Series)
    (acc acc' : list string * list (string * list Series)) :
  Authors.extract_authors acc rows = Ok acc' ->
  papers_of acc.1 acc.2 ->
  exists names,
    mapM (fun row => split_names (at_col "authors" row)) rows = Ok names
    /\ acc'.1 = acc.1 ++ List.filter nonempty (concat names)
    /\ papers_of acc'.1 acc'.2.
Proof.
  revert acc. induction rows as [|row rows IH]; intros acc Hrun Hacc.
  - injection Hrun as <-. exists []. split; [done|]. simpl.
    by rewrite app_nil_r.
  - cbn [Authors.extract_authors] in Hrun. unfold Authors.extract_step in Hrun.
    destruct (split_names (at_col "authors" row)) as [names|e] eqn:Hnames;
      [|discriminate].
    cbn [mbind result_bind mret result_ret] in Hrun.
    destruct (credit_names row names acc Hacc) as [Hall Hpapers].
    apply IH in Hrun as (more & Hmore & Hall' & Hpapers'); [|done].
    exists (names :: more). split.
    + change (mapM (fun r => split_names (at_col "authors" r)) (row :: rows))
        with (y ← split_names (at_col "authors" row);
              k ← mapM (fun r => split_names (at_col "authors" r)) rows;
              mret (y :: k)).
      by rewrite Hnames, Hmore.
    + split; [|done]. rewrite Hall', Hall. cbn [concat].
      by rewrite List.filter_app, <- app_assoc.
Qed.

Lemma extract_authors_raises (rows : list Series)
    (acc : list string * list (string * list Series)) (row : Series) (e : exn) :
  row ∈ rows -> split_names (at_col "authors" row) = Raise e ->
  Authors.extract_authors acc rows = Raise AttributeError.
Proof.
  revert acc. induction rows as [|row' rows IH]; intros acc Hin Hraise.
  - by apply elem_of_nil in Hin.
  - cbn [Authors.extract_authors]. unfold Authors.extract_step.
    destruct (split_names (at_col "authors" row')) as [names|e'] eqn:Hnames.
    + cbn [mbind result_bind mret result_ret]. apply IH; [|done].
      apply elem_of_cons in Hin as [->|Hin]; [congruence|done].
    + cbn [mbind result_bind].
      destruct (at_col "authors" row') as [|q|s|d]; simpl in Hnames;
        try discriminate; try (by injection Hnames as <-).
      by destruct (String.eqb s "").
Qed.

(** ** The table of authors *)

Lemma mapM_result_length {A B} (f : A -> result B) (l : list A) (l' : list B) :
  mapM f l = Ok l' -> length l' = length l.
Proof.
  revert l'. induction l as [|x l IH]; intros l' Hrun; [by injection Hrun as <-|].
  change (mapM f (x :: l)) with (y ← f x; k ← mapM f l; mret (y :: k)) in Hrun.
  destruct (f x) as [y|]; [|discriminate].
  destruct (mapM f l) as [k|]; [|discriminate].
  injection Hrun as <-. simpl. f_equal. by apply IH.
Qed.

Lemma author_stats_spec (has_citations : bool) (name : string)
    (papers : list Series) (st : Authors.AuthorStats) :
  Authors.author_stats has_citations name papers = Ok st ->
  has_citations = true /\ stats_of st (name, papers).
Proof.
  unfold Authors.author_stats. destruct has_citations; [|discriminate].
  cbn [negb]. destruct (mapM numeric _) as [cells|] eqn:Hcells; [|discriminate].
  intros [= <-]. split; [done|]. split; [done|]. split; [done|].
  cbn [Authors.h_index snd].
  etransitivity; [apply count_ge_rank_length|].
  rewrite (Permutation_length (sort_desc_perm _)).
  etransitivity; [apply omap_id_length|].
  apply mapM_result_length in Hcells. rewrite Hcells. by rewrite column_length.
Qed.

Lemma author_metrics_spec (has_citations : bool)
    (author_papers : list (string * list Series))
    (metrics : list Authors.AuthorStats) :
  Authors.author_metrics has_citations author_papers = Ok metrics ->
  Forall2 stats_of metrics (List.filter significant author_papers).
Proof.
  revert metrics. induction author_papers as [|[name papers] d IH];
    intros metrics Hrun; [injection Hrun as <-; constructor|].
  cbn [Authors.author_metrics] in Hrun. cbn [List.filter].
  unfold significant at 1. cbn [snd].
  destruct (length papers <? 2) eqn:Hlen.
  - apply Nat.ltb_lt in Hlen.
    assert ((2 <=? length papers) = false) as -> by (apply Nat.leb_gt; lia).
    by apply IH.
  - apply Nat.ltb_ge in Hlen.
    assert ((2 <=? length papers) = true) as -> by (by apply Nat.leb_le).
    destruct (Authors.author_stats has_citations name papers) as [st|] eqn:Hst;
      [|discriminate].
    cbn [mbind result_bind] in Hrun.
    destruct (Authors.author_metrics has_citations d) as [more|]; [|discriminate].
    injection Hrun as <-. constructor; [|by apply IH].
    by apply author_stats_spec in Hst as [_ Hst].
Qed.

(** Without a [citations] column the metrics of the authors are never
    built: the first author with two papers stops the function. *)
Lemma author_metrics_without_citations
    (author_papers : list (string * list Series)) :
  Authors.author_metrics false author_papers
  = if existsb significant author_papers then Raise (KeyError "citations")
    else Ok [].
Proof.
  induction author_papers as [|[name papers] d IH]; [done|].
  cbn [Authors.author_metrics existsb]. unfold significant at 1. cbn [snd].
  destruct (length papers <? 2) eqn:Hlen.
  - apply Nat.ltb_lt in Hlen.
    assert ((2 <=? length papers) = false) as -> by (apply Nat.leb_gt; lia).
    done.
  - apply Nat.ltb_ge in Hlen.
    assert ((2 <=? length papers) = true) as -> by (by apply Nat.leb_le).
    done.
Qed.

(** A successful run, step by step. *)
Lemma analyze_authors_run (df : DataFrame) (r : Authors.result_dict) :
  Authors.analyze_authors df = Ok r ->
  (empty df || negb (has_column df "authors") = true /\ r = Authors.empty_result)
  \/ exists extracted m,
       Authors.extract_authors ([], []) df = Ok extracted
       /\ Authors.author_metrics (has_column df "citations") extracted.2
          = Ok (Authors.author_impact r)
       /\ Authors.labels (Authors.author_collaborations r)
          = Authors.author
              <$> List.filter (fun a => 2 <=? Authors.paper_count a)
                    (Authors.author_impact r)
       /\ Authors.collaborate
            (Authors.labels (Authors.author_collaborations r))
            (Authors.author_indices (Authors.labels (Authors.author_collaborations r)))
            df (zeros (length (Authors.labels (Authors.author_collaborations r))))
          = Ok m
       /\ Authors.counts (Authors.author_collaborations r) = m.
Proof.
  unfold Authors.analyze_authors.
  destruct (empty df || negb (has_column df "authors"));
    [intros [= <-]; by left|].
  destruct (Authors.extract_authors ([], []) df) as [extracted|] eqn:Hextract;
    [|discriminate].
  cbn [mbind result_bind].
  destruct (Authors.author_metrics _ _) as [[|stats metrics]|] eqn:Hmetrics;
    [discriminate| |discriminate].
  cbn [mbind result_bind].
  match goal with
  | |- context [Authors.collaborate ?s ?i df ?z] =>
      destruct (Authors.collaborate s i df z) as [m|] eqn:Hm; [|discriminate]
  end.
  cbn [mbind result_bind mret result_ret]. intros [= <-]. right.
  exists extracted, m. cbn. repeat split; first [assumption|reflexivity].
Qed.

Lemma filter_significant_all (entries : list (string * list Series)) :
  Forall (fun kv => significant kv = true) (List.filter significant entries).
Proof.
  apply Forall_forall. intros kv Hkv.
  by apply list_elem_of_In, filter_In in Hkv as [_ Hkv].
Qed.

Lemma filter_significant_stats (metrics : list Authors.AuthorStats)
    (entries : list (string * list Series)) :
  Forall2 stats_of metrics (List.filter significant entries) ->
  List.filter (fun a => 2 <=? Authors.paper_count a) metrics = metrics
  /\ Authors.author <$> metrics = (List.filter significant entries).*1.
Proof.
  pose proof (filter_significant_all entries) as Hl. revert Hl.
  generalize (List.filter significant entries). intros l Hl HF.
  induction HF as [|st kv metrics l Hst _ IH]; [done|].
  apply Forall_cons in Hl as [Hkv Hl]. destruct Hst as (Hname & Hcount & _).
  destruct (IH Hl) as [Hfilter Hnames]. cbn [List.filter].
  unfold significant in Hkv. rewrite Hcount, Hkv, Hfilter.
  split; [done|]. rewrite !fmap_cons. by f_equal.
Qed.

Lemma no_column_cells (df : DataFrame) (c : string) (row : Series) :
  has_column df c = false -> row ∈ df -> at_col c row = NaN.
Proof.
  intros Hno Hrow. unfold at_col.
  destruct (row !! c) as [x|] eqn:Hx; [|done].
  exfalso. apply not_true_iff_false in Hno. apply Hno.
  unfold has_column. apply existsb_exists. exists row.
  split; [by apply list_elem_of_In|]. apply bool_decide_eq_true. by eexists.
Qed.

Lemma credited_names_no_column (df : DataFrame) :
  has_column df "authors" = false -> credited_names df = Ok [].
Proof.
  intros Hno. unfold credited_names.
  assert (mapM (fun row => split_names (at_col "authors" row)) df
          = Ok (replicate (length df) [])) as ->.
  { assert (forall row, row ∈ df -> at_col "authors" row = NaN) as Hcells
      by (intros row; by apply no_column_cells).
    clear Hno. induction df as [|row df IH]; [done|].
    change (mapM (fun r => split_names (at_col "authors" r)) (row :: df))
      with (y ← split_names (at_col "authors" row);
            k ← mapM (fun r => split_names (at_col "authors" r)) df;
            mret (y :: k)).
    rewrite (Hcells row) by left. rewrite IH; [done|].
    intros r Hr. apply Hcells. by right. }
  cbn [mbind result_bind mret result_ret]. f_equal.
  induction (length df) as [|n IH]; [done|]. simpl. exact IH.
Qed.

Lemma NoDup_filter_keys {A} (f : string * A -> bool) (d : list (string * A)) :
  NoDup d.*1 -> NoDup (List.filter f d).*1.
Proof.
  induction d as [|kv d IH]; intros Hd; [constructor|].
  rewrite fmap_cons in Hd. apply NoDup_cons in Hd as [Hk Hd]. cbn [List.filter].
  destruct (f kv); [|by apply IH]. rewrite fmap_cons. apply NoDup_cons.
  split; [|by apply IH]. intros Hin. apply Hk.
  apply list_elem_of_fmap in Hin as (kv' & -> & Hin).
  apply list_elem_of_fmap. exists kv'. split; [done|].
  by apply list_elem_of_In, filter_In in Hin as [Hin%list_elem_of_In _].
Qed.

Lemma papers_of_nil : papers_of [] [].
Proof. split; [constructor|]. split; [constructor|]. done. Qed.

(** The labels of the matrix are the authors of the table, each once. *)
Lemma analyze_authors_labels (df : DataFrame) (r : Authors.result_dict) :
  Authors.analyze_authors df = Ok r ->
  Authors.labels (Authors.author_collaborations r)
  = Authors.author <$> Authors.author_impact r
  /\ NoDup (Authors.labels (Authors.author_collaborations r)).
Proof.
  intros Hr.
  destruct (analyze_authors_run df r Hr)
    as [[Hguard ->]|(extracted & m & Hextract & Hmetrics & Hlabels & _)];
    [split; [done|constructor]|].
  destruct (extract_authors_spec df ([], []) extracted Hextract papers_of_nil)
    as (names & Hnames & Hall & Hnodup & Hsome & Hcount).
  apply author_metrics_spec in Hmetrics.
  destruct (filter_significant_stats _ _ Hmetrics) as [Hfilter Hauthors].
  rewrite Hlabels, Hfilter. split; [done|].
  rewrite Hauthors. by apply NoDup_filter_keys.
Qed.

(** X8: what [author_impact] holds when [analyze_authors] returns: one row
    for each name that the records credit at least twice, counting every
    occurrence of the name (two in one record count twice), with that
    number of occurrences as [paper_count] and an h-index no larger; the
    collaboration matrix is labelled by the same names in the same
    order. *)
Theorem author_impact_table (df : DataFrame) (r : Authors.result_dict) :
  Authors.analyze_authors df = Ok r ->
  exists names,
    credited_names df = Ok names
    /\ NoDup (Authors.author <$> Authors.author_impact r)
    /\ Authors.labels (Authors.author_collaborations r)
       = Authors.author <$> Authors.author_impact r
    /\ (forall st, st ∈ Authors.author_impact r ->
          Authors.paper_count st = occurrences (Authors.author st) names
          /\ 2 <= Authors.paper_count st
          /\ Authors.h_index st <= Authors.paper_count st)
    /\ (forall a, 2 <= occurrences a names ->
          a ∈ Authors.author <$> Authors.author_impact r).
Proof.
  intros Hr.
  destruct (analyze_authors_run df r Hr)
    as [[Hguard ->]|(extracted & m & Hextract & Hmetrics & Hlabels & _)].
  { exists []. split.
    - apply credited_names_no_column.
      destruct (empty df) eqn:Hempty; [by apply empty_has_no_column|].
      simpl in Hguard. by apply negb_true_iff in Hguard.
    - cbn. split; [constructor|]. split; [reflexivity|]. split.
      + intros st Hst. by apply elem_of_nil in Hst.
      + intros a Ha. unfold occurrences in Ha. simpl in Ha. lia. }
  destruct (extract_authors_spec df ([], []) extracted Hextract)
    as (names & Hnames & Hall & Hnodup & Hsome & Hcount).
  { split; [constructor|]. split; [constructor|]. done. }
  cbn [fst app] in Hall.
  apply author_metrics_spec in Hmetrics.
  destruct (filter_significant_stats _ _ Hmetrics) as [Hfilter Hauthors].
  exists extracted.1. split; [|split; [|split; [|split]]].
  - unfold credited_names. rewrite Hnames. cbn. by rewrite Hall.
  - rewrite Hauthors. by apply NoDup_filter_keys.
  - by rewrite Hlabels, Hfilter.
  - intros st Hst.
    apply list_elem_of_lookup in Hst as [i Hi].
    destruct (Forall2_lookup_l _ _ _ _ _ Hmetrics Hi) as (kv & Hkv & Hname & Hpc & Hh).
    apply list_elem_of_lookup_2, list_elem_of_In, filter_In in Hkv as [Hkv Hsig].
    apply list_elem_of_In in Hkv. destruct kv as [a papers]. cbn [fst snd] in *.
    unfold significant in Hsig. cbn [snd] in Hsig. apply Nat.leb_le in Hsig.
    split; [|split].
    + rewrite Hpc, Hname, <- Hcount. symmetry. by apply dict_count_unique.
    + by rewrite Hpc.
    + by rewrite Hpc.
  - intros a Ha. rewrite <- Hcount in Ha. rewrite Hauthors.
    destruct (decide (a ∈ extracted.2.*1)) as [Hin|Hout];
      [|rewrite dict_count_absent in Ha by done; lia].
    apply list_elem_of_fmap in Hin as ([a' papers] & -> & Hin). cbn [fst] in *.
    rewrite (dict_count_unique _ papers _ Hnodup Hin) in Ha.
    apply list_elem_of_fmap. exists (a', papers). split; [done|].
    apply list_elem_of_In, filter_In. split; [by apply list_elem_of_In|].
    unfold significant. by apply Nat.leb_le.
Qed.

(** The batch of the witness credits one author four times: the names
    that end in a no-break space are stripped as the others are. *)
Lemma author_impact_table_witness :
  let df := [ {[ "authors" := Str ("A. Smith, A. Smith" ++ no_break_space);
                 "citations" := Num 3 ]};
              {[ "authors" := Str "A. Smith"; "citations" := Num 4 ]};
              {[ "authors" := Str ("A. Smith" ++ no_break_space);
                 "citations" := Num 1 ]} ] in
  exists r names,
    Authors.analyze_authors df = Ok r
    /\ credited_names df = Ok names
    /\ Authors.author <$> Authors.author_impact r = ["A. Smith"]
    /\ Authors.paper_count <$> Authors.author_impact r = [4]
    /\ Authors.counts (Authors.author_collaborations r) = [[2]].
Proof.
  intros df.
  assert (exists r, Authors.analyze_authors df = Ok r
                    /\ Authors.author <$> Authors.author_impact r = ["A. Smith"]
                    /\ Authors.paper_count <$> Authors.author_impact r = [4]
                    /\ Authors.counts (Authors.author_collaborations r) = [[2]])
    as (r & Hr & Hauthors & Hcounts & Hmatrix).
  { eexists. split; [vm_compute; reflexivity|]. repeat split; reflexivity. }
  destruct (author_impact_table df r Hr) as (names & Hnames & _).
  exists r, names. split; [exact Hr|]. split; [exact Hnames|].
  split; [exact Hauthors|]. split; [exact Hcounts|exact Hmatrix].
Defined.

(** [strip] removes the white space of Unicode on both sides, whatever
    the number of bytes of a character, and nothing else. *)
Example strip_unicode_spaces :
  let em_space := String (ascii_of_nat 226) (String (ascii_of_nat 128)
                    (String (ascii_of_nat 131) EmptyString)) in
  let e_acute := String (ascii_of_nat 195) (String (ascii_of_nat 169) EmptyString) in
  strip (no_break_space ++ " A. Smith " ++ em_space)%string = "A. Smith"
  /\ strip (em_space ++ "Ren" ++ e_acute ++ no_break_space)%string
     = ("Ren" ++ e_acute)%string
  /\ strip ("A." ++ no_break_space ++ "Smith")%string
     = ("A." ++ no_break_space ++ "Smith")%string.
Proof. repeat split; vm_compute; reflexivity. Qed.

(** ** What makes [analyze_authors] raise *)

Lemma not_text_raises (x : cell) :
  not_text x -> split_names x = Raise AttributeError.
Proof. by destruct x. Qed.

Lemma text_splits (x : cell) : ~ not_text x -> exists names, split_names x = Ok names.
Proof.
  destruct x as [|q|s|d]; simpl; intros Htext; try (exfalso; by apply Htext).
  - by eexists.
  - destruct (String.eqb s ""); by eexists.
Qed.

Lemma present_cell (df : DataFrame) (c : string) (row : Series) :
  row ∈ df -> at_col c row <> NaN ->
  empty df = false /\ has_column df c = true.
Proof.
  intros Hrow Hcell. unfold at_col in Hcell.
  destruct (row !! c) as [x|] eqn:Hx; [|done]. split.
  - apply not_true_iff_false. intros Hempty.
    rewrite (empty_rows df Hempty row Hrow), lookup_empty in Hx. done.
  - unfold has_column. apply existsb_exists. exists row.
    split; [by apply list_elem_of_In|]. apply bool_decide_eq_true. by eexists.
Qed.

(** X9: a record whose [authors] cell is present and is not text (a number,
    a timestamp) makes [analyze_authors] raise [AttributeError], whatever
    the other records hold. *)
Theorem analyze_authors_needs_text (df : DataFrame) (row : Series) :
  row ∈ df -> not_text (at_col "authors" row) ->
  Authors.analyze_authors df = Raise AttributeError.
Proof.
  intros Hrow Hcell.
  destruct (present_cell df "authors" row Hrow) as [Hempty Hcolumn].
  { intros Hnan. by rewrite Hnan in Hcell. }
  unfold Authors.analyze_authors. rewrite Hempty, Hcolumn. cbn [negb orb].
  by rewrite (extract_authors_raises df _ row AttributeError Hrow
                (not_text_raises _ Hcell)).
Qed.

Lemma analyze_authors_needs_text_witness :
  Authors.analyze_authors
    [ {[ "authors" := Str "Ada Lovelace"; "citations" := Num 3 ]};
      {[ "authors" := Num 7; "citations" := Num 4 ]} ]
  = Raise AttributeError.
Proof.
  apply (analyze_authors_needs_text _ {[ "authors" := Num 7; "citations" := Num 4 ]}).
  - right. left.
  - vm_compute. exact I.
Defined.

Lemma extract_authors_returns (rows : list Series)
    (acc : list string * list (string * list Series)) :
  Forall (fun row => ~ not_text (at_col "authors" row)) rows ->
  exists acc', Authors.extract_authors acc rows = Ok acc'.
Proof.
  intros Hrows. revert acc.
  induction Hrows as [|row rows Hrow _ IH]; intros acc; [by eexists|].
  cbn [Authors.extract_authors]. unfold Authors.extract_step.
  destruct (text_splits _ Hrow) as [names ->].
  cbn [mbind result_bind mret result_ret]. apply IH.
Qed.

(** Whether some author has two papers, in terms of the names credited. *)
Lemma significant_author_exists (names : list string)
    (author_papers : list (string * list Series)) :
  papers_of names author_papers ->
  existsb significant author_papers = true <-> exists a, 2 <= occurrences a names.
Proof.
  intros (Hnodup & _ & Hcount). rewrite existsb_exists. split.
  - intros ([a papers] & Hin & Hsig). apply list_elem_of_In in Hin.
    unfold significant in Hsig. cbn [snd] in Hsig. apply Nat.leb_le in Hsig.
    exists a. by rewrite <- Hcount, (dict_count_unique a papers).
  - intros [a Ha]. rewrite <- Hcount in Ha.
    destruct (decide (a ∈ author_papers.*1)) as [Hin|Hout];
      [|rewrite dict_count_absent in Ha by done; lia].
    apply list_elem_of_fmap in Hin as ([a' papers] & -> & Hin). cbn [fst] in Ha.
    rewrite (dict_count_unique _ papers _ Hnodup Hin) in Ha.
    exists (a', papers). split; [by apply list_elem_of_In|].
    unfold significant. by apply Nat.leb_le.
Qed.

(** X10: [analyze_authors] never returns on a non-empty batch that has an
    [authors] column of text but no [citations] column: it raises
    [KeyError], for [citations] when the records credit some name at least
    twice, for [paper_count] when they credit no name twice. *)
Theorem analyze_authors_needs_citations (df : DataFrame) :
  empty df = false ->
  has_column df "authors" = true ->
  has_column df "citations" = false ->
  Forall (fun row => ~ not_text (at_col "authors" row)) df ->
  exists names,
    credited_names df = Ok names
    /\ ((exists a, 2 <= occurrences a names) ->
        Authors.analyze_authors df = Raise (KeyError "citations"))
    /\ ((forall a, occurrences a names < 2) ->
        Authors.analyze_authors df = Raise (KeyError "paper_count")).
Proof.
  intros Hempty Hauthors Hcitations Htext.
  destruct (extract_authors_returns df ([], []) Htext) as [extracted Hextract].
  destruct (extract_authors_spec df ([], []) extracted Hextract papers_of_nil)
    as (names & Hnames & Hall & Hpapers).
  cbn [fst app] in Hall.
  exists extracted.1. split.
  { unfold credited_names. rewrite Hnames. cbn. by rewrite Hall. }
  pose proof (significant_author_exists _ _ Hpapers) as Hsignificant.
  unfold Authors.analyze_authors. rewrite Hempty, Hauthors, Hcitations, Hextract.
  cbn [negb orb mbind result_bind]. rewrite author_metrics_without_citations.
  split.
  - intros Htwice. apply (proj2 Hsignificant) in Htwice. by rewrite Htwice.
  - intros Honce. destruct (existsb significant extracted.2) eqn:Hsome; [|done].
    destruct (proj1 Hsignificant eq_refl) as [a Ha]. specialize (Honce a). lia.
Qed.

Lemma analyze_authors_needs_citations_witness :
  Authors.analyze_authors
    [ {[ "authors" := Str "Ada Lovelace, Alan Turing" ]};
      {[ "authors" := Str "Alan Turing" ]} ]
  = Raise (KeyError "citations")
  /\ Authors.analyze_authors [ {[ "authors" := Str "Ada Lovelace, Alan Turing" ]} ]
     = Raise (KeyError "paper_count").
Proof.
  split.
  - destruct (analyze_authors_needs_citations
                [ {[ "authors" := Str "Ada Lovelace, Alan Turing" ]};
                  {[ "authors" := Str "Alan Turing" ]} ])
      as (names & Hnames & Htwice & _).
    + vm_compute. reflexivity.
    + vm_compute. reflexivity.
    + vm_compute. reflexivity.
    + repeat constructor; vm_compute; intros [].
    + apply Htwice. vm_compute in Hnames. injection Hnames as <-.
      exists "Alan Turing". vm_compute. lia.
  - destruct (analyze_authors_needs_citations
                [ {[ "authors" := Str "Ada Lovelace, Alan Turing" ]} ])
      as (names & Hnames & _ & Honce).
    + vm_compute. reflexivity.
    + vm_compute. reflexivity.
    + vm_compute. reflexivity.
    + repeat constructor; vm_compute; intros [].
    + apply Honce. vm_compute in Hnames. injection Hnames as <-.
      intros a. unfold occurrences. cbn [List.filter].
      destruct (String.eqb_spec a "Ada Lovelace") as [->|_]; [vm_compute; lia|].
      destruct (String.eqb a "Alan Turing"); simpl; lia.
Defined.

(** ** The entries of the collaboration matrix *)

Lemma member_elem_of (x : string) (l : list string) :
  Authors.member x l = true <-> x ∈ l.
Proof.
  unfold Authors.member. rewrite existsb_exists. split.
  - intros (y & Hy & Heq). apply String.eqb_eq in Heq as ->.
    by apply list_elem_of_In.
  - intros Hx. exists x. split; [by apply list_elem_of_In|apply String.eqb_refl].
Qed.

Lemma elem_of_filter_member (x : string) (l names : list string) :
  x ∈ List.filter (fun a => Authors.member a l) names <-> x ∈ names /\ x ∈ l.
Proof. by rewrite list_elem_of_In, filter_In, <- list_elem_of_In, member_elem_of. Qed.

(** Every name of the list has an index. *)
Lemma author_indices_defined (significant_authors : list string) (a : string) :
  a ∈ significant_authors ->
  is_Some (Authors.author_indices significant_authors !! a).
Proof.
  unfold Authors.author_indices.
  enough (forall (l : list string) (s : nat) (acc : gmap string nat),
            a ∈ l \/ is_Some (acc !! a) ->
            is_Some (foldl (fun m ia => <[ia.2 := ia.1]> m) acc
                           (zip (seq s (length l)) l) !! a)) as Hgen.
  { intros Ha. apply Hgen. by left. }
  induction l as [|x l IH]; intros s acc Ha.
  - destruct Ha as [Ha|Ha]; [by apply elem_of_nil in Ha|done].
  - cbn [length seq zip zip_with foldl]. apply IH. cbn [fst snd].
    destruct (decide (x = a)) as [->|Hne].
    + right. rewrite lookup_insert_eq. by eexists.
    + destruct Ha as [Ha|Ha].
      * left. by apply elem_of_cons in Ha as [->|Ha].
      * right. by rewrite lookup_insert_ne.
Qed.

Lemma occurrences_cons (a x : string) (l : list string) :
  occurrences a (x :: l) = (if String.eqb a x then 1 else 0) + occurrences a l.
Proof. unfold occurrences. cbn [List.filter]. by destruct (String.eqb a x). Qed.

Lemma occurrences_filter (f : string -> bool) (a : string) (l : list string) :
  f a = true -> occurrences a (List.filter f l) = occurrences a l.
Proof.
  intros Ha. induction l as [|x l IH]; [done|]. cbn [List.filter].
  destruct (f x) eqn:Hx.
  - by rewrite !occurrences_cons, IH.
  - rewrite occurrences_cons, IH. destruct (String.eqb_spec a x) as [->|_]; [|done].
    congruence.
Qed.

Lemma ordered_pairs_filter (f : string -> bool) (a b : string) (l : list string) :
  f a = true -> f b = true ->
  ordered_pairs a b (List.filter f l) = ordered_pairs a b l.
Proof.
  intros Ha Hb. induction l as [|x l IH]; [done|]. cbn [List.filter ordered_pairs].
  destruct (f x) eqn:Hx.
  - cbn [ordered_pairs]. by rewrite IH, occurrences_filter.
  - rewrite IH. destruct (String.eqb_spec x a) as [->|_]; [congruence|done].
Qed.

Lemma occurrences_absent (a : string) (l : list string) :
  a ∉ l -> occurrences a l = 0.
Proof.
  induction l as [|x l IH]; intros Hout; [done|]. rewrite occurrences_cons.
  apply not_elem_of_cons in Hout as [Hne Hout]. rewrite IH by done.
  by destruct (String.eqb_spec a x).
Qed.

Lemma occurrences_NoDup (a : string) (l : list string) :
  NoDup l -> occurrences a l = if bool_decide (a ∈ l) then 1 else 0.
Proof.
  induction 1 as [|x l Hx _ IH]; [done|]. rewrite occurrences_cons, IH.
  destruct (String.eqb_spec a x) as [->|Hne].
  - rewrite (bool_decide_eq_false_2 (x ∈ l)) by done.
    rewrite bool_decide_eq_true_2; [done|left].
  - destruct (decide (a ∈ l)) as [Hin|Hout].
    + rewrite !bool_decide_eq_true_2; [done|by right|done].
    + rewrite !bool_decide_eq_false_2; [done| |done].
      intros Hin. by apply elem_of_cons in Hin as [|].
Qed.

Lemma ordered_pairs_absent (a b : string) (l : list string) :
  a ∉ l \/ b ∉ l -> ordered_pairs a b l = 0.
Proof.
  induction l as [|x l IH]; intros Hout; [done|]. cbn [ordered_pairs].
  rewrite IH by (destruct Hout as [Hout|Hout];
                 apply not_elem_of_cons in Hout as [_ Hout]; auto).
  destruct (String.eqb_spec x a) as [->|_]; [|done].
  destruct Hout as [Hout|Hout]; [exfalso; apply Hout; left|].
  apply not_elem_of_cons in Hout as [_ Hout]. by rewrite occurrences_absent.
Qed.

(** In a list without a repeated name two names are paired once, when the
    list holds both. *)
Lemma ordered_pairs_NoDup (a b : string) (l : list string) :
  a <> b -> NoDup l ->
  ordered_pairs a b l + ordered_pairs b a l
  = if bool_decide (a ∈ l /\ b ∈ l) then 1 else 0.
Proof.
  intros Hab. induction 1 as [|x l Hx Hl IH]; [done|]. cbn [ordered_pairs].
  destruct (String.eqb_spec x a) as [->|Hxa];
    [|destruct (String.eqb_spec x b) as [->|Hxb]].
  - destruct (String.eqb_spec a b) as [|_]; [done|].
    rewrite (ordered_pairs_absent a b l), (ordered_pairs_absent b a l) by auto.
    rewrite occurrences_NoDup by done.
    destruct (decide (b ∈ l)) as [Hin|Hout].
    + rewrite !bool_decide_eq_true_2; [done| |done].
      split; [left|by right].
    + rewrite !bool_decide_eq_false_2; [done| |done].
      intros [_ Hin]. by apply elem_of_cons in Hin as [|].
  - rewrite (ordered_pairs_absent a b l), (ordered_pairs_absent b a l) by auto.
    rewrite occurrences_NoDup by done.
    destruct (decide (a ∈ l)) as [Hin|Hout].
    + rewrite !bool_decide_eq_true_2; [done| |done].
      split; [by right|left].
    + rewrite !bool_decide_eq_false_2; [done| |done].
      intros [Hin _]. by apply elem_of_cons in Hin as [|].
  - cbn [Nat.add]. rewrite IH.
    assert ((a ∈ x :: l /\ b ∈ x :: l) <-> (a ∈ l /\ b ∈ l)) as Hiff
      by (rewrite !elem_of_cons; intuition congruence).
    by rewrite (bool_decide_ext _ _ Hiff).
Qed.

Section Entries.
Context (significant_authors : list string) (i j : nat) (a b : string).
Hypothesis labels_NoDup : NoDup significant_authors.
Hypothesis label_i : significant_authors !! i = Some a.
Hypothesis label_j : significant_authors !! j = Some b.

Local Abbreviation k := (length significant_authors).
Local Abbreviation indices := (Authors.author_indices significant_authors).

(** The index of a name is the position of the name. *)
Lemma index_is (x : string) (ix : nat) :
  indices !! x = Some ix -> (ix = i <-> x = a) /\ (ix = j <-> x = b) /\ ix < k.
Proof.
  intros Hix. apply author_indices_lookup in Hix.
  split; [|split]; [| |by apply lookup_lt_Some in Hix].
  - split; [intros ->; congruence|intros ->].
    by apply (NoDup_lookup significant_authors ix i a).
  - split; [intros ->; congruence|intros ->].
    by apply (NoDup_lookup significant_authors ix j b).
Qed.

(** The inner loop adds to the entry the later names that make a pair
    with the name at [idx1]. *)
Lemma pair_with_entry (idx1 : nat) (others : list string) (m : list (list nat)) :
  Square k m -> idx1 < k ->
  Forall (fun x => x ∈ significant_authors) others ->
  entry (Authors.pair_with indices idx1 others m) i j
  = entry m i j
    + (if decide (idx1 = i) then occurrences b others else 0)
    + (if decide (idx1 = j) then occurrences a others else 0).
Proof.
  intros Hsq Hidx1 Hall. revert m Hsq.
  induction Hall as [|x others Hlabel _ IH]; intros m Hsq.
  - cbn. repeat case_decide; lia.
  - destruct (author_indices_defined _ _ Hlabel) as [ix Hix].
    unfold Authors.pair_with. cbn [foldl]. rewrite Hix.
    change (foldl _ ?m0 others) with (Authors.pair_with indices idx1 others m0).
    rewrite IH by auto using square_increment.
    rewrite !(entry_increment k) by auto using square_increment.
    rewrite !occurrences_cons.
    destruct (index_is x ix Hix) as (Hxa & Hxb & Hlt).
    assert (ix = i <-> a = x) as Hxa' by (rewrite Hxa; split; congruence).
    assert (ix = j <-> b = x) as Hxb' by (rewrite Hxb; split; congruence).
    destruct (String.eqb_spec a x) as [Hax|Hax];
      destruct (String.eqb_spec b x) as [Hbx|Hbx];
      rewrite <- Hxa' in Hax; rewrite <- Hxb' in Hbx; clear Hxa Hxb Hxa' Hxb';
      repeat case_bool_decide; repeat case_decide; lia.
Qed.

(** The two loops over the authors of one record. *)
Lemma count_pairs_entry (authors : list string) (m : list (list nat)) :
  Square k m ->
  Forall (fun x => x ∈ significant_authors) authors ->
  Square k (Authors.count_pairs indices authors m)
  /\ entry (Authors.count_pairs indices authors m) i j
     = entry m i j + ordered_pairs a b authors + ordered_pairs b a authors.
Proof.
  intros Hsq Hall. revert m Hsq.
  induction Hall as [|x authors Hlabel Hall IH]; intros m Hsq.
  - cbn. split; [done|lia].
  - destruct (author_indices_defined _ _ Hlabel) as [ix Hix].
    cbn [Authors.count_pairs ordered_pairs]. rewrite Hix.
    destruct (index_is x ix Hix) as (Hxa & Hxb & Hlt).
    destruct (pair_with_preserved k indices (fun _ => True) (fun _ _ => True)
                (fun _ _ _ _ _ _ => I) ix authors m) as [Hsq' _]; [done..|].
    destruct (IH _ Hsq') as [Hsq'' ->]. split; [done|].
    rewrite pair_with_entry by done.
    destruct (String.eqb_spec x a) as [Hax|Hax];
      destruct (String.eqb_spec x b) as [Hbx|Hbx];
      rewrite <- Hxa in Hax; rewrite <- Hxb in Hbx; clear Hxa Hxb;
      repeat case_decide; lia.
Qed.

(** The loop over the records. *)
Lemma collaborate_entry (rows : list Series) (m m' : list (list nat)) :
  Square k m ->
  Authors.collaborate significant_authors indices rows m = Ok m' ->
  entry m' i j = entry m i j + pairings a b rows.
Proof.
  intros Hsq. revert m Hsq.
  induction rows as [|row rows IH]; intros m Hsq Hrun.
  - injection Hrun as <-. unfold pairings. simpl. lia.
  - cbn [Authors.collaborate] in Hrun.
    destruct (split_names (at_col "authors" row)) as [names|e] eqn:Hnames;
      [|discriminate].
    cbn [mbind result_bind] in Hrun.
    destruct (count_pairs_entry
                (List.filter (fun x => Authors.member x significant_authors) names)
                m Hsq) as [Hsq' Hentry].
    { apply Forall_forall. intros x Hx. by apply elem_of_filter_member in Hx as [_ Hx]. }
    apply IH in Hrun; [|done].
    assert (Authors.member a significant_authors = true) as Ha
      by (apply member_elem_of; by eapply list_elem_of_lookup_2).
    assert (Authors.member b significant_authors = true) as Hb
      by (apply member_elem_of; by eapply list_elem_of_lookup_2).
    rewrite Hrun, Hentry.
    rewrite !(ordered_pairs_filter
                (fun x => Authors.member x significant_authors)) by done.
    assert (names_of row = names) as Hrow
      by (unfold names_of; by rewrite Hnames).
    unfold pairings. rewrite fmap_cons. cbn [sum_list sum_list_with].
    rewrite Hrow. unfold id. lia.
Qed.
End Entries.

Lemma pairings_same (a : string) (df : DataFrame) :
  pairings a a df = 2 * repeated_pairs a df.
Proof.
  unfold pairings, repeated_pairs. induction df as [|row df IH]; [done|].
  rewrite !fmap_cons. cbn [sum_list sum_list_with]. rewrite IH. unfold id. lia.
Qed.

Lemma pairings_NoDup (a b : string) (l : list string) (df : DataFrame) :
  a <> b -> a ∈ l -> b ∈ l ->
  (forall row names,
      row ∈ df -> split_names (at_col "authors" row) = Ok names ->
      NoDup (List.filter (fun x => Authors.member x l) names)) ->
  pairings a b df = joint_records a b df.
Proof.
  intros Hab Ha Hb. apply member_elem_of in Ha, Hb.
  unfold pairings, joint_records.
  induction df as [|row df IH]; intros Hnodup; [done|].
  rewrite fmap_cons. cbn [sum_list sum_list_with List.filter].
  rewrite IH by (intros r ns Hr; apply Hnodup; by right).
  unfold id, names_of, lists_both.
  destruct (split_names (at_col "authors" row)) as [names|e] eqn:Hnames; [|done].
  rewrite <- (ordered_pairs_filter (fun x => Authors.member x l) a b names) by done.
  rewrite <- (ordered_pairs_filter (fun x => Authors.member x l) b a names) by done.
  rewrite ordered_pairs_NoDup; [|done|by apply (Hnodup row); [left|]].
  assert (forall x, Authors.member x l = true ->
            x ∈ List.filter (fun x => Authors.member x l) names <-> x ∈ names)
    as Hfilter.
  { intros x Hx. rewrite elem_of_filter_member. apply member_elem_of in Hx. tauto. }
  repeat case_bool_decide; simpl; try lia; exfalso;
    rewrite ?Hfilter in * by done; tauto.
Qed.

(** An entry of the matrix that [analyze_authors] returns counts the
    pairs that the records make of its two authors. *)
Lemma analyze_authors_entry (df : DataFrame) (r : Authors.result_dict)
    (i j : nat) (a b : string) :
  Authors.analyze_authors df = Ok r ->
  Authors.labels (Authors.author_collaborations r) !! i = Some a ->
  Authors.labels (Authors.author_collaborations r) !! j = Some b ->
  entry (Authors.counts (Authors.author_collaborations r)) i j = pairings a b df.
Proof.
  intros Hr Ha Hb.
  destruct (analyze_authors_labels df r Hr) as [_ Hlabels].
  destruct (analyze_authors_run df r Hr)
    as [[_ ->]|(extracted & m & _ & _ & _ & Hrun & Hm)]; [done|].
  rewrite Hm.
  rewrite (collaborate_entry _ i j a b Hlabels Ha Hb df _ m
             (square_zeros _) Hrun).
  by rewrite entry_zeros.
Qed.

(** ** The collaboration matrix, entry by entry *)

(** C3, amended: the collaboration matrix that [analyze_authors] returns
    is square over the significant authors and symmetric.  The entry of
    an author on the diagonal is twice the number of pairs of positions
    that hold the author's name in the author list of one record, added
    up over the records: a name that a record repeats is paired with
    itself, and every such pair adds 2.  So the diagonal is zero when no
    record names the same significant author more than once. *)
Theorem collaboration_matrix_symmetric (df : DataFrame) (r : Authors.result_dict) :
  Authors.analyze_authors df = Ok r ->
  let significant_authors := Authors.labels (Authors.author_collaborations r) in
  let m := Authors.counts (Authors.author_collaborations r) in
  Square (length significant_authors) m
  /\ SymmetricMatrix m
  /\ (forall i a, significant_authors !! i = Some a ->
                  entry m i i = 2 * repeated_pairs a df)
  /\ ((forall row names,
         row ∈ df -> split_names (at_col "authors" row) = Ok names ->
         NoDup (List.filter (fun a => Authors.member a significant_authors) names)) ->
      ZeroDiagonal m).
Proof.
  intros Hr significant_authors m.
  assert (forall i a, significant_authors !! i = Some a ->
                      entry m i i = 2 * repeated_pairs a df) as Hdiagonal.
  { intros i a Ha. subst m.
    by rewrite (analyze_authors_entry df r i i a a Hr Ha Ha), pairings_same. }
  destruct (analyze_authors_matrix df r Hr) as [->|Hrun].
  { split; [by split|]. split; [done|]. split; [done|]. intros _ i. done. }
  fold significant_authors m in Hrun.
  pose proof (square_zeros (length significant_authors)) as Hsq.
  split; [|split; [|split]].
  - eapply (collaborate_preserved _ _ (fun _ => True) (fun _ _ => True));
      [done| |exact Hrun|exact Hsq|done].
    intros row names _ _. apply pairs_allowed_always.
  - eapply (collaborate_preserved _ _ SymmetricMatrix (fun _ _ => True));
      [|intros row names _ _; apply pairs_allowed_always|exact Hrun|exact Hsq|].
    + intros m0 idx1 idx2 _. apply symmetric_increment_pair.
    + intros i j. by rewrite !entry_zeros.
  - exact Hdiagonal.
  - intros Hnodup.
    eapply (collaborate_preserved _ _ ZeroDiagonal (fun i j => i <> j));
      [| |exact Hrun|exact Hsq|].
    + intros m0 idx1 idx2 Hne Hsq0. by apply (zero_diagonal_increment_pair _ _ _ _ Hsq0).
    + intros row names Hrow Hnames. apply pairs_allowed_distinct.
      by apply (Hnodup row).
    + intros i. apply entry_zeros.
Qed.

Lemma collaboration_matrix_symmetric_witness :
  let df := [ {[ "authors" := Str "Ada Lovelace, Alan Turing, Ada Lovelace";
                 "citations" := Num 3 ]};
              {[ "authors" := Str "Alan Turing, Ada Lovelace"; "citations" := Num 4 ]} ] in
  exists r,
    Authors.analyze_authors df = Ok r
    /\ Authors.labels (Authors.author_collaborations r)
       = ["Ada Lovelace"; "Alan Turing"]
    /\ Authors.counts (Authors.author_collaborations r) = [[2; 3]; [3; 0]]
    /\ SymmetricMatrix (Authors.counts (Authors.author_collaborations r))
    /\ entry (Authors.counts (Authors.author_collaborations r)) 0 0
       = 2 * repeated_pairs "Ada Lovelace" df.
Proof.
  intros df.
  assert (exists r, Authors.analyze_authors df = Ok r
                    /\ Authors.labels (Authors.author_collaborations r)
                       = ["Ada Lovelace"; "Alan Turing"]
                    /\ Authors.counts (Authors.author_collaborations r)
                       = [[2; 3]; [3; 0]])
    as (r & Hr & Hlabels & Hcounts).
  { eexists. split; [vm_compute; reflexivity|]. split; reflexivity. }
  exists r. split; [exact Hr|]. split; [exact Hlabels|]. split; [exact Hcounts|].
  destruct (collaboration_matrix_symmetric df r Hr) as (_ & Hsym & Hdiagonal & _).
  split; [exact Hsym|]. apply Hdiagonal. by rewrite Hlabels.
Defined.

(** X11: the entry of the collaboration matrix for two significant
    authors counts the pairs that the records make of the two
    names; off the diagonal, when no record names the same significant
    author twice, that is the number of records whose author list names
    both. *)
Theorem collaboration_counts_joint_records (df : DataFrame)
    (r : Authors.result_dict) (i j : nat) (a b : string) :
  Authors.analyze_authors df = Ok r ->
  Authors.labels (Authors.author_collaborations r) !! i = Some a ->
  Authors.labels (Authors.author_collaborations r) !! j = Some b ->
  entry (Authors.counts (Authors.author_collaborations r)) i j = pairings a b df
  /\ (i <> j ->
      (forall row names,
          row ∈ df -> split_names (at_col "authors" row) = Ok names ->
          NoDup (List.filter
                   (fun x => Authors.member x
                               (Authors.labels (Authors.author_collaborations r)))
                   names)) ->
      entry (Authors.counts (Authors.author_collaborations r)) i j
      = joint_records a b df).
Proof.
  intros Hr Ha Hb.
  pose proof (analyze_authors_entry df r i j a b Hr Ha Hb) as Hentry.
  split; [exact Hentry|]. intros Hij Hnodup. rewrite Hentry.
  destruct (analyze_authors_labels df r Hr) as [_ Hlabels].
  apply (pairings_NoDup a b (Authors.labels (Authors.author_collaborations r)));
    [|by eapply list_elem_of_lookup_2|by eapply list_elem_of_lookup_2|exact Hnodup].
  intros ->. apply Hij.
  by apply (NoDup_lookup (Authors.labels (Authors.author_collaborations r)) i j b).
Qed.

Lemma collaboration_counts_joint_records_witness :
  let df := [ {[ "authors" := Str "Ada Lovelace, Alan Turing"; "citations" := Num 3 ]};
              {[ "authors" := Str "Alan Turing, Ada Lovelace"; "citations" := Num 4 ]};
              {[ "authors" := Str "Ada Lovelace, Grace Hopper"; "citations" := Num 1 ]} ] in
  exists r,
    Authors.analyze_authors df = Ok r
    /\ entry (Authors.counts (Authors.author_collaborations r)) 0 1
       = joint_records "Ada Lovelace" "Alan Turing" df.
Proof.
  intros df.
  assert (exists r, Authors.analyze_authors df = Ok r
                    /\ Authors.labels (Authors.author_collaborations r)
                       = ["Ada Lovelace"; "Alan Turing"])
    as (r & Hr & Hlabels).
  { eexists. split; [vm_compute; reflexivity|reflexivity]. }
  exists r. split; [exact Hr|].
  destruct (collaboration_counts_joint_records df r 0 1
              "Ada Lovelace" "Alan Turing" Hr) as [_ Hjoint];
    [by rewrite Hlabels..|].
  apply Hjoint; [lia|]. rewrite Hlabels.
  assert (Forall (fun row => forall names,
                    split_names (at_col "authors" row) = Ok names ->
                    NoDup (List.filter
                             (fun x => Authors.member x
                                         ["Ada Lovelace"; "Alan Turing"])
                             names)) df) as Hall.
  { unfold df. repeat apply Forall_cons_2; [..|apply Forall_nil_2];
      intros names Hnames; vm_compute in Hnames; injection Hnames as <-;
      compute_done. }
  intros row names Hrow. revert names.
  exact (proj1 (Forall_forall _ _) Hall row Hrow).
Defined.

Local Open Scope Q_scope.

(** ** What the engine writes in the frame it is given *)

Lemma coerced_citations_column `{Pandas} (df : DataFrame) :
  has_column df "citations" = true ->
  Num <$> AppFunctions.coerced_citations df
  = (fun x => Num (default 0 (to_numeric x))) <$> column df "citations".
Proof.
  intros Hhas. unfold AppFunctions.coerced_citations. rewrite Hhas.
  by rewrite <- list_fmap_compose.
Qed.

Lemma coerced_citations_zeros `{Pandas} (df : DataFrame) :
  has_column df "citations" = false ->
  Num <$> AppFunctions.coerced_citations df = replicate (length df) (Num 0).
Proof.
  intros Hhas. unfold AppFunctions.coerced_citations. rewrite Hhas.
  apply fmap_replicate.
Qed.

Lemma calculate_impact_metrics_citations `{Pandas} (df : DataFrame) :
  empty df = false ->
  column (AppFunctions.calculate_impact_metrics df).2 "citations"
  = Num <$> AppFunctions.coerced_citations df.
Proof.
  intros Hempty. rewrite calculate_impact_metrics_frame, Hempty.
  apply column_set_column. by rewrite length_fmap, coerced_citations_length.
Qed.

Lemma dt_year_date_cell (dates : list (option date)) :
  dt_year <$> (date_cell <$> dates)
  = (fun d : option date => date_year <$> d) <$> dates.
Proof. rewrite <- list_fmap_compose. apply list_fmap_ext. by intros i [d|] _. Qed.

(** The columns of the frame after [analyze_publications_by_time], on a
    batch that passes its guard. *)
Lemma analyze_publications_by_time_writes `{Pandas} (current_year : Z)
    (df : DataFrame) :
  empty df = false -> has_column df "publication_date" = true ->
  let outcome := TimeAnalysis.analyze_publications_by_time current_year df in
  let dates := to_datetime (column df "publication_date") in
  let year := (fun d : option date => date_year <$> d) <$> dates in
  let age := TimeAnalysis.years_since current_year <$> year in
  column outcome.2 "publication_date" = date_cell <$> dates
  /\ column outcome.2 "year" = (fun y => opt_cell (inject_Z <$> y)) <$> year
  /\ (forall r, outcome.1 = Ok r ->
        exists citations,
          mapM numeric (column df "citations") = Ok citations
          /\ column outcome.2 "years_since_publication" = opt_cell <$> age
          /\ column outcome.2 "citation_velocity"
             = opt_cell <$> zip_with TimeAnalysis.velocity citations age)
  /\ (forall e, outcome.1 = Raise e ->
        column outcome.2 "citation_velocity" = column df "citation_velocity").
Proof.
  intros Hempty Hdate outcome dates year age. subst outcome.
  unfold TimeAnalysis.analyze_publications_by_time.
  rewrite Hempty, Hdate. cbn [negb orb]. fold dates.
  set (df1 := set_column "publication_date" (date_cell <$> dates) df).
  assert (length dates = length df) as Hdates
    by (unfold dates; by rewrite to_datetime_length, column_length).
  assert (column df1 "publication_date" = date_cell <$> dates) as Hcol1
    by (apply column_set_column; by rewrite length_fmap).
  rewrite Hcol1, dt_year_date_cell. fold year.
  set (df2 := set_column "year" ((fun y => opt_cell (inject_Z <$> y)) <$> year) df1).
  assert (length year = length df) as Hyear by (unfold year; by rewrite length_fmap).
  assert (length df1 = length df) as Hlen1 by apply set_column_length.
  assert (length df2 = length df) as Hlen2
    by (unfold df2; by rewrite set_column_length).
  assert (column df2 "publication_date" = date_cell <$> dates) as Hdate2
    by (unfold df2; by rewrite column_set_column_ne).
  assert (column df2 "year" = (fun y => opt_cell (inject_Z <$> y)) <$> year) as Hyear2.
  { apply column_set_column. rewrite length_fmap. congruence. }
  assert (column df2 "citation_velocity" = column df "citation_velocity") as Hv2
    by (unfold df2, df1; by rewrite !column_set_column_ne).
  assert (column df2 "citations" = column df "citations") as Hc2
    by (unfold df2, df1; by rewrite !column_set_column_ne).
  destruct (negb (has_column df2 "citations")).
  { cbn [fst snd]. split; [done|]. split; [done|]. split; [discriminate|done]. }
  destruct (mapM _ (groupby year (column df2 "citations"))) as [stats|e0].
  2: { cbn [fst snd]. split; [done|]. split; [done|]. split; [discriminate|done]. }
  fold age.
  set (df3 := set_column "years_since_publication" (opt_cell <$> age) df2).
  assert (length age = length df) as Hage by (unfold age; by rewrite length_fmap).
  assert (column df3 "citations" = column df "citations") as Hc3
    by (unfold df3; by rewrite column_set_column_ne).
  rewrite Hc3.
  destruct (mapM numeric (column df "citations")) as [citations|e0] eqn:Hcit.
  2: { cbn [fst snd]. split; [unfold df3; by rewrite column_set_column_ne|].
       split; [unfold df3; by rewrite column_set_column_ne|].
       split; [discriminate|]. intros _ _.
       unfold df3. by rewrite column_set_column_ne. }
  cbn [fst snd].
  set (v := zip_with TimeAnalysis.velocity citations age).
  assert (length v = length df) as Hv.
  { unfold v. rewrite length_zip_with. apply mapM_result_length in Hcit.
    rewrite Hcit, column_length. lia. }
  split; [unfold df3; by rewrite !column_set_column_ne|].
  split; [unfold df3; by rewrite !column_set_column_ne|].
  split; [|discriminate].
  intros r _. exists citations. split; [done|]. split.
  - rewrite column_set_column_ne by done. apply column_set_column.
    rewrite length_fmap, Hage. by symmetry.
  - apply column_set_column. rewrite length_fmap. unfold df3.
    rewrite set_column_length. fold v. congruence.
Qed.

Lemma analyze_publications_by_time_guard `{Pandas} (current_year : Z)
    (df : DataFrame) :
  empty df = true \/ has_column df "publication_date" = false ->
  (TimeAnalysis.analyze_publications_by_time current_year df).2 = df.
Proof.
  intros Hguard. unfold TimeAnalysis.analyze_publications_by_time.
  by destruct Hguard as [-> | ->]; [|rewrite orb_true_r].
Qed.

(** C5, amended: both functions keep the rows of the batch and write
    columns of their own in it, and every other column holds what it held.

    [calculate_impact_metrics] leaves an empty batch as it is; in any
    other it replaces [citations] by its numeric coercion with 0 for a
    missing value, or creates it as zeros, and a second call changes
    nothing more.

    [analyze_publications_by_time] leaves a batch as it is when the batch
    is empty or has no [publication_date]; in any other it replaces
    [publication_date] by the parsed dates and writes [year], also when it
    raises afterwards; when it returns it has also written
    [years_since_publication] and [citation_velocity], the citations
    divided by the age of at least 1; when it raises, [citation_velocity]
    holds what it held. *)
Theorem engine_writes_own_columns `{Pandas} (current_year : Z) (df : DataFrame) :
  let df1 := (AppFunctions.calculate_impact_metrics df).2 in
  let outcome := TimeAnalysis.analyze_publications_by_time current_year df in
  let df2 := outcome.2 in
  let dates := to_datetime (column df "publication_date") in
  let year := (fun d : option date => date_year <$> d) <$> dates in
  let age := TimeAnalysis.years_since current_year <$> year in
  (length df1 = length df
   /\ without ["citations"] df1 = without ["citations"] df
   /\ (AppFunctions.calculate_impact_metrics df1).2 = df1
   /\ (empty df = false -> has_column df "citations" = true ->
       column df1 "citations"
       = (fun x => Num (default 0 (to_numeric x))) <$> column df "citations")
   /\ (empty df = false -> has_column df "citations" = false ->
       column df1 "citations" = replicate (length df) (Num 0)))
  /\ (length df2 = length df
      /\ without time_columns df2 = without time_columns df
      /\ (has_column df "publication_date" = false -> df2 = df)
      /\ (empty df = false -> has_column df "publication_date" = true ->
          column df2 "publication_date" = date_cell <$> dates
          /\ column df2 "year" = (fun y => opt_cell (inject_Z <$> y)) <$> year
          /\ (forall r, outcome.1 = Ok r ->
                exists citations,
                  mapM numeric (column df "citations") = Ok citations
                  /\ column df2 "years_since_publication" = opt_cell <$> age
                  /\ column df2 "citation_velocity"
                     = opt_cell <$> zip_with TimeAnalysis.velocity citations age)
          /\ (forall e, outcome.1 = Raise e ->
                column df2 "citation_velocity" = column df "citation_velocity")))
  /\ (empty df = true -> df1 = df /\ df2 = df).
Proof.
  intros df1 outcome df2 dates year age. split; [|split].
  - subst df1. split; [|split; [|split; [|split]]].
    + rewrite calculate_impact_metrics_frame.
      destruct (empty df); [done|apply set_column_length].
    + rewrite calculate_impact_metrics_frame.
      destruct (empty df); [done|]. apply without_set_column. left.
    + apply calculate_impact_metrics_again.
    + intros Hempty Hhas.
      by rewrite calculate_impact_metrics_citations, coerced_citations_column.
    + intros Hempty Hhas.
      by rewrite calculate_impact_metrics_citations, coerced_citations_zeros.
  - split; [|split; [|split]].
    + apply analyze_publications_by_time_frame.
    + apply analyze_publications_by_time_frame.
    + intros Hdate. apply analyze_publications_by_time_guard. by right.
    + intros Hempty Hdate.
      apply (analyze_publications_by_time_writes current_year df Hempty Hdate).
  - intros Hempty. split.
    + subst df1. by rewrite calculate_impact_metrics_frame, Hempty.
    + apply analyze_publications_by_time_guard. by left.
Qed.

Lemma engine_writes_own_columns_witness :
  let df := [ {[ "title" := Str "A survey"; "publication_date" := Str "2020-01-05";
                 "citations" := Str "12" ]};
              {[ "title" := Str "Notes"; "publication_date" := Str "unknown" ]} ] in
  column (AppFunctions.calculate_impact_metrics df).2 "citations" = [Num 12; Num 0]
  /\ column (TimeAnalysis.analyze_publications_by_time 2024 df).2 "year"
     = [Num 2020; NaN]
  /\ column (TimeAnalysis.analyze_publications_by_time 2024 df).2 "title"
     = [Str "A survey"; Str "Notes"].
Proof.
  intros df.
  destruct (engine_writes_own_columns 2024 df)
    as ((_ & _ & _ & Hcitations & _) & (_ & Hothers & _ & Htime) & _).
  split; [|split].
  - rewrite Hcitations by (vm_compute; reflexivity). vm_compute. reflexivity.
  - destruct Htime as (_ & -> & _); [vm_compute; reflexivity..|].
    vm_compute. reflexivity.
  - apply (f_equal (fun frame => column frame "title")) in Hothers.
    etransitivity; [|etransitivity; [exact Hothers|]]; vm_compute; reflexivity.
Defined.

Local Open Scope nat_scope.

(** * Further properties of [find_similar_papers] *)

(** ** [argsort] *)

Lemma insert_sorted_perm (x : Q * nat) (l : list (Q * nat)) :
  insert_sorted x l ≡ₚ x :: l.
Proof.
  induction l as [|y l IH]; [done|]. cbn [insert_sorted].
  destruct (Qle_bool x.1 y.1); [done|].
  rewrite IH. apply Permutation_swap.
Qed.

Lemma sorted_pairs_perm (l : list (Q * nat)) : foldr insert_sorted [] l ≡ₚ l.
Proof.
  induction l as [|x l IH]; [done|]. cbn [foldr].
  by rewrite insert_sorted_perm, IH.
Qed.

Lemma insert_sorted_sorted (x : Q * nat) (l : list (Q * nat)) :
  StronglySorted by_value l -> StronglySorted by_value (insert_sorted x l).
Proof.
  induction 1 as [|y l Hsorted IH Hy]; cbn [insert_sorted]; [by repeat constructor|].
  destruct (Qle_bool x.1 y.1) eqn:Hle.
  - apply Qle_bool_iff in Hle. constructor; [by constructor|].
    constructor; [done|]. eapply Forall_impl; [exact Hy|].
    intros z Hz. unfold by_value in *. by etransitivity.
  - apply Qle_bool_false in Hle. constructor; [done|].
    rewrite insert_sorted_perm. constructor; [|done].
    unfold by_value. by apply Qlt_le_weak.
Qed.

Lemma sorted_pairs_sorted (l : list (Q * nat)) :
  StronglySorted by_value (foldr insert_sorted [] l).
Proof.
  induction l as [|x l IH]; [constructor|]. cbn [foldr].
  by apply insert_sorted_sorted.
Qed.

Lemma snd_zip_seq (values : list Q) :
  (zip values (seq 0 (length values))).*2 = seq 0 (length values).
Proof. apply snd_zip. by rewrite length_seq. Qed.

(** [argsort] gives every position once. *)
Lemma argsort_perm (values : list Q) :
  argsort values ≡ₚ seq 0 (length values).
Proof.
  unfold argsort. rewrite sorted_pairs_perm. by rewrite snd_zip_seq.
Qed.

Lemma argsort_NoDup (values : list Q) : NoDup (argsort values).
Proof. rewrite argsort_perm. apply NoDup_seq. Qed.


Lemma elem_of_zip_seq (values : list Q) (v : Q) (j : nat) :
  (v, j) ∈ zip values (seq 0 (length values)) <-> values !! j = Some v.
Proof.
  rewrite list_elem_of_lookup. setoid_rewrite lookup_zip_with_Some. split.
  - intros (i & x & y & [= <- <-] & Hx & Hy).
    apply lookup_seq in Hy as [-> _]. done.
  - intros Hj. exists j, v, j. split; [done|]. split; [done|].
    apply lookup_seq. split; [done|]. by apply lookup_lt_Some in Hj.
Qed.

(** A value larger than every other one comes last. *)
Lemma argsort_last (values : list Q) (t : nat) :
  strict_maximum values t -> last (argsort values) = Some t.
Proof.
  intros (v & Ht & Hmax). unfold argsort.
  set (pairs := foldr insert_sorted [] (zip values (seq 0 (length values)))).
  assert ((v, t) ∈ pairs) as Hin.
  { unfold pairs. rewrite sorted_pairs_perm. by apply elem_of_zip_seq. }
  pose proof (sorted_pairs_sorted (zip values (seq 0 (length values)))) as Hsorted.
  fold pairs in Hsorted.
  destruct (last pairs) as [[w j]|] eqn:Hlast.
  2: { apply last_None in Hlast. rewrite Hlast in Hin. by apply elem_of_nil in Hin. }
  apply last_Some in Hlast as [front Hpairs].
  rewrite fmap_last, Hpairs, last_snoc. cbn. f_equal.
  assert ((w, j) ∈ pairs) as Hlast by (rewrite Hpairs; set_solver).
  unfold pairs in Hlast. rewrite sorted_pairs_perm in Hlast.
  apply elem_of_zip_seq in Hlast.
  destruct (decide (j = t)) as [|Hne]; [done|]. exfalso.
  specialize (Hmax j w Hne Hlast).
  rewrite Hpairs in Hsorted, Hin.
  apply elem_of_app in Hin as [Hin|Hin].
  - apply StronglySorted_app in Hsorted as (Hrel & _ & _).
    specialize (Hrel (v, t) (w, j) Hin). unfold by_value in Hrel. simpl in Hrel.
    assert (v <= w)%Q by (apply Hrel; set_solver). lra.
  - apply list_elem_of_singleton in Hin. congruence.
Qed.

(** ** The positions that [find_similar_papers] selects *)

(** A run of [similar_indices] that reaches the ranking. *)
Lemma similar_indices_run `{Python} `{Sklearn} (df : DataFrame)
    (target_paper_index n : nat) (indices : list nat) :
  Similarity.similar_indices df target_paper_index n = Ok indices ->
  indices = []
  \/ (target_paper_index < length df
      /\ exists content_vectors,
           fit_transform (Similarity.document (Similarity.features df) <$> df)
           = Ok content_vectors
           /\ indices
              = take n (drop 1 (reverse (argsort
                  (similarity_row content_vectors target_paper_index))))).
Proof.
  unfold Similarity.similar_indices.
  destruct (empty df || (length df <=? 1)); [intros [= <-]; by left|].
  destruct (length df <=? target_paper_index) eqn:Hlen; [discriminate|].
  apply Nat.leb_gt in Hlen.
  destruct (Similarity.features df) as [|feature features] eqn:Hfeatures;
    [intros [= <-]; by left|].
  destruct (fit_transform _) as [content_vectors|] eqn:Hfit; [|discriminate].
  intros [= <-]. right. split; [done|]. by exists content_vectors.
Qed.






(** X12: the target is not selected when its own similarity is larger than
    that of every other record: the first position of the descending
    ranking, which the slice drops, is then the target. *)
Theorem similar_indices_exclude_target `{Python} `{Sklearn} (df : DataFrame)
    (target_paper_index n : nat) (content_vectors : list (list nat))
    (indices : list nat) :
  fit_transform (Similarity.document (Similarity.features df) <$> df)
  = Ok content_vectors ->
  strict_maximum (similarity_row content_vectors target_paper_index)
                 target_paper_index ->
  Similarity.similar_indices df target_paper_index n = Ok indices ->
  target_paper_index ∉ indices.
Proof.
  intros Hfit Hmax Hrun.
  destruct (similar_indices_run df target_paper_index n indices Hrun)
    as [->|(_ & vectors & Hfit' & ->)]; [apply not_elem_of_nil|].
  rewrite Hfit in Hfit'. injection Hfit' as <-.
  set (values := similarity_row content_vectors target_paper_index) in *.
  pose proof (argsort_NoDup values) as Hnodup.
  apply argsort_last, last_Some in Hmax as [front Hfront].
  rewrite Hfront in Hnodup |- *. rewrite reverse_snoc. cbn [drop]. rewrite drop_0.
  apply NoDup_app in Hnodup as (_ & Hdisjoint & _).
  intros Hin. eapply elem_of_sublist in Hin; [|apply sublist_take].
  rewrite elem_of_reverse in Hin. apply (Hdisjoint _ Hin). left.
Qed.


Lemma similar_indices_exclude_target_witness :
  let df := [ {[ "title" := Str "Graph theory" ]};
              {[ "title" := Str "Deep learning" ]};
              {[ "title" := Str "Graph learning" ]} ] in
  Similarity.similar_indices df 0 5 = Ok [2; 1]
  /\ 0 ∉ [2; 1].
Proof.
  intros df.
  assert (Similarity.similar_indices df 0 5 = Ok [2; 1]) as Hrun
    by (vm_compute; reflexivity).
  split; [exact Hrun|].
  apply (similar_indices_exclude_target df 0 5
           [[1; 0; 1; 0]; [0; 1; 0; 1]; [0; 0; 1; 1]]).
  - vm_compute. reflexivity.
  - exists (4 # 4)%Q. split; [vm_compute; reflexivity|].
    clear Hrun. subst df.
    intros [|[|[|j]]] w Hj Hw; [by destruct Hj| | |]; vm_compute in Hw;
      [injection Hw as <-; reflexivity..|discriminate].
  - exact Hrun.
Defined.



Local Open Scope Q_scope.

(** ** Citations per year *)

Lemma group_total_cons (g : Z * list cell) (groups : list (Z * list cell)) :
  group_total (g :: groups) = Qsum (cell_value <$> g.2) + group_total groups.
Proof. done. Qed.

Lemma Qsum_app (l l' : list Q) : Qsum (l ++ l') == Qsum l + Qsum l'.
Proof.
  induction l as [|x l IH]; simpl; [lra|].
  change (foldr Qplus 0 (l ++ l')) with (Qsum (l ++ l')).
  change (foldr Qplus 0 l) with (Qsum l). rewrite IH. lra.
Qed.

Lemma group_insert_total (k : Z) (v : cell) (groups : list (Z * list cell)) :
  group_total (group_insert k v groups) == group_total groups + cell_value v.
Proof.
  induction groups as [|[k' vs] groups IH]; cbn [group_insert].
  - rewrite group_total_cons. cbn. lra.
  - destruct (k <? k')%Z.
    + rewrite !group_total_cons. cbn. lra.
    + destruct (k =? k')%Z.
      * rewrite !group_total_cons. cbn [snd]. rewrite fmap_app, Qsum_app. cbn. lra.
      * rewrite !group_total_cons, IH. lra.
Qed.

(** The groups hold the citations of the records that have a key. *)
Lemma groupby_total (keys : list (option Z)) (values : list cell) :
  group_total (groupby keys values)
  == Qsum ((fun kv : option Z * cell => cell_value kv.2)
             <$> List.filter (fun kv : option Z * cell => bool_decide (is_Some kv.1))
                   (zip keys values)).
Proof.
  unfold groupby.
  enough (forall kvs acc,
            group_total (foldl (fun groups (kv : option Z * cell) =>
                                  match kv.1 with
                                  | Some k => group_insert k kv.2 groups
                                  | None => groups
                                  end) acc kvs)
            == group_total acc
               + Qsum ((fun kv : option Z * cell => cell_value kv.2)
                         <$> List.filter
                               (fun kv : option Z * cell => bool_decide (is_Some kv.1))
                               kvs)) as Hgen.
  { rewrite Hgen. change (group_total []) with 0. apply Qplus_0_l. }
  induction kvs as [|[[k|] v] kvs IH]; intros acc; cbn [foldl List.filter fst snd].
  - unfold Qsum. cbn. lra.
  - rewrite IH, group_insert_total. clear IH. unfold Qsum. cbn. lra.
  - rewrite IH. clear IH. unfold Qsum. cbn. lra.
Qed.

Lemma numeric_values (cells : list cell) (vs : list (option Q)) :
  mapM numeric cells = Ok vs -> Qsum (omap id vs) == Qsum (cell_value <$> cells).
Proof.
  revert vs. induction cells as [|x cells IH]; intros vs Hrun.
  - by injection Hrun as <-.
  - change (mapM numeric (x :: cells))
      with (y ← numeric x; k ← mapM numeric cells; mret (y :: k)) in Hrun.
    destruct x as [|q|s|d]; try discriminate;
      cbn [numeric mbind result_bind] in Hrun;
      destruct (mapM numeric cells) as [k|]; try discriminate;
      injection Hrun as <-; specialize (IH k eq_refl);
      unfold Qsum in *; cbn in *; lra.
Qed.

Lemma year_stats_total (groups : list (Z * list cell))
    (citations_by_year : list (Z * TimeAnalysis.YearStats)) :
  mapM (fun g : Z * list cell =>
          vs ← mapM numeric g.2; mret (g.1, TimeAnalysis.year_stats vs)) groups
  = Ok citations_by_year ->
  citations_by_year.*1 = groups.*1
  /\ Qsum ((fun ys => TimeAnalysis.citations_sum ys.2) <$> citations_by_year)
     == group_total groups.
Proof.
  revert citations_by_year.
  induction groups as [|g groups IH]; intros stats Hrun.
  - cbn in Hrun. injection Hrun as <-. by split.
  - match type of Hrun with
    | mapM ?f _ = _ =>
        change (mapM f (g :: groups))
          with (y ← f g; k ← mapM f groups; mret (y :: k)) in Hrun
    end.
    cbn beta in Hrun.
    destruct (mapM numeric g.2) as [vs|] eqn:Hvs;
      cbn [mbind result_bind mret result_ret] in Hrun; [|discriminate].
    destruct (mapM _ groups) as [k|];
      cbn [mbind result_bind mret result_ret] in Hrun; [|discriminate].
    injection Hrun as <-. destruct (IH k eq_refl) as [Hkeys Hsum].
    split; [rewrite !fmap_cons; by f_equal|].
    rewrite fmap_cons, group_total_cons. cbn [Qsum foldr snd].
    change (foldr Qplus 0 ?l) with (Qsum l). rewrite Hsum.
    cbn [TimeAnalysis.year_stats TimeAnalysis.citations_sum].
    by rewrite (numeric_values _ _ Hvs).
Qed.

Lemma dated_cells (dates : list (option date)) (cells : list cell) :
  (fun kv : option Z * cell => cell_value kv.2)
    <$> List.filter (fun kv : option Z * cell => bool_decide (is_Some kv.1))
          (zip (dt_year <$> (date_cell <$> dates)) cells)
  = (fun dc : option date * cell => cell_value dc.2)
      <$> List.filter (fun dc : option date * cell => bool_decide (is_Some dc.1))
            (zip dates cells).
Proof.
  revert cells. induction dates as [|[d|] dates IH]; intros [|x cells]; try done;
    cbn [fmap list_fmap zip zip_with List.filter fst snd bool_decide].
  - cbn. f_equal. apply IH.
  - cbn. apply IH.
Qed.

Lemma group_insert_fst {A B} (k : Z) (v : A) (v' : B)
    (groups : list (Z * list A)) (groups' : list (Z * list B)) :
  groups.*1 = groups'.*1 ->
  (group_insert k v groups).*1 = (group_insert k v' groups').*1.
Proof.
  revert groups'. induction groups as [|[k1 vs] groups IH];
    intros [|[k2 vs'] groups'] Hkeys; try done.
  rewrite !fmap_cons in Hkeys. injection Hkeys as <- Hkeys. cbn [group_insert].
  destruct (k <? k1)%Z; [by rewrite !fmap_cons, Hkeys|].
  destruct (k =? k1)%Z; rewrite !fmap_cons; cbn [fst]; f_equal; [done|].
  by apply IH.
Qed.

(** The keys of the groups do not depend on the column that is grouped. *)
Lemma groupby_fst {A B} (keys : list (option Z)) (values : list A)
    (values' : list B) :
  length values = length values' ->
  (groupby keys values).*1 = (groupby keys values').*1.
Proof.
  unfold groupby.
  enough (forall (acc : list (Z * list A)) (acc' : list (Z * list B)),
            length values = length values' -> acc.*1 = acc'.*1 ->
            (foldl (fun groups (kv : option Z * A) =>
                      match kv.1 with
                      | Some k => group_insert k kv.2 groups
                      | None => groups
                      end) acc (zip keys values)).*1
            = (foldl (fun groups (kv : option Z * B) =>
                        match kv.1 with
                        | Some k => group_insert k kv.2 groups
                        | None => groups
                        end) acc' (zip keys values')).*1) as Hgen.
  { intros Hlen. by apply Hgen. }
  revert values values'.
  induction keys as [|k keys IH]; intros [|v values] [|v' values'] acc acc' Hlen Hacc;
    try done.
  cbn [zip zip_with foldl fst snd]. apply IH; [by injection Hlen|].
  destruct k as [k|]; [by apply group_insert_fst|done].
Qed.

(** X14: the per-year sums of [citations_by_year] are for the years of
    [publications_by_year], and add up to the citations of the records
    whose [publication_date] is read as a date: a record without a date
    adds to no year. *)
Theorem citations_by_year_total `{Pandas} (current_year : Z) (df : DataFrame)
    (r : TimeAnalysis.result_dict) :
  empty df = false ->
  has_column df "publication_date" = true ->
  (TimeAnalysis.analyze_publications_by_time current_year df).1 = Ok r ->
  (TimeAnalysis.citations_by_year r).*1 = (TimeAnalysis.publications_by_year r).*1
  /\ Qsum ((fun ys => TimeAnalysis.citations_sum ys.2)
             <$> TimeAnalysis.citations_by_year r)
     == Qsum (dated_citations df).
Proof.
  intros Hempty Hdate. unfold TimeAnalysis.analyze_publications_by_time.
  rewrite Hempty, Hdate. cbn [negb orb].
  set (dates := to_datetime (column df "publication_date")).
  set (df1 := set_column "publication_date" (date_cell <$> dates) df).
  assert (column df1 "publication_date" = date_cell <$> dates) as Hcol.
  { apply column_set_column. unfold dates.
    by rewrite length_fmap, to_datetime_length, column_length. }
  rewrite Hcol.
  set (year := dt_year <$> (date_cell <$> dates)).
  set (df2 := set_column "year" _ df1).
  assert (column df2 "citations" = column df "citations") as Hcitations
    by (unfold df2, df1; by rewrite !column_set_column_ne).
  destruct (negb (has_column df2 "citations")); [discriminate|].
  rewrite Hcitations.
  destruct (mapM _ (groupby year (column df "citations"))) as [stats|] eqn:Hstats;
    [|discriminate].
  destruct (mapM numeric _) as [citations|]; [|discriminate].
  cbn [fst]. intros [= <-].
  cbn [TimeAnalysis.citations_by_year TimeAnalysis.publications_by_year].
  destruct (year_stats_total _ _ Hstats) as [Hkeys Hsum]. split.
  - rewrite Hkeys, <- list_fmap_compose.
    change ((groupby year (column df "citations")).*1
            = (groupby year (column df2 "year")).*1).
    apply groupby_fst. unfold df2, df1.
    by rewrite !column_length, !set_column_length.
  - rewrite Hsum, groupby_total. unfold year, dated_citations.
    by rewrite dated_cells.
Qed.

Lemma citations_by_year_total_witness :
  let df := [ {[ "publication_date" := Str "2020-01-05"; "citations" := Num 3 ]};
              {[ "publication_date" := Str "unknown"; "citations" := Num 4 ]};
              {[ "publication_date" := Str "2019-03-04"; "citations" := Num 1 ]};
              {[ "publication_date" := Str "2020-10-10"; "citations" := Num 8 ]} ] in
  exists r,
    (TimeAnalysis.analyze_publications_by_time 2024 df).1 = Ok r
    /\ Qsum ((fun ys => TimeAnalysis.citations_sum ys.2)
               <$> TimeAnalysis.citations_by_year r) == 12.
Proof.
  intros df.
  assert (exists r, (TimeAnalysis.analyze_publications_by_time 2024 df).1 = Ok r)
    as [r Hr] by (eexists; vm_compute; reflexivity).
  exists r. split; [exact Hr|].
  destruct (citations_by_year_total 2024 df r) as [_ ->].
  - vm_compute. reflexivity.
  - vm_compute. reflexivity.
  - exact Hr.
  - vm_compute. reflexivity.
Defined.

(** * [calculate_metrics] and [calculate_impact_metrics] on the same batch *)






Local Open Scope nat_scope.

(** * Properties of [analyze_keywords] *)

(** ** The first loop *)

Lemma extract_keywords_spec (rows : list Series)
    (acc acc' : list string * list (string * list Series)) :
  Keywords.extract_keywords acc rows = Ok acc' ->
  papers_of acc.1 acc.2 ->
  exists names,
    mapM (fun row => split_names (at_col "keywords" row)) rows = Ok names
    /\ acc'.1 = acc.1 ++ List.filter nonempty (concat names)
    /\ papers_of acc'.1 acc'.2.
Proof.
  revert acc. induction rows as [|row rows IH]; intros acc Hrun Hacc.
  - injection Hrun as <-. exists []. split; [done|]. simpl.
    by rewrite app_nil_r.
  - cbn [Keywords.extract_keywords] in Hrun. unfold Keywords.extract_step in Hrun.
    destruct (split_names (at_col "keywords" row)) as [names|e] eqn:Hnames;
      [|discriminate].
    cbn [mbind result_bind mret result_ret] in Hrun.
    destruct (credit_names row names acc Hacc) as [Hall Hpapers].
    apply IH in Hrun as (more & Hmore & Hall' & Hpapers'); [|done].
    exists (names :: more). split.
    + change (mapM (fun r => split_names (at_col "keywords" r)) (row :: rows))
        with (y ← split_names (at_col "keywords" row);
              k ← mapM (fun r => split_names (at_col "keywords" r)) rows;
              mret (y :: k)).
      by rewrite Hnames, Hmore.
    + split; [|done]. rewrite Hall', Hall. cbn [concat].
      by rewrite List.filter_app, <- app_assoc.
Qed.

(** ** The table of frequencies *)

Lemma tally_count_cons (a : string) (kv : string * nat) (counts : list (string * nat)) :
  tally_count a (kv :: counts)
  = (if String.eqb a kv.1 then kv.2 else 0) + tally_count a counts.
Proof. unfold tally_count. rewrite fmap_cons. by cbn [sum_list sum_list_with]. Qed.

Lemma tally_count_tally (a v : string) (counts : list (string * nat)) :
  tally_count a (tally v counts)
  = tally_count a counts + (if String.eqb a v then 1 else 0).
Proof.
  induction counts as [|[v' n] counts IH]; cbn [tally].
  - rewrite !tally_count_cons. cbn. destruct (String.eqb a v); lia.
  - destruct (String.eqb_spec v v') as [->|Hne].
    + rewrite !tally_count_cons. cbn [fst snd]. destruct (String.eqb a v'); lia.
    + rewrite !tally_count_cons, IH. lia.
Qed.

Lemma tally_keys (v : string) (counts : list (string * nat)) :
  (tally v counts).*1 = if bool_decide (v ∈ counts.*1) then counts.*1
                        else counts.*1 ++ [v].
Proof.
  induction counts as [|[v' n] counts IH]; [done|]. cbn [tally].
  destruct (String.eqb_spec v v') as [->|Hne].
  - rewrite bool_decide_eq_true_2; [done|]. rewrite fmap_cons. left.
  - rewrite !fmap_cons, IH. cbn [fst].
    destruct (decide (v ∈ counts.*1)) as [Hin|Hout].
    + rewrite !bool_decide_eq_true_2; [done|by right|done].
    + rewrite !bool_decide_eq_false_2; [done| |done].
      intros Hin. by apply elem_of_cons in Hin as [|].
Qed.

Lemma tally_positive (v : string) (counts : list (string * nat)) :
  Forall (fun kv => 0 < kv.2) counts -> Forall (fun kv => 0 < kv.2) (tally v counts).
Proof.
  induction 1 as [|[v' n] counts Hn Hrest IH]; cbn [tally].
  - repeat constructor.
  - destruct (String.eqb v v'); constructor; simpl in *; try done; lia.
Qed.

Lemma tally_sum (v : string) (counts : list (string * nat)) :
  sum_list (tally v counts).*2 = S (sum_list counts.*2).
Proof.
  induction counts as [|[v' n] counts IH]; [done|]. cbn [tally].
  destruct (String.eqb v v'); rewrite !fmap_cons; cbn [snd sum_list sum_list_with];
    [|rewrite IH]; unfold id; lia.
Qed.

Lemma tally_step (v : string) (values : list string) (counts : list (string * nat)) :
  tally_of values counts -> tally_of (values ++ [v]) (tally v counts).
Proof.
  intros (Hnodup & Hpositive & Hcount). split; [|split].
  - rewrite tally_keys. case_bool_decide; [done|].
    apply NoDup_app. split; [done|]. split; [|apply NoDup_singleton].
    intros x Hx Hv. apply list_elem_of_singleton in Hv as ->. done.
  - by apply tally_positive.
  - intros a. rewrite tally_count_tally, occurrences_app, Hcount.
    unfold occurrences. simpl. by destruct (String.eqb a v).
Qed.

Lemma tally_all (values : list string) :
  let counts := foldl (fun counts v => tally v counts) [] values in
  tally_of values counts /\ sum_list counts.*2 = length values.
Proof.
  enough (forall done counts,
            tally_of done counts /\ sum_list counts.*2 = length done ->
            let counts' := foldl (fun counts v => tally v counts) counts values in
            tally_of (done ++ values) counts'
            /\ sum_list counts'.*2 = length (done ++ values)) as Hgen.
  { apply (Hgen [] []). split; [|done].
    split; [constructor|]. split; [constructor|done]. }
  induction values as [|v values IH]; intros done counts [Hof Hsum] counts'.
  - subst counts'. by rewrite app_nil_r.
  - subst counts'. cbn [foldl].
    replace (done ++ v :: values) with ((done ++ [v]) ++ values)
      by (by rewrite <- app_assoc).
    apply IH. split; [by apply tally_step|].
    rewrite tally_sum, Hsum, length_app. simpl. lia.
Qed.

Lemma tally_count_absent (a : string) (counts : list (string * nat)) :
  a ∉ counts.*1 -> tally_count a counts = 0.
Proof.
  induction counts as [|[v n] counts IH]; intros Hout; [done|].
  rewrite tally_count_cons. cbn [fst snd]. rewrite fmap_cons in Hout.
  apply not_elem_of_cons in Hout as [Hne Hout]. rewrite IH by done.
  by destruct (String.eqb_spec a v).
Qed.

Lemma tally_count_unique (a : string) (n : nat) (counts : list (string * nat)) :
  NoDup counts.*1 -> (a, n) ∈ counts -> tally_count a counts = n.
Proof.
  induction counts as [|[v m] counts IH]; intros Hnodup Hin;
    [by apply elem_of_nil in Hin|].
  rewrite fmap_cons in Hnodup. apply NoDup_cons in Hnodup as [Hv Hnodup].
  rewrite tally_count_cons. cbn [fst snd].
  apply elem_of_cons in Hin as [[= <- <-]|Hin].
  - rewrite String.eqb_refl, tally_count_absent by done. lia.
  - rewrite IH by done. destruct (String.eqb_spec a v) as [->|_]; [|done].
    exfalso. apply Hv. apply list_elem_of_fmap. by exists (v, n).
Qed.

Lemma tally_count_perm (a : string) (counts counts' : list (string * nat)) :
  counts ≡ₚ counts' -> tally_count a counts = tally_count a counts'.
Proof. intros Hperm. unfold tally_count. by rewrite Hperm. Qed.

(** The rows of a tally: a value with the number of its occurrences, for
    every value that occurs. *)
Lemma tally_rows (values : list string) (counts : list (string * nat))
    (k : string) (n : nat) :
  tally_of values counts ->
  (k, n) ∈ counts <-> 0 < n /\ n = occurrences k values.
Proof.
  intros (Hnodup & Hpositive & Hcount). split.
  - intros Hin. split.
    + by apply (proj1 (Forall_forall _ _) Hpositive (k, n)).
    + by rewrite <- Hcount, (tally_count_unique k n).
  - intros [Hn ->]. rewrite <- Hcount in Hn |- *.
    destruct (decide (k ∈ counts.*1)) as [Hin|Hout];
      [|rewrite tally_count_absent in Hn by done; lia].
    apply list_elem_of_fmap in Hin as ([k' n'] & -> & Hin). cbn [fst].
    by rewrite (tally_count_unique k' n').
Qed.

Lemma tally_of_perm (values : list string) (counts counts' : list (string * nat)) :
  counts ≡ₚ counts' -> tally_of values counts -> tally_of values counts'.
Proof.
  intros Hperm (Hnodup & Hpositive & Hcount). split; [|split].
  - by rewrite <- Hperm.
  - by rewrite <- Hperm.
  - intros a. by rewrite <- (tally_count_perm a _ _ Hperm).
Qed.

Lemma value_counts_spec `{Sorting} (values : list string) :
  tally_of values (value_counts values)
  /\ sum_list (value_counts values).*2 = length values
  /\ StronglySorted (fun x y : string * nat => y.2 <= x.2) (value_counts values).
Proof.
  destruct (tally_all values) as [Hof Hsum]. unfold value_counts.
  split; [|split].
  - eapply tally_of_perm; [|exact Hof]. symmetry. apply sort_by_count_perm.
  - by rewrite sort_by_count_perm.
  - apply sort_by_count_sorted.
Qed.

(** ** The table of impact *)

Lemma keyword_metrics_spec (has_citations : bool)
    (keyword_papers : list (string * list Series))
    (metrics : list Keywords.KeywordStats) :
  Keywords.keyword_metrics has_citations keyword_papers = Ok metrics ->
  Forall2 keyword_stats_of metrics (List.filter frequent keyword_papers).
Proof.
  revert metrics. induction keyword_papers as [|[name papers] d IH];
    intros metrics Hrun; [injection Hrun as <-; constructor|].
  cbn [Keywords.keyword_metrics] in Hrun. cbn [List.filter].
  unfold frequent at 1. cbn [snd].
  destruct (length papers <? 3) eqn:Hlen.
  - apply Nat.ltb_lt in Hlen.
    assert ((3 <=? length papers) = false) as -> by (apply Nat.leb_gt; lia).
    by apply IH.
  - apply Nat.ltb_ge in Hlen.
    assert ((3 <=? length papers) = true) as -> by (by apply Nat.leb_le).
    destruct (Keywords.keyword_stats has_citations name papers) as [st|] eqn:Hst;
      [|discriminate].
    cbn [mbind result_bind] in Hrun.
    destruct (Keywords.keyword_metrics has_citations d) as [more|]; [|discriminate].
    injection Hrun as <-. constructor; [|by apply IH].
    unfold Keywords.keyword_stats in Hst. destruct (negb has_citations); [discriminate|].
    destruct (mapM numeric _); [|discriminate]. by injection Hst as <-.
Qed.

(** A successful run on a batch with keywords, step by step. *)
Lemma analyze_keywords_run `{Sorting} `{Dates} `{TitleVectorizer}
    (df : DataFrame) (r : Keywords.result_dict) :
  has_column df "keywords" = true -> all_na df "keywords" = false ->
  Keywords.analyze_keywords df = Ok r ->
  exists extracted,
    Keywords.extract_keywords ([], []) df = Ok extracted
    /\ Keywords.keyword_frequency r = value_counts extracted.1
    /\ Keywords.keyword_metrics (has_column df "citations") extracted.2
       = Ok (Keywords.keyword_impact r)
    /\ Keywords.trends (has_column df "publication_date") extracted.2
         (take 20 (Keywords.keyword_frequency r).*1)
       = Ok (Keywords.keyword_trends r).
Proof.
  intros Hhas Hna. unfold Keywords.analyze_keywords.
  assert (empty df = false) as ->.
  { destruct (empty df) eqn:Hempty; [|done].
    by rewrite (empty_has_no_column df "keywords" Hempty) in Hhas. }
  rewrite Hhas, Hna. cbn [negb andb].
  destruct (Keywords.extract_keywords ([], []) df) as [extracted|] eqn:Hextract;
    [|discriminate].
  cbn [mbind result_bind].
  destruct (Keywords.keyword_metrics _ _) as [metrics|] eqn:Hmetrics; [|discriminate].
  cbn [mbind result_bind].
  destruct (Keywords.trends _ _ _) as [rows|] eqn:Htrends; [|discriminate].
  cbn [mbind result_bind mret result_ret]. intros [= <-].
  exists extracted. by cbn.
Qed.

Lemma analyze_keywords_credited `{Sorting} `{Dates} `{TitleVectorizer}
    (df : DataFrame) (r : Keywords.result_dict) :
  has_column df "keywords" = true -> all_na df "keywords" = false ->
  Keywords.analyze_keywords df = Ok r ->
  exists keywords author_papers,
    credited_keywords df = Ok keywords
    /\ papers_of keywords author_papers
    /\ Keywords.keyword_frequency r = value_counts keywords
    /\ Keywords.keyword_metrics (has_column df "citations") author_papers
       = Ok (Keywords.keyword_impact r).
Proof.
  intros Hhas Hna Hr.
  destruct (analyze_keywords_run df r Hhas Hna Hr)
    as (extracted & Hextract & Hfrequency & Hmetrics & _).
  destruct (extract_keywords_spec df ([], []) extracted Hextract papers_of_nil)
    as (names & Hnames & Hall & Hpapers).
  cbn [fst app] in Hall.
  exists extracted.1, extracted.2. split; [|done].
  unfold credited_keywords. rewrite Hnames. cbn. by rewrite Hall.
Qed.

(** X16: in the mode of explicit keywords, [keyword_frequency] has one row for
    every keyword that the records credit, with the number of times they
    credit it, the most frequent first; the frequencies add up to the
    number of keywords credited. *)
Theorem keyword_frequency_table `{Sorting} `{Dates} `{TitleVectorizer}
    (df : DataFrame) (r : Keywords.result_dict) :
  has_column df "keywords" = true -> all_na df "keywords" = false ->
  Keywords.analyze_keywords df = Ok r ->
  exists keywords,
    credited_keywords df = Ok keywords
    /\ NoDup (Keywords.keyword_frequency r).*1
    /\ (forall k n, (k, n) ∈ Keywords.keyword_frequency r
                    <-> 0 < n /\ n = occurrences k keywords)
    /\ StronglySorted (fun x y : string * nat => y.2 <= x.2)
                      (Keywords.keyword_frequency r)
    /\ sum_list (Keywords.keyword_frequency r).*2 = length keywords.
Proof.
  intros Hhas Hna Hr.
  destruct (analyze_keywords_credited df r Hhas Hna Hr)
    as (keywords & keyword_papers & Hkeywords & _ & -> & _).
  destruct (value_counts_spec keywords) as (Hof & Hsum & Hsorted).
  exists keywords. split; [done|]. split; [apply Hof|].
  split; [intros k n; by apply tally_rows|]. by split.
Qed.

(** X17: in the same mode, [keyword_impact] has one row for every keyword that
    the records credit three times or more, and no other; [paper_count]
    is the number of times they credit it. *)
Theorem keyword_impact_table `{Sorting} `{Dates} `{TitleVectorizer}
    (df : DataFrame) (r : Keywords.result_dict) :
  has_column df "keywords" = true -> all_na df "keywords" = false ->
  Keywords.analyze_keywords df = Ok r ->
  exists keywords,
    credited_keywords df = Ok keywords
    /\ NoDup (Keywords.keyword <$> Keywords.keyword_impact r)
    /\ (forall st, st ∈ Keywords.keyword_impact r ->
          Keywords.paper_count st = occurrences (Keywords.keyword st) keywords
          /\ 3 <= Keywords.paper_count st)
    /\ (forall k, 3 <= occurrences k keywords ->
          k ∈ Keywords.keyword <$> Keywords.keyword_impact r).
Proof.
  intros Hhas Hna Hr.
  destruct (analyze_keywords_credited df r Hhas Hna Hr)
    as (keywords & keyword_papers & Hkeywords & (Hnodup & _ & Hcount) & _ & Hmetrics).
  apply keyword_metrics_spec in Hmetrics.
  assert (Keywords.keyword <$> Keywords.keyword_impact r
          = (List.filter frequent keyword_papers).*1) as Hnames.
  { clear -Hmetrics. induction Hmetrics as [|st kv metrics l [Hname _] _ IH]; [done|].
    rewrite !fmap_cons. by f_equal. }
  exists keywords. split; [done|]. split; [|split].
  - rewrite Hnames. by apply NoDup_filter_keys.
  - intros st Hst. apply list_elem_of_lookup in Hst as [i Hi].
    destruct (Forall2_lookup_l _ _ _ _ _ Hmetrics Hi) as (kv & Hkv & Hname & Hpc).
    apply list_elem_of_lookup_2, list_elem_of_In, filter_In in Hkv as [Hkv Hfrequent].
    apply list_elem_of_In in Hkv. destruct kv as [k papers]. cbn [fst snd] in *.
    unfold frequent in Hfrequent. cbn [snd] in Hfrequent.
    apply Nat.leb_le in Hfrequent. split; [|by rewrite Hpc].
    rewrite Hpc, Hname, <- Hcount. symmetry. by apply dict_count_unique.
  - intros k Hk. rewrite <- Hcount in Hk. rewrite Hnames.
    destruct (decide (k ∈ keyword_papers.*1)) as [Hin|Hout];
      [|rewrite dict_count_absent in Hk by done; lia].
    apply list_elem_of_fmap in Hin as ([k' papers] & -> & Hin). cbn [fst] in *.
    rewrite (dict_count_unique _ papers _ Hnodup Hin) in Hk.
    apply list_elem_of_fmap. exists (k', papers). split; [done|].
    apply list_elem_of_In, filter_In. split; [by apply list_elem_of_In|].
    unfold frequent. by apply Nat.leb_le.
Qed.

Lemma keyword_frequency_table_witness :
  let df := [ {[ "keywords" := Str "graphs, learning"; "citations" := Num 3 ]};
              {[ "keywords" := Str "learning ,graphs"; "citations" := Num 4 ]};
              {[ "keywords" := Str "learning"; "citations" := Num 1 ]};
              {[ "keywords" := Str " graphs, learning, "; "citations" := Num 7 ]} ] in
  exists r keywords,
    Keywords.analyze_keywords df = Ok r
    /\ credited_keywords df = Ok keywords
    /\ Keywords.keyword_frequency r = [("learning", 4); ("graphs", 3)]
    /\ sum_list (Keywords.keyword_frequency r).*2 = length keywords.
Proof.
  intros df.
  assert (exists r, Keywords.analyze_keywords df = Ok r
                    /\ Keywords.keyword_frequency r
                       = [("learning", 4); ("graphs", 3)])
    as (r & Hr & Hfrequency).
  { eexists. split; [vm_compute; reflexivity|reflexivity]. }
  destruct (keyword_frequency_table df r) as (keywords & Hkeywords & _ & _ & _ & Hsum).
  - vm_compute. reflexivity.
  - vm_compute. reflexivity.
  - exact Hr.
  - exists r, keywords. split; [exact Hr|]. split; [exact Hkeywords|].
    split; [exact Hfrequency|exact Hsum].
Defined.

Lemma keyword_impact_table_witness :
  let df := [ {[ "keywords" := Str "graphs, learning"; "citations" := Num 3 ]};
              {[ "keywords" := Str "learning ,graphs"; "citations" := Num 4 ]};
              {[ "keywords" := Str "learning, logic"; "citations" := Num 1 ]} ] in
  exists r keywords,
    Keywords.analyze_keywords df = Ok r
    /\ credited_keywords df = Ok keywords
    /\ Keywords.keyword <$> Keywords.keyword_impact r = ["learning"]
    /\ Keywords.paper_count <$> Keywords.keyword_impact r = [3].
Proof.
  intros df.
  assert (exists r, Keywords.analyze_keywords df = Ok r
                    /\ Keywords.keyword <$> Keywords.keyword_impact r = ["learning"]
                    /\ Keywords.paper_count <$> Keywords.keyword_impact r = [3])
    as (r & Hr & Hnames & Hcounts).
  { eexists. split; [vm_compute; reflexivity|]. split; reflexivity. }
  destruct (keyword_impact_table df r) as (keywords & Hkeywords & _).
  - vm_compute. reflexivity.
  - vm_compute. reflexivity.
  - exact Hr.
  - exists r, keywords. split; [exact Hr|]. split; [exact Hkeywords|].
    split; [exact Hnames|exact Hcounts].
Defined.

(** ** The table of trends *)

Lemma trend_rows_app (k : string) (rows rows' : list Keywords.KeywordTrend) :
  trend_rows k (rows ++ rows') = trend_rows k rows ++ trend_rows k rows'.
Proof. apply List.filter_app. Qed.

Lemma trend_rows_all (k : string) (rows : list Keywords.KeywordTrend) :
  Forall (fun row => Keywords.trend_keyword row = k) rows -> trend_rows k rows = rows.
Proof.
  induction 1 as [|row rows Hrow _ IH]; [done|]. unfold trend_rows in *.
  cbn [List.filter]. by rewrite Hrow, String.eqb_refl, IH.
Qed.

Lemma trend_rows_none (k : string) (rows : list Keywords.KeywordTrend) :
  Forall (fun row => Keywords.trend_keyword row <> k) rows -> trend_rows k rows = [].
Proof.
  induction 1 as [|row rows Hrow _ IH]; [done|]. unfold trend_rows in *.
  cbn [List.filter]. by destruct (String.eqb_spec (Keywords.trend_keyword row) k).
Qed.

(** The rows of one keyword: its years in ascending order, each with a
    number of papers that is not zero; together they count no more papers
    than the keyword has. *)
Lemma yearly_counts_spec `{Dates} (name : string) (papers : list Series)
    (rows : list Keywords.KeywordTrend) :
  Keywords.yearly_counts name papers = Ok rows ->
  Forall (fun row => Keywords.trend_keyword row = name
                     /\ 0 < Keywords.trend_count row) rows
  /\ StronglySorted Z.lt (Keywords.trend_year <$> rows)
  /\ sum_list (Keywords.trend_count <$> rows) <= length papers.
Proof.
  unfold Keywords.yearly_counts.
  destruct (to_datetime_raise (column papers "publication_date"))
    as [dates|] eqn:Hdates; [|discriminate].
  cbn [mbind result_bind mret result_ret]. intros [= <-].
  apply to_datetime_raise_length in Hdates. rewrite column_length in Hdates.
  set (year := (fun d : option date => date_year <$> d) <$> dates).
  split; [|split].
  - apply Forall_fmap. eapply Forall_impl; [apply (groupby_nonempty year year)|].
    intros g Hg. by split.
  - rewrite <- list_fmap_compose.
    eapply StronglySorted_fmap; [|apply (groupby_ascending year year)].
    by intros g g' Hlt.
  - rewrite <- list_fmap_compose.
    change (sum_list ((Keywords.trend_count
                         ∘ (fun g : Z * list (option Z) =>
                              {| Keywords.trend_keyword := name;
                                 Keywords.trend_year := g.1;
                                 Keywords.trend_count := length g.2 |}))
                        <$> groupby year year))
      with (group_sizes (groupby year year)).
    rewrite groupby_sizes by done.
    etransitivity; [apply omap_id_length|].
    unfold year. by rewrite length_fmap, Hdates.
Qed.

Lemma dict_get_Some {A} (k : string) (vs : list A) (d : list (string * list A)) :
  dict_get k d = Some vs -> (k, vs) ∈ d.
Proof.
  induction d as [|[k' ws] d IH]; [done|]. cbn [dict_get].
  destruct (String.eqb_spec k k') as [->|_].
  - intros [= ->]. left.
  - intros Hget. right. by apply IH.
Qed.

(** The loop over the keywords of the trends. *)
Lemma trends_spec `{Dates} (has_date : bool)
    (keyword_papers : list (string * list Series)) (top_keywords : list string)
    (rows : list Keywords.KeywordTrend) :
  NoDup top_keywords ->
  Keywords.trends has_date keyword_papers top_keywords = Ok rows ->
  (has_date = false -> rows = [])
  /\ Forall (fun row => Keywords.trend_keyword row ∈ top_keywords
                        /\ 0 < Keywords.trend_count row) rows
  /\ forall k,
       StronglySorted Z.lt (Keywords.trend_year <$> trend_rows k rows)
       /\ sum_list (Keywords.trend_count <$> trend_rows k rows)
          <= default 0 (length <$> dict_get k keyword_papers).
Proof.
  intros Hnodup. revert rows.
  induction Hnodup as [|name rest Hname _ IH]; intros rows Hrun.
  { injection Hrun as <-. split; [done|]. split; [constructor|].
    intros k. split; [constructor|simpl; lia]. }
  cbn [Keywords.trends] in Hrun.
  assert (forall more,
            Keywords.trends has_date keyword_papers rest = Ok more ->
            (has_date = false -> more = [])
            /\ Forall (fun row => Keywords.trend_keyword row ∈ name :: rest
                                  /\ 0 < Keywords.trend_count row) more
            /\ forall k,
                 StronglySorted Z.lt (Keywords.trend_year <$> trend_rows k more)
                 /\ sum_list (Keywords.trend_count <$> trend_rows k more)
                    <= default 0 (length <$> dict_get k keyword_papers)) as Hskip.
  { intros more Hmore. destruct (IH more Hmore) as (Hnone & Hrows & Hk).
    split; [done|]. split; [|done].
    eapply Forall_impl; [exact Hrows|]. intros row [Hin Hpos]. split; [by right|done]. }
  destruct (dict_get name keyword_papers) as [papers|] eqn:Hget; [|by apply Hskip].
  destruct has_date; [|by apply Hskip].
  destruct (Keywords.yearly_counts name papers) as [first|] eqn:Hfirst; [|discriminate].
  cbn [mbind result_bind] in Hrun.
  destruct (Keywords.trends true keyword_papers rest) as [more|] eqn:Hmore;
    [|discriminate].
  injection Hrun as <-.
  destruct (yearly_counts_spec name papers first Hfirst) as (Hrows & Hsorted & Hsum).
  destruct (IH more eq_refl) as (_ & Hmore_rows & Hmore_k).
  split; [discriminate|]. split.
  - apply Forall_app. split.
    + eapply Forall_impl; [exact Hrows|]. intros row [-> Hpos]. split; [left|done].
    + eapply Forall_impl; [exact Hmore_rows|]. intros row [Hin Hpos].
      split; [by right|done].
  - intros k. rewrite trend_rows_app.
    destruct (decide (k = name)) as [->|Hne].
    + rewrite (trend_rows_all name first), (trend_rows_none name more), app_nil_r.
      * split; [done|]. by rewrite Hget.
      * eapply Forall_impl; [exact Hmore_rows|]. intros row [Hin _] Heq.
        apply Hname. by rewrite <- Heq.
      * eapply Forall_impl; [exact Hrows|]. by intros row [Heq _].
    + rewrite (trend_rows_none k first); [apply Hmore_k|].
      eapply Forall_impl; [exact Hrows|]. intros row [Heq _]. congruence.
Qed.

(** X18: in the mode of explicit keywords, [keyword_trends] is empty when the
    batch has no [publication_date]; its rows are for keywords among the
    20 first of [keyword_frequency] and count at least one paper; the rows
    of one keyword list its years in strictly ascending order, and count
    together no more papers than the records credit to the keyword. *)
Theorem keyword_trends_table `{Sorting} `{Dates} `{TitleVectorizer}
    (df : DataFrame) (r : Keywords.result_dict) :
  has_column df "keywords" = true -> all_na df "keywords" = false ->
  Keywords.analyze_keywords df = Ok r ->
  exists keywords,
    credited_keywords df = Ok keywords
    /\ (has_column df "publication_date" = false -> Keywords.keyword_trends r = [])
    /\ Forall (fun row =>
                 Keywords.trend_keyword row
                   ∈ take 20 (Keywords.keyword_frequency r).*1
                 /\ 0 < Keywords.trend_count row) (Keywords.keyword_trends r)
    /\ forall k,
         StronglySorted Z.lt
           (Keywords.trend_year <$> trend_rows k (Keywords.keyword_trends r))
         /\ sum_list (Keywords.trend_count
                        <$> trend_rows k (Keywords.keyword_trends r))
            <= occurrences k keywords.
Proof.
  intros Hhas Hna Hr.
  destruct (analyze_keywords_run df r Hhas Hna Hr)
    as (extracted & Hextract & Hfrequency & _ & Htrends).
  destruct (extract_keywords_spec df ([], []) extracted Hextract papers_of_nil)
    as (names & Hnames & Hall & Hnodup & _ & Hcount).
  cbn [fst app] in Hall.
  destruct (value_counts_spec extracted.1) as ((Hkeys & _) & _).
  rewrite <- Hfrequency in Hkeys.
  apply trends_spec in Htrends as (Hnone & Hrows & Hk);
    [|by eapply sublist_NoDup; [|apply sublist_take]].
  exists extracted.1. split.
  { unfold credited_keywords. rewrite Hnames. cbn. by rewrite Hall. }
  split; [done|]. split; [done|].
  intros k. destruct (Hk k) as [Hsorted Hsum]. split; [done|].
  etransitivity; [exact Hsum|].
  destruct (dict_get k extracted.2) as [papers|] eqn:Hget; [|simpl; lia].
  apply dict_get_Some in Hget. simpl.
  by rewrite <- Hcount, (dict_count_unique k papers).
Qed.

Lemma keyword_trends_table_witness :
  let df := [ {[ "keywords" := Str "graphs, learning"; "citations" := Num 3;
                 "publication_date" := Str "2021-06-01" ]};
              {[ "keywords" := Str "learning"; "citations" := Num 4;
                 "publication_date" := Str "2019-03-04" ]};
              {[ "keywords" := Str "learning, graphs"; "citations" := Num 1 ]} ] in
  exists r,
    Keywords.analyze_keywords df = Ok r
    /\ trend_rows "learning" (Keywords.keyword_trends r)
       = [ {| Keywords.trend_keyword := "learning"; Keywords.trend_year := 2019;
              Keywords.trend_count := 1 |};
           {| Keywords.trend_keyword := "learning"; Keywords.trend_year := 2021;
              Keywords.trend_count := 1 |} ]
    /\ StronglySorted Z.lt
         (Keywords.trend_year <$> trend_rows "learning" (Keywords.keyword_trends r)).
Proof.
  intros df.
  assert (exists r,
            Keywords.analyze_keywords df = Ok r
            /\ trend_rows "learning" (Keywords.keyword_trends r)
               = [ {| Keywords.trend_keyword := "learning";
                      Keywords.trend_year := 2019; Keywords.trend_count := 1 |};
                   {| Keywords.trend_keyword := "learning";
                      Keywords.trend_year := 2021; Keywords.trend_count := 1 |} ])
    as (r & Hr & Hrows).
  { eexists. split; [vm_compute; reflexivity|reflexivity]. }
  destruct (keyword_trends_table df r) as (keywords & _ & _ & _ & Hk).
  - vm_compute. reflexivity.
  - vm_compute. reflexivity.
  - exact Hr.
  - exists r. split; [exact Hr|]. split; [exact Hrows|]. apply Hk.
Defined.
